(** * DeltaWash: the wash interpreter pipeline, embedded from the Python sources

    The development follows the layout of [src/deltawash_pi]:
    - [interpreter/types.py], [config/loader.py]: the data model;
    - [interpreter/session_manager.py]: the session gate;
    - [feedback/esp8266.py]: the LED client;
    - [interpreter/state_machine.py]: the per-step interpreter;
    - [demo/replay.py], [cli/_demo_utils.py], [detectors], [cli/demo.py]:
      the replay harness and its verification;
    - [logging/sessions.py], [cli/capture.py]: record assembly.

    Python [int] is [Z], Python [float] is the kernel's binary64 [float],
    a [dict] is a [gmap], an [Optional] is an [option], a raised exception
    is the [Raise] branch of [result]. *)

From Stdlib Require Import ZArith Floats Lia.
From stdpp Require Import gmap strings list pretty.

Open Scope Z_scope.

(** ** Python values and the few builtins the sources rely on *)

Inductive PyExc :=
  | KeyError | TypeError | ValueError | OverflowError | ZeroDivisionError | ManifestError.

Inductive result (A : Type) :=
  | Ok (a : A)
  | Raise (e : PyExc).
Arguments Ok {A} a.
Arguments Raise {A} e.

Global Instance result_ret : MRet result := λ A a, Ok a.
Global Instance result_bind : MBind result := λ A B f m,
  match m with
  | Ok a => f a
  | Raise e => Raise e
  end.

(** Values found in the open [metadata] mapping of a frame ([Dict[str, Any]]).
    [PyInference] is a cached classifier result: an [MLStepResult], or a
    dictionary holding a [str] label, a numeric confidence and a [str] source.
    [PyObj] stands for any object that is none of the others. *)
Inductive PyVal :=
  | PyNone
  | PyBool (b : bool)
  | PyInt (z : Z)
  | PyFloat (f : float)
  | PyStr (s : string)
  | PyInference (label : string) (confidence : float) (source : string)
  | PyObj.

(** Truthiness: [None], [False], zeros and the empty string are falsy (NaN is
    not); the objects [PyInference] and [PyObj] stand for are truthy. *)
Definition py_truthy (v : PyVal) : bool :=
  match v with
  | PyNone => false
  | PyBool b => b
  | PyInt z => negb (z =? 0)
  | PyFloat f => negb (PrimFloat.eqb f 0)
  | PyStr s => negb (String.eqb s "")
  | PyInference _ _ _ | PyObj => true
  end.

(** [isinstance(v, int)]: [bool] is a subclass of [int]. *)
Definition isinstance_int (v : PyVal) : bool :=
  match v with
  | PyInt _ | PyBool _ => true
  | _ => false
  end.

(** The exact order between a binary64 value and an integer, as Python
    compares a [float] with an [int] (no rounding of the integer). *)
Definition float_lt_Z (f : float) (n : Z) : bool :=
  match Prim2SF f with
  | S754_nan => false
  | S754_infinity s => s
  | S754_zero _ => 0 <? n
  | S754_finite s m e =>
      let v := if s then Z.neg m else Z.pos m in
      if 0 <=? e then v * 2 ^ e <? n else v <? n * 2 ^ (- e)
  end.

(** [v < n] for an [int] [n]; ordering a [str], [None] or plain object against
    an [int] raises [TypeError]. *)
Definition py_lt_int (v : PyVal) (n : Z) : result bool :=
  match v with
  | PyInt z => Ok (z <? n)
  | PyBool b => Ok (Z.b2z b <? n)
  | PyFloat f => Ok (float_lt_Z f n)
  | _ => Raise TypeError
  end.

(** [max(a, b)] on floats: the second argument wins only when it is
    strictly greater (comparisons with NaN are false). *)
Definition py_max_float (a b : float) : float :=
  if PrimFloat.ltb a b then b else a.

(** [round(x)] for a float [x]: the nearest integer of the exact value, ties
    to even; [OverflowError] on an infinity, [ValueError] on NaN. *)
Definition py_round (x : float) : result Z :=
  match Prim2SF x with
  | S754_zero _ => Ok 0
  | S754_infinity _ => Raise OverflowError
  | S754_nan => Raise ValueError
  | S754_finite s m e =>
      let v :=
        if 0 <=? e then Z.pos m * 2 ^ e
        else
          let d := 2 ^ (- e) in
          let q := Z.pos m / d in
          let r := Z.pos m mod d in
          if 2 * r <? d then q
          else if d <? 2 * r then q + 1
          else if Z.even q then q else q + 1 in
      Ok (if s then - v else v)
  end.

(** [float(n)] for an [int] [n]: the nearest binary64 value, ties to even;
    [OverflowError] when it is out of range. *)
Definition py_float_of_int (n : Z) : result float :=
  let f := SF2Prim (SpecFloat.binary_normalize prec emax n 0 false) in
  if PrimFloat.is_infinity f then Raise OverflowError else Ok f.

(** [x / n] for a float [x] and an [int] [n]: [n] is converted first, and a
    zero divisor raises. *)
Definition py_float_div_int (x : float) (n : Z) : result float :=
  divisor ← py_float_of_int n;
  if PrimFloat.eqb divisor 0 then Raise ZeroDivisionError else Ok (x / divisor)%float.

(** [a / b] for two [int]: the correctly rounded quotient. *)
Definition py_int_truediv (a b : Z) : result float :=
  let exact (n : Z) : spec_float :=
    match n with
    | 0 => S754_zero false
    | Z.pos m => S754_finite false m 0
    | Z.neg m => S754_finite true m 0
    end in
  if b =? 0 then Raise ZeroDivisionError
  else
    let f := SF2Prim (SpecFloat.SFdiv prec emax (exact a) (exact b)) in
    if PrimFloat.is_infinity f then Raise OverflowError else Ok f.

(** Truthiness of an [Optional[str]]: [None] and the empty string are falsy. *)
Definition truthy_str (o : option string) : bool :=
  match o with
  | Some s => negb (String.eqb s "")
  | None => false
  end.

(** ** interpreter/types.py *)

(** Each string enum is a module, so that its members read as in the
    sources ([StepState.COMPLETED], [LedSignalState.COMPLETED]); [value] is
    the member's [.value] and [of_value] the enum's constructor, with [None]
    for the [ValueError] of an unknown value. *)

Module StepID.
Inductive t := STEP_2 | STEP_3 | STEP_4 | STEP_5 | STEP_6 | STEP_7.

Definition all : list t := [STEP_2; STEP_3; STEP_4; STEP_5; STEP_6; STEP_7].

Definition value (s : t) : string :=
  match s with
  | STEP_2 => "STEP_2" | STEP_3 => "STEP_3" | STEP_4 => "STEP_4"
  | STEP_5 => "STEP_5" | STEP_6 => "STEP_6" | STEP_7 => "STEP_7"
  end.

Definition of_value (v : string) : option t :=
  snd <$> list_find (λ s, value s = v) all.

(** [value.lower()]. *)
Definition value_lower (s : t) : string :=
  match s with
  | STEP_2 => "step_2" | STEP_3 => "step_3" | STEP_4 => "step_4"
  | STEP_5 => "step_5" | STEP_6 => "step_6" | STEP_7 => "step_7"
  end.

Definition index (s : t) : nat :=
  match s with
  | STEP_2 => 0 | STEP_3 => 1 | STEP_4 => 2
  | STEP_5 => 3 | STEP_6 => 4 | STEP_7 => 5
  end%nat.

Definition of_index (n : nat) : t :=
  match n with
  | 0 => STEP_2 | 1 => STEP_3 | 2 => STEP_4
  | 3 => STEP_5 | 4 => STEP_6 | _ => STEP_7
  end%nat.
End StepID.

Module StepOrientation.
Inductive t :=
  | NONE
  | RIGHT_OVER_LEFT
  | LEFT_OVER_RIGHT
  | LEFT_THUMB
  | RIGHT_THUMB
  | LEFT_FINGERTIPS
  | RIGHT_FINGERTIPS.

Definition all : list t :=
  [NONE; RIGHT_OVER_LEFT; LEFT_OVER_RIGHT; LEFT_THUMB; RIGHT_THUMB;
   LEFT_FINGERTIPS; RIGHT_FINGERTIPS].

Definition value (o : t) : string :=
  match o with
  | NONE => "NONE"
  | RIGHT_OVER_LEFT => "RIGHT_OVER_LEFT"
  | LEFT_OVER_RIGHT => "LEFT_OVER_RIGHT"
  | LEFT_THUMB => "LEFT_THUMB"
  | RIGHT_THUMB => "RIGHT_THUMB"
  | LEFT_FINGERTIPS => "LEFT_FINGERTIPS"
  | RIGHT_FINGERTIPS => "RIGHT_FINGERTIPS"
  end.

Definition of_value (v : string) : option t :=
  snd <$> list_find (λ o, value o = v) all.

Definition index (o : t) : nat :=
  match o with
  | NONE => 0 | RIGHT_OVER_LEFT => 1 | LEFT_OVER_RIGHT => 2 | LEFT_THUMB => 3
  | RIGHT_THUMB => 4 | LEFT_FINGERTIPS => 5 | RIGHT_FINGERTIPS => 6
  end%nat.

Definition of_index (n : nat) : t :=
  match n with
  | 0 => NONE | 1 => RIGHT_OVER_LEFT | 2 => LEFT_OVER_RIGHT | 3 => LEFT_THUMB
  | 4 => RIGHT_THUMB | 5 => LEFT_FINGERTIPS | _ => RIGHT_FINGERTIPS
  end%nat.
End StepOrientation.

Module StepState.
Inductive t := NOT_STARTED | IN_PROGRESS | COMPLETED | UNCERTAIN.

Definition value (s : t) : string :=
  match s with
  | NOT_STARTED => "NOT_STARTED"
  | IN_PROGRESS => "IN_PROGRESS"
  | COMPLETED => "COMPLETED"
  | UNCERTAIN => "UNCERTAIN"
  end.
End StepState.

Module UncertaintyReason.
Inductive t := AMBIGUOUS_HANDS | LOW_CONFIDENCE | CAMERA_DROPPED | ROI_EXIT.

Definition value (r : t) : string :=
  match r with
  | AMBIGUOUS_HANDS => "AMBIGUOUS_HANDS"
  | LOW_CONFIDENCE => "LOW_CONFIDENCE"
  | CAMERA_DROPPED => "CAMERA_DROPPED"
  | ROI_EXIT => "ROI_EXIT"
  end.
End UncertaintyReason.

Module LedSignalState.
Inductive t := CURRENT | COMPLETED | IDLE.

Definition value (s : t) : string :=
  match s with
  | CURRENT => "CURRENT"
  | COMPLETED => "COMPLETED"
  | IDLE => "IDLE"
  end.
End LedSignalState.

Module StepSignalSource.
Inductive t := MODEL | HEURISTIC | DEMO.
End StepSignalSource.

Global Instance StepID_eq_dec : EqDecision StepID.t.
Proof. solve_decision. Defined.
Global Instance StepOrientation_eq_dec : EqDecision StepOrientation.t.
Proof. solve_decision. Defined.
Global Instance StepState_eq_dec : EqDecision StepState.t.
Proof. solve_decision. Defined.
Global Instance LedSignalState_eq_dec : EqDecision LedSignalState.t.
Proof. solve_decision. Defined.
Global Instance UncertaintyReason_eq_dec : EqDecision UncertaintyReason.t.
Proof. solve_decision. Defined.
Global Instance StepSignalSource_eq_dec : EqDecision StepSignalSource.t.
Proof. solve_decision. Defined.

Global Instance StepID_countable : Countable StepID.t.
Proof. by refine (inj_countable' StepID.index StepID.of_index _); intros []. Defined.
Global Instance StepOrientation_countable : Countable StepOrientation.t.
Proof.
  by refine (inj_countable' StepOrientation.index StepOrientation.of_index _); intros [].
Defined.

(** [config.loader.ROI] *)
Module ROI.
Record t := mk { x : Z; y : Z; width : Z; height : Z }.
End ROI.

Module MotionMetrics.
Record t := mk { mean_velocity : float; relative_motion : float }.
End MotionMetrics.

(** [landmarks] and [image] are [Any]; the replay source sets both to [None]. *)
Module FramePacket.
Record t := mk {
  frame_id : Z;
  timestamp_ms : Z;
  roi : ROI.t;
  config_version : string;
  motion : MotionMetrics.t;
  landmarks : PyVal;
  image : PyVal;
  metadata : gmap string PyVal;
}.
End FramePacket.

Module StepSignal.
Record t := mk {
  step_id : StepID.t;
  orientation : StepOrientation.t;
  confidence : float;
  is_confident : bool;
  timestamp_ms : Z;
  source : StepSignalSource.t;
  notes : option string;
}.
End StepSignal.

Module StepStatus.
Record t := mk {
  step_id : StepID.t;
  orientation : StepOrientation.t;
  state : StepState.t;
  accumulated_ms : Z;
  completed_ts : option Z;
  uncertainty_count : Z;
}.
(** [StepStatus(step_id=step)]: the dataclass defaults. *)
Definition new (step : StepID.t) : t :=
  mk step StepOrientation.NONE StepState.NOT_STARTED 0 None 0.

(** Assignments to the attributes of a status object. *)
Definition set_orientation (v : StepOrientation.t) (s : t) : t :=
  mk (step_id s) v (state s) (accumulated_ms s) (completed_ts s) (uncertainty_count s).
Definition set_state (v : StepState.t) (s : t) : t :=
  mk (step_id s) (orientation s) v (accumulated_ms s) (completed_ts s) (uncertainty_count s).
Definition set_accumulated_ms (v : Z) (s : t) : t :=
  mk (step_id s) (orientation s) (state s) v (completed_ts s) (uncertainty_count s).
Definition set_completed_ts (v : option Z) (s : t) : t :=
  mk (step_id s) (orientation s) (state s) (accumulated_ms s) v (uncertainty_count s).
Definition set_uncertainty_count (v : Z) (s : t) : t :=
  mk (step_id s) (orientation s) (state s) (accumulated_ms s) (completed_ts s) v.
End StepStatus.

Module UncertaintyEvent.
Record t := mk {
  timestamp_ms : Z;
  reason : UncertaintyReason.t;
  details : option string;
}.
End UncertaintyEvent.

(** ** config/loader.py *)

Definition VALID_STEP_IDS : list string :=
  ["STEP_2"; "STEP_3"; "STEP_4"; "STEP_5"; "STEP_6"; "STEP_7"].

Module SessionConfig.
Record t := mk {
  motion_threshold : float;
  relative_motion_threshold : float;
  start_window_frames : Z;
  stop_timeout_ms : Z;
  min_hands : Z;
  require_motion : bool;
}.
End SessionConfig.

Module StepThreshold.
Record t := mk {
  duration_ms : Z;
  confidence_min : float;
  orientation_hint : option string;
}.
End StepThreshold.

Module Esp8266Config.
Record t := mk {
  enabled : bool;
  host : option string;
  endpoint : option string;
  timeout_ms : Z;
  blink_hz : float;
}.
End Esp8266Config.

(** The fields of [Config] the pipeline reads ([source], [video_capture],
    [demo_recording], [resolution] and [hand_tracking] are not read by it). *)
Module Config.
Record t := mk {
  config_version : string;
  roi : ROI.t;
  session : SessionConfig.t;
  steps : gmap string StepThreshold.t;
  esp8266 : Esp8266Config.t;
}.
End Config.

(** ** collections.deque with a [maxlen], as the session gate uses it *)

Module Deque.
Record t (A : Type) := mk { items : list A; maxlen : Z }.
Arguments mk {A} items maxlen.
Arguments items {A} _.
Arguments maxlen {A} _.

(** [deque(maxlen=n)]: a negative [maxlen] is a [ValueError]. *)
Definition new {A} (n : Z) : result (t A) :=
  if n <? 0 then Raise ValueError else Ok (mk [] n).

(** [d.append(x)]: the item is added on the right, and the leftmost one is
    dropped when the length exceeds [maxlen]. *)
Definition append {A} (d : t A) (x : A) : t A :=
  let l := items d ++ [x] in
  mk (if maxlen d <? Z.of_nat (length l) then tail l else l) (maxlen d).

Definition clear {A} (d : t A) : t A := mk [] (maxlen d).

Definition len {A} (d : t A) : Z := Z.of_nat (length (items d)).
End Deque.

(** ** interpreter/session_manager.py *)

Module SessionEventType.
Inductive t := STARTED | ENDED.
End SessionEventType.

(** The [details] dictionary of a session event: [{"roi": ...}] on a start,
    [{"reason": ..., "duration_ms": ...}] on an end. *)
Inductive SessionEventDetails :=
  | StartedDetails (roi : ROI.t)
  | EndedDetails (reason : string) (duration_ms : Z).

Module SessionEvent.
Record t := mk {
  event_type : SessionEventType.t;
  session_id : string;
  timestamp_ms : Z;
  config_version : string;
  details : SessionEventDetails;
}.
End SessionEvent.

Module SessionManager.

(** The attributes of a [SessionManager]. [uuid_calls] counts the calls of
    [uuid4()] made so far: the generator is the function [uuid4] below, from
    the index of a call to the string it returned. Events handed to the
    callback are returned, in order, beside the new state. *)
Record t := mk {
  _config : Config.t;
  _start_window : Deque.t bool;
  _session_active : bool;
  _current_session_id : option string;
  _session_start_ts : option Z;
  _last_active_ts : option Z;
  uuid_calls : nat;
}.

Definition __init__ (config : Config.t) : result t :=
  window ← Deque.new (SessionConfig.start_window_frames (Config.session config));
  Ok (mk config window false None None None 0%nat).

Definition _extract_int (packet : FramePacket.t) (key : string) (dflt : PyVal) : PyVal :=
  let value := default dflt (FramePacket.metadata packet !! key) in
  if isinstance_int value then value else dflt.

Definition _meets_start_conditions (self : t) (packet : FramePacket.t) : result bool :=
  let session := Config.session (_config self) in
  let hands_total := _extract_int packet "hand_count" (PyInt 0) in
  lt_total ← py_lt_int hands_total (SessionConfig.min_hands session);
  if lt_total : bool then Ok false else
  let hands_in_roi := _extract_int packet "hands_in_roi" hands_total in
  lt_roi ← py_lt_int hands_in_roi (SessionConfig.min_hands session);
  if lt_roi : bool then Ok false else
  if SessionConfig.require_motion session then
    let motion := FramePacket.motion packet in
    if PrimFloat.ltb (MotionMetrics.mean_velocity motion) (SessionConfig.motion_threshold session)
    then Ok false
    else if PrimFloat.ltb (MotionMetrics.relative_motion motion)
              (SessionConfig.relative_motion_threshold session)
    then Ok false
    else Ok true
  else Ok true.

Section WithUuid.
Variable uuid4 : nat → string.

Definition _start_session (self : t) (timestamp_ms : Z) : t * list SessionEvent.t :=
  let sid := uuid4 (uuid_calls self) in
  let cfg := _config self in
  (mk cfg (_start_window self) true (Some sid) (Some timestamp_ms) (Some timestamp_ms)
      (S (uuid_calls self)),
   [SessionEvent.mk SessionEventType.STARTED sid timestamp_ms (Config.config_version cfg)
      (StartedDetails (Config.roi cfg))]).

Definition _end_session (self : t) (timestamp_ms : Z) (reason : string)
  : t * list SessionEvent.t :=
  match _session_active self, _current_session_id self, _session_start_ts self with
  | true, Some sid, Some start_ts =>
      let duration := Z.max 0 (timestamp_ms - start_ts) in
      (mk (_config self) (Deque.clear (_start_window self)) false None None None
          (uuid_calls self),
       [SessionEvent.mk SessionEventType.ENDED sid timestamp_ms (Config.config_version (_config self))
          (EndedDetails reason duration)])
  | _, _, _ => (self, [])
  end.

Definition process_frame (self : t) (packet : FramePacket.t)
  : result (t * list SessionEvent.t) :=
  gate_ok ← _meets_start_conditions self packet;
  let self := mk (_config self) (Deque.append (_start_window self) gate_ok)
                 (_session_active self) (_current_session_id self)
                 (_session_start_ts self) (_last_active_ts self) (uuid_calls self) in
  let ts := FramePacket.timestamp_ms packet in
  if negb (_session_active self) then
    if (Deque.len (_start_window self) =? Deque.maxlen (_start_window self))
       && forallb id (Deque.items (_start_window self))
    then Ok (_start_session self ts)
    else Ok (self, [])
  else
    if gate_ok : bool then
      Ok (mk (_config self) (_start_window self) (_session_active self)
             (_current_session_id self) (_session_start_ts self) (Some ts)
             (uuid_calls self), [])
    else
      match _last_active_ts self with
      | Some last =>
          let elapsed := ts - last in
          if SessionConfig.stop_timeout_ms (Config.session (_config self)) <=? elapsed
          then Ok (_end_session self ts "timeout")
          else Ok (self, [])
      | None => Ok (self, [])
      end.

(** [reset()]: [self._last_active_ts or 0] is [0] for [None] (and for [0]). *)
Definition reset (self : t) : t * list SessionEvent.t :=
  let '(self, events) :=
    if _session_active self
    then _end_session self (default 0 (_last_active_ts self)) "reset"
    else (self, []) in
  (mk (_config self) (Deque.clear (_start_window self)) (_session_active self)
      (_current_session_id self) (_session_start_ts self) (_last_active_ts self)
      (uuid_calls self), events).

(** A stream of frames pushed through [process_frame], with the events of
    each frame kept apart: the [i]-th entry holds what frame [i] emitted. *)
Fixpoint process_frames (self : t) (packets : list FramePacket.t)
  : result (t * list (list SessionEvent.t)) :=
  match packets with
  | [] => Ok (self, [])
  | packet :: rest =>
      '(self, events) ← process_frame self packet;
      '(self, later) ← process_frames self rest;
      Ok (self, events :: later)
  end.

End WithUuid.
End SessionManager.

(** ** feedback/esp8266.py *)

(** The JSON body of a [/signal] request. *)
Module LedPayload.
Record t := mk {
  step : Z;
  step_id : string;
  state : string;
  timestamp_ms : Z;
  blink_hz : float;
}.
End LedPayload.

(** What the client sends: a POST to [_reset_endpoint], or a POST of a payload
    to [_signal_endpoint] (both URLs are fixed when the client is built). *)
Inductive HttpRequest :=
  | POST_reset
  | POST_signal (payload : LedPayload.t).

(** The interface [LedPublisher] of [interpreter/state_machine.py]. *)
Class LedPublisher (L : Type) := {
  led_start_session : L → string → L;
  led_end_session : L → L;
  led_publish : L → StepID.t → LedSignalState.t → Z → L * bool;
}.

Module Esp8266Client.

Definition _STEP_TO_NUMBER (step : StepID.t) : Z :=
  match step with
  | StepID.STEP_2 => 2 | StepID.STEP_3 => 3 | StepID.STEP_4 => 4
  | StepID.STEP_5 => 5 | StepID.STEP_6 => 6 | StepID.STEP_7 => 7
  end.

(** The attributes of the client, and [sent]: every request it has issued,
    oldest first. *)
Record t := mk {
  _config : Esp8266Config.t;
  _session_id : option string;
  _disabled : bool;
  _last_error : option string;
  _last_states : gmap StepID.t LedSignalState.t;
  sent : list HttpRequest;
}.

Definition __init__ (config : Esp8266Config.t) : t :=
  mk config None (negb (Esp8266Config.enabled config)) None ∅ [].

Definition enabled (self : t) : bool := Esp8266Config.enabled (_config self).
Definition disabled (self : t) : bool := _disabled self.
Definition last_error (self : t) : option string := _last_error self.

Definition _build_payload (self : t) (step_id : StepID.t) (state : LedSignalState.t)
    (timestamp_ms : Z) : LedPayload.t :=
  LedPayload.mk (_STEP_TO_NUMBER step_id) (StepID.value step_id)
    (LedSignalState.value state) timestamp_ms (Esp8266Config.blink_hz (_config self)).

Definition _disable (self : t) (reason : string) : t :=
  if _disabled self then self
  else mk (_config self) (_session_id self) true (Some reason) (_last_states self) (sent self).

Section WithTransport.
(** The endpoint and the network between: given the requests issued before
    and the one issued now, [None] when the POST returns a success status,
    [Some text] when [post] or [raise_for_status] raises a
    [requests.RequestException], [text] being the class name and message. *)
Variable transport : list HttpRequest → HttpRequest → option string.

Definition post (self : t) (request : HttpRequest) : t * option string :=
  (mk (_config self) (_session_id self) (_disabled self) (_last_error self)
      (_last_states self) (sent self ++ [request]),
   transport (sent self) request).

(** [_reset_leds]: a failure is logged and swallowed. *)
Definition _reset_leds (self : t) : t := (post self POST_reset).1.

Definition start_session (self : t) (session_id : string) : t :=
  if negb (Esp8266Config.enabled (_config self)) then self
  else
    let self := _reset_leds self in
    mk (_config self) (Some session_id) false None ∅ (sent self).

Definition end_session (self : t) : t :=
  mk (_config self) None (_disabled self) None ∅ (sent self).

Definition publish (self : t) (step_id : StepID.t) (state : LedSignalState.t)
    (timestamp_ms : Z) : t * bool :=
  if negb (Esp8266Config.enabled (_config self)) || _disabled self
     || negb (truthy_str (_session_id self))
  then (self, false)
  else if bool_decide (_last_states self !! step_id = Some state)
  then (self, true)
  else
    let payload := _build_payload self step_id state timestamp_ms in
    match post self (POST_signal payload) with
    | (self, None) =>
        (mk (_config self) (_session_id self) (_disabled self) (_last_error self)
            (<[step_id := state]> (_last_states self)) (sent self), true)
    | (self, Some reason) => (_disable self reason, false)
    end.

Global Instance led_publisher : LedPublisher t := {
  led_start_session := start_session;
  led_end_session := end_session;
  led_publish := publish;
}.

End WithTransport.
End Esp8266Client.

(** A publisher that is never there: the type of [led_client] when the
    interpreter is built without one. *)
Global Instance no_led_publisher : LedPublisher Empty_set := {
  led_start_session := λ l _, l;
  led_end_session := λ l, l;
  led_publish := λ l _ _ _, (l, false);
}.

(** ** interpreter/state_machine.py *)

Module InterpreterEventType.
Inductive t := STEP_STATE | ACTIVE_STEP | UNCERTAINTY.
End InterpreterEventType.

(** The [details] dictionary of an interpreter event, by kind of event. *)
Inductive InterpreterEventDetails :=
  | StepStateDetails (accumulated_ms : Z) (orientation : string) (completed_ts : option Z)
      (uncertainty_count : Z) (duration_ms : Z) (is_current : bool)
  | ActiveStepDetails (active_step : option string)
  | UncertaintyDetails (reason : string) (details : option string).

Module InterpreterEvent.
Record t := mk {
  event_type : InterpreterEventType.t;
  session_id : string;
  timestamp_ms : Z;
  step_id : option StepID.t;
  state : option StepState.t;
  details : InterpreterEventDetails;
}.
End InterpreterEvent.

(** [d.values()] of a dictionary whose keys were inserted in the order [order]. *)
Definition dict_values {K V} `{Countable K} (order : list K) (d : gmap K V) : list V :=
  omap (λ k, d !! k) order.

(** [d[k]]: a missing key raises [KeyError]. *)
Definition dict_item {K V} `{Countable K} (d : gmap K V) (k : K) : result V :=
  match d !! k with
  | Some v => Ok v
  | None => Raise KeyError
  end.

(** [for x in xs: self = body(self, x)], stopping at the first exception. *)
Fixpoint for_each {S A} (xs : list A) (body : S → A → result S) (self : S) : result S :=
  match xs with
  | [] => Ok self
  | x :: rest => self ← body self x; for_each rest body self
  end.

Module InterpreterStateMachine.
Section WithLed.
Context {L : Type} `{LedPublisher L}.

(** The attributes of the state machine. [emitted] lists the events handed
    to [_callback], oldest first. [_step_statuses], [_last_confident_ts] and
    [_last_published] are filled from [_step_order], which is therefore their
    insertion order. *)
Record t := mk {
  _step_thresholds : gmap StepID.t StepThreshold.t;
  _step_order : list StepID.t;
  _session_id : option string;
  _step_statuses : gmap StepID.t StepStatus.t;
  _last_confident_ts : gmap StepID.t (option Z);
  _last_published : gmap StepID.t (StepState.t * Z * StepOrientation.t);
  _uncertainty_events : list UncertaintyEvent.t;
  _active_step_id : option StepID.t;
  _led_client : option L;
  _led_states : gmap StepID.t LedSignalState.t;
  emitted : list InterpreterEvent.t;
}.

Definition set_session_id (v : option string) (s : t) : t :=
  mk (_step_thresholds s) (_step_order s) v (_step_statuses s) (_last_confident_ts s)
     (_last_published s) (_uncertainty_events s) (_active_step_id s) (_led_client s)
     (_led_states s) (emitted s).
Definition set_step_statuses (v : gmap StepID.t StepStatus.t) (s : t) : t :=
  mk (_step_thresholds s) (_step_order s) (_session_id s) v (_last_confident_ts s)
     (_last_published s) (_uncertainty_events s) (_active_step_id s) (_led_client s)
     (_led_states s) (emitted s).
Definition set_last_confident_ts (v : gmap StepID.t (option Z)) (s : t) : t :=
  mk (_step_thresholds s) (_step_order s) (_session_id s) (_step_statuses s) v
     (_last_published s) (_uncertainty_events s) (_active_step_id s) (_led_client s)
     (_led_states s) (emitted s).
Definition set_last_published (v : gmap StepID.t (StepState.t * Z * StepOrientation.t))
    (s : t) : t :=
  mk (_step_thresholds s) (_step_order s) (_session_id s) (_step_statuses s)
     (_last_confident_ts s) v (_uncertainty_events s) (_active_step_id s) (_led_client s)
     (_led_states s) (emitted s).
Definition set_uncertainty_events (v : list UncertaintyEvent.t) (s : t) : t :=
  mk (_step_thresholds s) (_step_order s) (_session_id s) (_step_statuses s)
     (_last_confident_ts s) (_last_published s) v (_active_step_id s) (_led_client s)
     (_led_states s) (emitted s).
Definition set_active_step_id (v : option StepID.t) (s : t) : t :=
  mk (_step_thresholds s) (_step_order s) (_session_id s) (_step_statuses s)
     (_last_confident_ts s) (_last_published s) (_uncertainty_events s) v (_led_client s)
     (_led_states s) (emitted s).
Definition set_led_client (v : option L) (s : t) : t :=
  mk (_step_thresholds s) (_step_order s) (_session_id s) (_step_statuses s)
     (_last_confident_ts s) (_last_published s) (_uncertainty_events s) (_active_step_id s) v
     (_led_states s) (emitted s).
Definition set_led_states (v : gmap StepID.t LedSignalState.t) (s : t) : t :=
  mk (_step_thresholds s) (_step_order s) (_session_id s) (_step_statuses s)
     (_last_confident_ts s) (_last_published s) (_uncertainty_events s) (_active_step_id s)
     (_led_client s) v (emitted s).
Definition set_emitted (v : list InterpreterEvent.t) (s : t) : t :=
  mk (_step_thresholds s) (_step_order s) (_session_id s) (_step_statuses s)
     (_last_confident_ts s) (_last_published s) (_uncertainty_events s) (_active_step_id s)
     (_led_client s) (_led_states s) v.

(** [_build_thresholds]: the members of [VALID_STEP_IDS] found in
    [config.steps], in the order of [VALID_STEP_IDS]. *)
Definition _build_thresholds (config : Config.t) : list (StepID.t * StepThreshold.t) :=
  omap (λ step, pair step <$> Config.steps config !! StepID.value step) StepID.all.

Definition __init__ (config : Config.t) (led_client : option L) : t :=
  let thresholds := _build_thresholds config in
  mk (list_to_map thresholds) (fst <$> thresholds) None ∅ ∅ ∅ [] None led_client ∅ [].

Definition _emit_event (self : t) (event_type : InterpreterEventType.t) (timestamp_ms : Z)
    (step_id : option StepID.t) (state : option StepState.t)
    (details : InterpreterEventDetails) : t :=
  match _session_id self with
  | Some sid =>
      if truthy_str (Some sid)
      then set_emitted (emitted self ++
             [InterpreterEvent.mk event_type sid timestamp_ms step_id state details]) self
      else self
  | None => self
  end.

Definition _send_led_signal (self : t) (step_id : StepID.t) (state : LedSignalState.t)
    (timestamp_ms : Z) (force : bool) : t :=
  match _led_client self with
  | None => self
  | Some client =>
      if negb force && bool_decide (_led_states self !! step_id = Some state) then self
      else
        let '(client, delivered) := led_publish client step_id state timestamp_ms in
        let self := set_led_client (Some client) self in
        if delivered : bool
        then set_led_states (<[step_id := state]> (_led_states self)) self
        else self
  end.

Definition _begin_led_session (self : t) (timestamp_ms : Z) : t :=
  match _led_client self, _session_id self with
  | Some client, Some sid =>
      if truthy_str (Some sid)
      then set_led_client (Some (led_start_session client sid)) self
      else self
  | _, _ => self
  end.

Definition _end_led_session (self : t) (timestamp_ms : Z) : t :=
  match _led_client self with
  | None => self
  | Some _ =>
      let self :=
        foldl (λ self step, _send_led_signal self step LedSignalState.IDLE timestamp_ms true)
          self (_step_order self) in
      set_led_states ∅ self
  end.

Definition _sync_led_active (self : t) (previous_step current_step : option StepID.t)
    (timestamp_ms : Z) : t :=
  match _led_client self with
  | None => self
  | Some _ =>
      let self :=
        match previous_step with
        | Some previous =>
            match _step_statuses self !! previous with
            | Some previous_status =>
                if bool_decide (StepStatus.state previous_status ≠ StepState.COMPLETED)
                then _send_led_signal self previous LedSignalState.IDLE timestamp_ms true
                else self
            | None => self
            end
        | None => self
        end in
      match current_step with
      | Some current =>
          match _step_statuses self !! current with
          | Some current_status =>
              let desired :=
                if bool_decide (StepStatus.state current_status = StepState.COMPLETED)
                then LedSignalState.COMPLETED else LedSignalState.CURRENT in
              _send_led_signal self current desired timestamp_ms false
          | None => self
          end
      | None => self
      end
  end.

Definition _emit_active_step (self : t) (timestamp_ms : Z)
    (previous_step : option StepID.t) : t :=
  if negb (truthy_str (_session_id self)) then self
  else
    let details := ActiveStepDetails (StepID.value <$> _active_step_id self) in
    let self := _emit_event self InterpreterEventType.ACTIVE_STEP timestamp_ms
                  (_active_step_id self) None details in
    _sync_led_active self previous_step (_active_step_id self) timestamp_ms.

Definition _set_active_step (self : t) (step_id : option StepID.t) (timestamp_ms : Z) : t :=
  if bool_decide (_active_step_id self = step_id) then self
  else
    let previous := _active_step_id self in
    let self := set_active_step_id step_id self in
    _emit_active_step self timestamp_ms previous.

(** [max(confident, key=lambda sig: sig.confidence)]: the first of the most
    confident signals. *)
Definition _select_active_signal (signals : list StepSignal.t) : option StepSignal.t :=
  match filter (λ sig, StepSignal.is_confident sig = true) signals with
  | [] => None
  | first :: rest =>
      Some (foldl (λ best sig,
                     if PrimFloat.ltb (StepSignal.confidence best) (StepSignal.confidence sig)
                     then sig else best) first rest)
  end.

Definition record_uncertainty (self : t) (reason : UncertaintyReason.t) (timestamp_ms : Z)
    (details : option string) : t :=
  if negb (truthy_str (_session_id self)) then self
  else
    let event := UncertaintyEvent.mk timestamp_ms reason details in
    let self := set_uncertainty_events (_uncertainty_events self ++ [event]) self in
    let payload :=
      UncertaintyDetails (UncertaintyReason.value reason)
        (if truthy_str details then details else None) in
    _emit_event self InterpreterEventType.UNCERTAINTY timestamp_ms None None payload.

Definition _publish_status (self : t) (status : StepStatus.t) (timestamp_ms : Z)
    (force : bool) : result t :=
  if negb (truthy_str (_session_id self)) then Ok self
  else
    let key := (StepStatus.state status, StepStatus.accumulated_ms status,
                StepStatus.orientation status) in
    if negb force && bool_decide (_last_published self !! StepStatus.step_id status = Some key)
    then Ok self
    else
      let self :=
        set_last_published (<[StepStatus.step_id status := key]> (_last_published self)) self in
      threshold ← dict_item (_step_thresholds self) (StepStatus.step_id status);
      let details :=
        StepStateDetails (StepStatus.accumulated_ms status)
          (StepOrientation.value (StepStatus.orientation status))
          (StepStatus.completed_ts status) (StepStatus.uncertainty_count status)
          (StepThreshold.duration_ms threshold)
          (bool_decide (Some (StepStatus.step_id status) = _active_step_id self)) in
      let self := _emit_event self InterpreterEventType.STEP_STATE timestamp_ms
                    (Some (StepStatus.step_id status)) (Some (StepStatus.state status))
                    details in
      if bool_decide (StepStatus.state status = StepState.COMPLETED)
      then Ok (_send_led_signal self (StepStatus.step_id status) LedSignalState.COMPLETED
                 timestamp_ms false)
      else Ok self.

Definition _publish_all (self : t) (timestamp_ms : Z) (force : bool) : result t :=
  for_each (dict_values (_step_order self) (_step_statuses self))
    (λ self status, _publish_status self status timestamp_ms force) self.

(** The signal [_update_step] acts on: [signal and signal.is_confident]. *)
Definition confident_signal (signal : option StepSignal.t) : option StepSignal.t :=
  match signal with
  | Some sig => if StepSignal.is_confident sig then Some sig else None
  | None => None
  end.

(** [_update_step(status, threshold, signal, timestamp_ms)]. The status object
    is the one stored in [_step_statuses] under [key]; each assignment to it is
    written back there. *)
Definition _update_step (self : t) (key : StepID.t) (status : StepStatus.t)
    (threshold : StepThreshold.t) (signal : option StepSignal.t) (timestamp_ms : Z)
  : result t :=
  if bool_decide (StepStatus.state status = StepState.COMPLETED) then Ok self
  else
    let before_state := StepStatus.state status in
    let before_ms := StepStatus.accumulated_ms status in
    let before_orientation := StepStatus.orientation status in
    let step := StepStatus.step_id status in
    let '(self, status) :=
      match confident_signal signal with
      | Some sig =>
          let status :=
            if bool_decide (StepSignal.orientation sig ≠ StepOrientation.NONE)
            then StepStatus.set_orientation (StepSignal.orientation sig) status
            else status in
          let status :=
            if bool_decide (StepStatus.state status = StepState.NOT_STARTED)
               || bool_decide (StepStatus.state status = StepState.UNCERTAIN)
            then StepStatus.set_state StepState.IN_PROGRESS status
            else status in
          let last_ts := mjoin (_last_confident_ts self !! step) in
          let current_ts := StepSignal.timestamp_ms sig in
          let status :=
            match last_ts with
            | Some last =>
                let delta := Z.max 0 (current_ts - last) in
                if 0 <? delta
                then StepStatus.set_accumulated_ms (StepStatus.accumulated_ms status + delta) status
                else status
            | None => status
            end in
          let self :=
            set_last_confident_ts (<[step := Some current_ts]> (_last_confident_ts self)) self in
          if (StepThreshold.duration_ms threshold <=? StepStatus.accumulated_ms status)
             && bool_decide (StepStatus.state status ≠ StepState.COMPLETED)
          then
            let status := StepStatus.set_state StepState.COMPLETED status in
            let status := StepStatus.set_completed_ts (Some current_ts) status in
            (set_last_confident_ts (<[step := None]> (_last_confident_ts self)) self, status)
          else (self, status)
      | None =>
          let self :=
            set_last_confident_ts (<[step := None]> (_last_confident_ts self)) self in
          if bool_decide (StepStatus.state status = StepState.IN_PROGRESS)
          then
            let status := StepStatus.set_state StepState.UNCERTAIN status in
            let status :=
              StepStatus.set_uncertainty_count (StepStatus.uncertainty_count status + 1) status in
            (record_uncertainty self UncertaintyReason.LOW_CONFIDENCE timestamp_ms
               (Some ("step=" +:+ StepID.value step)), status)
          else (self, status)
      end in
    let self := set_step_statuses (<[key := status]> (_step_statuses self)) self in
    let changed :=
      bool_decide (StepStatus.state status ≠ before_state)
      || bool_decide (StepStatus.accumulated_ms status ≠ before_ms)
      || bool_decide (StepStatus.orientation status ≠ before_orientation) in
    if changed then _publish_status self status timestamp_ms false else Ok self.

(** [{sig.step_id: sig for sig in signal_list}]: a later signal of a step
    replaces an earlier one. *)
Definition signal_map (signal_list : list StepSignal.t) : gmap StepID.t StepSignal.t :=
  foldl (λ m sig, <[StepSignal.step_id sig := sig]> m) ∅ signal_list.

Definition process_signals (self : t) (signals : list StepSignal.t) (timestamp_ms : Z)
  : result t :=
  if negb (truthy_str (_session_id self)) then Ok self
  else
    let signal_list := signals in
    let active_signal := _select_active_signal signal_list in
    let self := _set_active_step self (StepSignal.step_id <$> active_signal) timestamp_ms in
    let signal_map := signal_map signal_list in
    for_each (_step_order self)
      (λ self step_id,
         status ← dict_item (_step_statuses self) step_id;
         threshold ← dict_item (_step_thresholds self) step_id;
         let signal := signal_map !! step_id in
         _update_step self step_id status threshold signal timestamp_ms)
      self.

Definition start_session (self : t) (session_id : string) (timestamp_ms : Z) : result t :=
  let order := _step_order self in
  let self := set_session_id (Some session_id) self in
  let self := set_uncertainty_events [] self in
  let self := set_step_statuses (list_to_map ((λ step, (step, StepStatus.new step)) <$> order)) self in
  let self := set_last_confident_ts (list_to_map ((λ step, (step, None)) <$> order)) self in
  let self :=
    set_last_published
      (list_to_map ((λ step, (step, (StepState.NOT_STARTED, 0, StepOrientation.NONE))) <$> order))
      self in
  let self := set_active_step_id None self in
  let self := set_led_states ∅ self in
  let self := _begin_led_session self timestamp_ms in
  self ← _publish_all self timestamp_ms true;
  Ok (_emit_active_step self timestamp_ms None).

Definition end_session (self : t) (timestamp_ms : Z) : t :=
  if negb (truthy_str (_session_id self)) then self
  else
    let self := _set_active_step self None timestamp_ms in
    let self := _end_led_session self timestamp_ms in
    let self :=
      match _led_client self with
      | Some client => set_led_client (Some (led_end_session client)) self
      | None => self
      end in
    set_session_id None self.

Definition active_step_id (self : t) : option StepID.t := _active_step_id self.

(** [snapshot()]: copies of the statuses, in the order of the dictionary. *)
Definition snapshot (self : t) : list StepStatus.t :=
  dict_values (_step_order self) (_step_statuses self).

Definition uncertainty_events (self : t) : list UncertaintyEvent.t :=
  _uncertainty_events self.

End WithLed.
Arguments t L : clear implicits.
End InterpreterStateMachine.
(** ** The per-step rule of the specification (section 4.F, step 2b)

    Written from the specification's words, to be compared with
    [InterpreterStateMachine._update_step]: given a step's status and its
    [last_confident_ts], the status and [last_confident_ts] after the frame,
    and the uncertainty events the frame records for the step. *)
Definition spec_update_step (duration_threshold : Z) (signal : option StepSignal.t)
    (ts : Z) (status : StepStatus.t) (last_confident_ts : option Z)
  : StepStatus.t * option Z * list UncertaintyEvent.t :=
  if bool_decide (StepStatus.state status = StepState.COMPLETED)
  then (status, last_confident_ts, [])
  else
    match signal with
    | Some (StepSignal.mk _ sig_orientation _ true t _ _) =>
        let orientation :=
          if bool_decide (sig_orientation = StepOrientation.NONE)
          then StepStatus.orientation status else sig_orientation in
        let delta :=
          match last_confident_ts with
          | Some last => Z.max 0 (t - last)
          | None => 0
          end in
        let accumulated_ms := StepStatus.accumulated_ms status + delta in
        if duration_threshold <=? accumulated_ms
        then (StepStatus.mk (StepStatus.step_id status) orientation StepState.COMPLETED
                accumulated_ms (Some t) (StepStatus.uncertainty_count status),
              None, [])
        else (StepStatus.mk (StepStatus.step_id status) orientation StepState.IN_PROGRESS
                accumulated_ms (StepStatus.completed_ts status)
                (StepStatus.uncertainty_count status),
              Some t, [])
    | _ =>
        if bool_decide (StepStatus.state status = StepState.IN_PROGRESS)
        then (StepStatus.mk (StepStatus.step_id status) (StepStatus.orientation status)
                StepState.UNCERTAIN (StepStatus.accumulated_ms status)
                (StepStatus.completed_ts status) (StepStatus.uncertainty_count status + 1),
              None,
              [UncertaintyEvent.mk ts UncertaintyReason.LOW_CONFIDENCE
                 (Some ("step=" +:+ StepID.value (StepStatus.step_id status)))])
        else (status, None, [])
    end.

Module InterpreterRun.
Import InterpreterStateMachine.
Section WithLed.
Context {L : Type} `{LedPublisher L}.

(** The calls a client makes on a state machine between two [start_session]. *)
Inductive SessionOp :=
  | OpProcessSignals (signals : list StepSignal.t) (timestamp_ms : Z)
  | OpRecordUncertainty (reason : UncertaintyReason.t) (timestamp_ms : Z)
      (details : option string)
  | OpEndSession (timestamp_ms : Z).

Definition run_op (self : t L) (op : SessionOp) : result (t L) :=
  match op with
  | OpProcessSignals signals ts => process_signals self signals ts
  | OpRecordUncertainty reason ts details => Ok (record_uncertainty self reason ts details)
  | OpEndSession ts => Ok (end_session self ts)
  end.

Definition run_ops (self : t L) (ops : list SessionOp) : result (t L) :=
  for_each ops run_op self.

(** The states a state machine can be in: built by [__init__], then driven
    through its public methods. *)
Inductive reachable : t L → Prop :=
  | reachable_init config led_client :
      reachable (__init__ config led_client)
  | reachable_start_session self session_id ts self' :
      reachable self → start_session self session_id ts = Ok self' → reachable self'
  | reachable_op self op self' :
      reachable self → run_op self op = Ok self' → reachable self'.

End WithLed.
End InterpreterRun.

(** The event [_update_step] records when step [k] loses its confident
    signal in the frame stamped [ts]. *)
Definition low_confidence_event (ts : Z) (k : StepID.t) : UncertaintyEvent.t :=
  UncertaintyEvent.mk ts UncertaintyReason.LOW_CONFIDENCE (Some ("step=" +:+ StepID.value k)).

Module InterpreterState.
Import InterpreterStateMachine.
Section WithLed.
Context {L : Type} `{LedPublisher L}.
Implicit Types (self s : InterpreterStateMachine.t L).

(** The part of the state that the LED and event plumbing never writes. *)
Definition core s :=
  (_step_thresholds s, _step_order s, _session_id s, _step_statuses s,
   _last_confident_ts s, _uncertainty_events s).

(** What [__init__] and [start_session] establish and every method keeps. *)
Record wf s : Prop := {
  wf_nodup : NoDup (_step_order s);
  wf_thresholds : ∀ k, k ∈ _step_order s → is_Some (_step_thresholds s !! k);
  wf_keys : ∀ k st, _step_statuses s !! k = Some st →
    StepStatus.step_id st = k ∧ k ∈ _step_order s;
  wf_present : truthy_str (_session_id s) = true →
    ∀ k, k ∈ _step_order s → is_Some (_step_statuses s !! k);
}.

(** The uncertainty events the specification's rule records for step [k]
    in a frame processed from state [s]. *)
Definition step_events s (signals : list StepSignal.t) (ts : Z) (k : StepID.t)
  : list UncertaintyEvent.t :=
  match _step_statuses s !! k, _step_thresholds s !! k with
  | Some st, Some th =>
      (spec_update_step (StepThreshold.duration_ms th) (signal_map signals !! k) ts st
         (mjoin (_last_confident_ts s !! k))).2
  | _, _ => []
  end.

(** The invariants of a status, against the threshold of its step. *)
Definition status_inv (th : StepThreshold.t) (st : StepStatus.t) : Prop :=
  0 ≤ StepStatus.accumulated_ms st ∧
  (StepStatus.state st = StepState.COMPLETED →
     StepThreshold.duration_ms th ≤ StepStatus.accumulated_ms st ∧
     is_Some (StepStatus.completed_ts st)) ∧
  (StepStatus.state st ≠ StepState.COMPLETED → StepStatus.completed_ts st = None).

Definition statuses_inv s : Prop :=
  ∀ k st, _step_statuses s !! k = Some st →
    ∃ th, _step_thresholds s !! k = Some th ∧ status_inv th st.

End WithLed.
Arguments core : simpl never.
End InterpreterState.

(** ** The session gate: its states, and the window of section 4.E *)

(** The integer an [int] instance stands for ([True] is 1, [False] is 0). *)
Definition py_int_value (v : PyVal) : option Z :=
  match v with
  | PyInt z => Some z
  | PyBool b => Some (Z.b2z b)
  | _ => None
  end.

Module SessionGate.
Import SessionManager.

(** [packet] with [metadata[key] = v]. *)
Definition with_metadata (packet : FramePacket.t) (key : string) (v : PyVal) : FramePacket.t :=
  FramePacket.mk (FramePacket.frame_id packet) (FramePacket.timestamp_ms packet)
    (FramePacket.roi packet) (FramePacket.config_version packet) (FramePacket.motion packet)
    (FramePacket.landmarks packet) (FramePacket.image packet)
    (<[key := v]> (FramePacket.metadata packet)).

(** The motion conditions of [_meets_start_conditions]: trivially met when
    [require_motion] is off. *)
Definition motion_ok (session : SessionConfig.t) (motion : MotionMetrics.t) : Prop :=
  SessionConfig.require_motion session = true →
  PrimFloat.ltb (MotionMetrics.mean_velocity motion) (SessionConfig.motion_threshold session)
    = false ∧
  PrimFloat.ltb (MotionMetrics.relative_motion motion)
    (SessionConfig.relative_motion_threshold session) = false.

(** The verdict of [_meets_start_conditions] on a frame ([false] stands in
    for a raised exception, which [gate_total] rules out). *)
Definition gate_ok (self : t) (packet : FramePacket.t) : bool :=
  match _meets_start_conditions self packet with
  | Ok ok => ok
  | Raise _ => false
  end.

(** Section 4.E in the specification's words: the [n] most recent verdicts
    exist and are all [gate_ok], [oks] being the verdicts so far, oldest
    first. *)
Definition full_ok_window (n : Z) (oks : list bool) : bool :=
  (n <=? Z.of_nat (length oks)) && forallb id (drop (length oks - Z.to_nat n) oks).

(** What holds of a manager with a session under way. *)
Definition active_inv (self : t) : Prop :=
  _session_active self = true →
  is_Some (_current_session_id self) ∧ is_Some (_session_start_ts self) ∧
  is_Some (_last_active_ts self).

(** The shape of the manager that every method keeps. *)
Record gate_inv (self : t) : Prop := {
  gi_maxlen : Deque.maxlen (_start_window self) =
              SessionConfig.start_window_frames (Config.session (_config self));
  gi_maxlen_nonneg : 0 ≤ Deque.maxlen (_start_window self);
  gi_active : active_inv self;
}.

(** The window holds the [maxlen] most recent verdicts of [oks]. *)
Definition window_of (self : t) (oks : list bool) : Prop :=
  Deque.items (_start_window self) =
  drop (length oks - Z.to_nat (Deque.maxlen (_start_window self))) oks.

Section WithUuid.
Variable uuid4 : nat → string.

(** The states a manager can be in: built by [__init__], then driven through
    [process_frame] and [reset]. *)
Inductive reachable : t → Prop :=
  | reachable_init config self :
      __init__ config = Ok self → reachable self
  | reachable_process_frame self packet self' events :
      reachable self → process_frame uuid4 self packet = Ok (self', events) →
      reachable self'
  | reachable_reset self :
      reachable self → reachable (reset self).1.

End WithUuid.
End SessionGate.

(** ** The LED client driven by its caller *)

Module LedClientRun.
Import Esp8266Client.
Section WithTransport.
Variable transport : list HttpRequest → HttpRequest → option string.

(** The calls a caller can make on a client short of [start_session]. *)
Inductive ClientOp :=
  | OpPublish (step_id : StepID.t) (state : LedSignalState.t) (timestamp_ms : Z)
  | OpEndSession.

(** The client after the calls [ops], and what each [publish] among them
    returned, in order. *)
Fixpoint run_ops (self : t) (ops : list ClientOp) : t * list bool :=
  match ops with
  | [] => (self, [])
  | OpPublish step_id state ts :: rest =>
      let '(self, delivered) := publish transport self step_id state ts in
      let '(self, results) := run_ops self rest in
      (self, delivered :: results)
  | OpEndSession :: rest => run_ops (end_session self) rest
  end.

End WithTransport.
End LedClientRun.

(** ** demo/replay.py *)

Module StepAnnotation.
Record t := mk {
  step_id : StepID.t;
  orientation : StepOrientation.t;
  start_ms : Z;
  end_ms : Z;
}.
End StepAnnotation.

Module DemoAsset.
Record t := mk {
  asset_id : string;
  path : string;
  fps : float;
  total_frames : Z;
  annotations : list StepAnnotation.t;
  roi : option ROI.t;
}.
End DemoAsset.

(** [assets] is the dictionary in insertion order: the entries of the
    manifest file, in its order ([load_manifest] refuses a repeated id). *)
Module DemoManifest.
Record t := mk {
  version : string;
  assets : list (string * DemoAsset.t);
}.

(** [self.assets.get(asset_id)]. *)
Definition get (self : t) (asset_id : string) : option DemoAsset.t :=
  (λ entry, entry.2.2) <$> list_find (λ entry, entry.1 = asset_id) (assets self).

(** [require]: an unknown id raises [ManifestError]. *)
Definition require (self : t) (asset_id : string) : result DemoAsset.t :=
  match get self asset_id with
  | Some asset => Ok asset
  | None => Raise ManifestError
  end.
End DemoManifest.

Module Replay.

(** What [load_manifest] checks of an asset before it keeps it:
    [_require_positive_float] for [fps] (rejected when [fps <= 0]),
    [_require_positive_int] for [total_frames], and for every annotation
    [start_ms >= 0], [end_ms >= 1] and [end_ms > start_ms]. *)
Definition loaded_annotation (a : StepAnnotation.t) : Prop :=
  0 ≤ StepAnnotation.start_ms a ∧ 1 ≤ StepAnnotation.end_ms a ∧
  StepAnnotation.start_ms a < StepAnnotation.end_ms a.

Definition loaded_asset (asset : DemoAsset.t) : Prop :=
  PrimFloat.leb (DemoAsset.fps asset) 0 = false ∧
  1 ≤ DemoAsset.total_frames asset ∧
  Forall loaded_annotation (DemoAsset.annotations asset).

(** [max(1, int(round(1000.0 / asset.fps)))]. *)
Definition frame_interval_ms (asset : DemoAsset.t) : result Z :=
  rounded ← py_round (1000 / DemoAsset.fps asset)%float;
  Ok (Z.max 1 rounded).

Definition _annotation_for_timestamp (annotations : list StepAnnotation.t) (timestamp_ms : Z)
  : option StepAnnotation.t :=
  snd <$> list_find
    (λ a, StepAnnotation.start_ms a ≤ timestamp_ms ∧ timestamp_ms < StepAnnotation.end_ms a)
    annotations.

(** The packet [stream_packets] yields for [frame_id]. *)
Definition replay_packet (config : Config.t) (asset : DemoAsset.t) (roi : ROI.t)
    (frame_interval_ms : Z) (frame_id : Z) : FramePacket.t :=
  let timestamp_ms := frame_id * frame_interval_ms in
  let metadata : gmap string PyVal :=
    <["demo_frame_interval_ms" := PyInt frame_interval_ms]>
      (<["timestamp_offset_ms" := PyInt timestamp_ms]>
         (<["demo_mode" := PyBool true]>
            (<["asset_id" := PyStr (DemoAsset.asset_id asset)]> ∅))) in
  let metadata :=
    match _annotation_for_timestamp (DemoAsset.annotations asset) timestamp_ms with
    | Some annotation =>
        <["demo_step_end_ms" := PyInt (StepAnnotation.end_ms annotation)]>
          (<["demo_step_start_ms" := PyInt (StepAnnotation.start_ms annotation)]>
             (<["demo_orientation" :=
                  PyStr (StepOrientation.value (StepAnnotation.orientation annotation))]>
                (<["demo_step" := PyStr (StepID.value (StepAnnotation.step_id annotation))]>
                   metadata)))
    | None => metadata
    end in
  FramePacket.mk frame_id timestamp_ms roi (Config.config_version config)
    (MotionMetrics.mk 0 0) PyNone PyNone metadata.

(** [DemoReplay(manifest, config).stream_packets(asset_id)], run to its end:
    the packets in the order they are yielded, or the exception the
    generator raises before the first of them. *)
Definition stream_packets (manifest : DemoManifest.t) (config : Config.t) (asset_id : string)
  : result (list FramePacket.t) :=
  asset ← DemoManifest.require manifest asset_id;
  let roi := default (Config.roi config) (DemoAsset.roi asset) in
  frame_interval_ms ← frame_interval_ms asset;
  Ok (replay_packet config asset roi frame_interval_ms
        <$> seqZ 0 (DemoAsset.total_frames asset)).

(** [summarize_step_durations]: the annotated time per step, each annotation
    cut at the end of the asset. *)
Definition summarize_step_durations (asset : DemoAsset.t) : result (gmap StepID.t Z) :=
  frame_interval_ms ← frame_interval_ms asset;
  let asset_end_ms := DemoAsset.total_frames asset * frame_interval_ms in
  Ok (foldl
        (λ totals annotation,
           let start_ms := StepAnnotation.start_ms annotation in
           let end_ms := Z.min (StepAnnotation.end_ms annotation) asset_end_ms in
           if end_ms <=? start_ms then totals
           else
             let duration := end_ms - start_ms in
             <[StepAnnotation.step_id annotation :=
                 default 0 (totals !! StepAnnotation.step_id annotation) + duration]> totals)
        ∅ (DemoAsset.annotations asset)).

End Replay.

(** ** cli/_demo_utils.py *)

(** [boost_demo_packet]. The literals [1.1] and [0.3] are written as the
    binary64 values Python reads them as. *)
Definition boost_demo_packet (packet : FramePacket.t) (config : Config.t) : FramePacket.t :=
  let metadata := FramePacket.metadata packet in
  let metadata :=
    match metadata !! "hand_count" with
    | Some _ => metadata
    | None => <["hand_count" := PyInt 2]> metadata
    end in
  let metadata :=
    match metadata !! "hands_in_roi" with
    | Some _ => metadata
    | None => <["hands_in_roi" := PyInt 2]> metadata
    end in
  let session := Config.session config in
  let threshold_motion :=
    py_max_float 0.5 (SessionConfig.motion_threshold session * 0x1.199999999999ap+0)%float in
  let threshold_relative :=
    py_max_float 0x1.3333333333333p-2
      (SessionConfig.relative_motion_threshold session * 0x1.199999999999ap+0)%float in
  let boosted_motion :=
    MotionMetrics.mk
      (py_max_float (MotionMetrics.mean_velocity (FramePacket.motion packet)) threshold_motion)
      (py_max_float (MotionMetrics.relative_motion (FramePacket.motion packet))
         threshold_relative) in
  FramePacket.mk (FramePacket.frame_id packet) (FramePacket.timestamp_ms packet)
    (FramePacket.roi packet) (FramePacket.config_version packet) boosted_motion
    (FramePacket.landmarks packet) (FramePacket.image packet) metadata.

Definition _parse_orientation (value : option PyVal) : StepOrientation.t :=
  match value with
  | Some (PyStr s) => default StepOrientation.NONE (StepOrientation.of_value s)
  | _ => StepOrientation.NONE
  end.

Definition _coerce_int (value : option PyVal) (fallback : Z) : Z :=
  default fallback (value ≫= py_int_value).

Definition _coerce_positive_int (value : option PyVal) (dflt : Z) : Z :=
  match value ≫= py_int_value with
  | Some z => if 0 <? z then z else dflt
  | None => dflt
  end.

Module DemoSignalSynthesizer.

(** [SegmentKey = Tuple[StepID, int, int, StepOrientation]]. *)
Definition SegmentKey : Type := StepID.t * Z * Z * StepOrientation.t.

Record t := mk { _elapsed_ms : gmap SegmentKey Z }.

Definition __init__ : t := mk ∅.

Definition generate (self : t) (packet : FramePacket.t) : t * list StepSignal.t :=
  let metadata := FramePacket.metadata packet in
  match metadata !! "demo_step" with
  | Some (PyStr step_value) =>
      match StepID.of_value step_value with
      | None => (self, [])
      | Some step_id =>
          let orientation := _parse_orientation (metadata !! "demo_orientation") in
          let start_ms :=
            _coerce_int (metadata !! "demo_step_start_ms") (FramePacket.timestamp_ms packet) in
          let end_ms := _coerce_int (metadata !! "demo_step_end_ms") start_ms in
          let end_ms := if end_ms <? start_ms then start_ms else end_ms in
          let duration := Z.max 0 (end_ms - start_ms) in
          let frame_interval :=
            _coerce_positive_int (metadata !! "demo_frame_interval_ms") 1 in
          let segment_key : SegmentKey := (step_id, start_ms, end_ms, orientation) in
          let elapsed := default 0 (_elapsed_ms self !! segment_key) in
          let emit (timestamp_ms elapsed : Z) :=
            (mk (<[segment_key := elapsed]> (_elapsed_ms self)),
             [StepSignal.mk step_id orientation 1 true timestamp_ms StepSignalSource.DEMO
                (Some "demo_annotation")]) in
          if duration =? 0 then
            let increment := frame_interval in
            let timestamp_ms := if elapsed =? 0 then start_ms else start_ms + elapsed in
            emit timestamp_ms (elapsed + increment)
          else
            let remaining := Z.max 0 (duration - elapsed) in
            if remaining =? 0 then (self, [])
            else
              let is_last_frame := end_ms <=? FramePacket.timestamp_ms packet + frame_interval in
              if is_last_frame then emit (start_ms + duration) duration
              else
                let increment := Z.min frame_interval remaining in
                let timestamp_ms := if elapsed =? 0 then start_ms else start_ms + elapsed in
                emit timestamp_ms (elapsed + increment)
      end
  | _ => (self, [])
  end.

End DemoSignalSynthesizer.

(** ** detectors/base.py, detectors/ml.py, detectors/runner.py *)

Module MLStepResult.
Record t := mk { label : string; confidence : float; source : string }.

(** [ML_LABEL_TO_STEP.get(self.label)]. *)
Definition step_id (self : t) : option StepID.t :=
  if String.eqb (label self) "Palm" then Some StepID.STEP_2
  else if String.eqb (label self) "Dorsum" then Some StepID.STEP_3
  else if String.eqb (label self) "Interlaced" then Some StepID.STEP_4
  else if String.eqb (label self) "Interlocked" then Some StepID.STEP_5
  else if String.eqb (label self) "Thumbs" then Some StepID.STEP_6
  else if String.eqb (label self) "Fingertips" then Some StepID.STEP_7
  else None.
End MLStepResult.

Module Detectors.
Section WithModel.
(** [MLStepRecognizer._run_inference]: the CNN on the image of a packet;
    [None] when the model cannot be loaded or fails. *)
Variable run_inference : FramePacket.t → option MLStepResult.t.

(** [MLStepRecognizer.infer]. The result it caches in the packet's metadata
    is the one it returns, so the six detectors of a frame see the same. *)
Definition infer (packet : FramePacket.t) : option MLStepResult.t :=
  match FramePacket.metadata packet !! "_ml_inference" with
  | Some (PyInference label confidence source) =>
      Some (MLStepResult.mk label confidence source)
  | _ =>
      match FramePacket.image packet with
      | PyNone => None
      | _ => run_inference packet
      end
  end.

(** [MLStepDetector._score_packet]: the CNN does not predict an orientation
    ([_orientation_for_step] is [NONE]). *)
Definition _score_packet (step_id : StepID.t) (packet : FramePacket.t)
  : float * StepOrientation.t * option string :=
  match infer packet with
  | None =>
      match FramePacket.image packet with
      | PyNone => (0%float, StepOrientation.NONE, Some "missing_image")
      | _ => (0%float, StepOrientation.NONE, Some "ml_unavailable")
      end
  | Some result =>
      match MLStepResult.step_id result with
      | None => (0%float, StepOrientation.NONE, Some "ml_background")
      | Some predicted_step =>
          if bool_decide (predicted_step ≠ step_id)
          then (0%float, StepOrientation.NONE,
                Some ("ml_predicted_" +:+ StepID.value_lower predicted_step))
          else (MLStepResult.confidence result, StepOrientation.NONE, None)
      end
  end.

(** [MetadataDetector._compute]. *)
Definition _compute (step_id : StepID.t) (packet : FramePacket.t)
  : float * StepOrientation.t * option string :=
  let metadata := FramePacket.metadata packet in
  if default false (py_truthy <$> metadata !! "_disable_demo_hints")
  then _score_packet step_id packet
  else
    match metadata !! "demo_step" with
    | Some (PyStr hint) =>
        if String.eqb hint (StepID.value step_id)
        then (1%float, _parse_orientation (metadata !! "demo_orientation"), None)
        else _score_packet step_id packet
    | _ => _score_packet step_id packet
    end.

(** [MLStepDetector.evaluate], for the detector of [step_id] built with
    the threshold [step_config]. *)
Definition evaluate_detector (step_config : StepThreshold.t) (step_id : StepID.t)
    (packet : FramePacket.t) : StepSignal.t :=
  let '(confidence, orientation, notes) := _compute step_id packet in
  let is_confident := PrimFloat.leb (StepThreshold.confidence_min step_config) confidence in
  let notes :=
    match notes with
    | None => if is_confident then None else Some "insufficient_confidence"
    | Some _ => notes
    end in
  StepSignal.mk step_id orientation confidence is_confident (FramePacket.timestamp_ms packet)
    StepSignalSource.MODEL notes.

(** The runner of [build_default_runner]: one [MLStepDetector] per step, each
    holding its threshold. Building a detector for a step that [config.steps]
    lacks raises [ValueError]. The pair cache of [DetectorRunner] only writes
    the metadata keys [_hand_pair_cache] and [_hand_pair_confidence_scale],
    which no [MLStepDetector] reads; it is left out. *)
Definition DetectorRunner : Type := list (StepID.t * StepThreshold.t).

Definition build_default_runner (config : Config.t) : result DetectorRunner :=
  for_each StepID.all
    (λ detectors step,
       match Config.steps config !! StepID.value step with
       | Some step_config => Ok (detectors ++ [(step, step_config)])
       | None => Raise ValueError
       end)
    [].

Definition evaluate (runner : DetectorRunner) (packet : FramePacket.t) : list StepSignal.t :=
  (λ detector, evaluate_detector detector.2 detector.1 packet) <$> runner.

End WithModel.
End Detectors.

(** ** cli/demo.py *)

(** What [_verify_asset] logs when it fails. *)
Inductive VerifyError :=
  | ShouldHaveCompleted (step : StepID.t) (annotation_ms required_ms : Z)
  | ShouldNotHaveCompleted (step : StepID.t) (annotation_ms required_ms : Z)
  | OrientationMismatch (step : StepID.t) (expected got : StepOrientation.t)
  | UnexpectedlyCompleted (step : StepID.t).

(** The keys of a dictionary filled from [keys], in insertion order. *)
Definition insertion_order {K} `{EqDecision K} (keys : list K) : list K :=
  foldl (λ order k, if decide (k ∈ order) then order else order ++ [k]) [] keys.

Module DemoApp.
Section WithEnvironment.
Variable uuid4 : nat → string.
Variable transport : list HttpRequest → HttpRequest → option string.
Variable run_inference : FramePacket.t → option MLStepResult.t.
(** [Path(value).expanduser().resolve()], on the machine of the run. *)
Variable resolve_path : string → string.

(** The LED client of the application talks through [transport]. *)
Local Instance led_publisher : LedPublisher Esp8266Client.t :=
  Esp8266Client.led_publisher transport.

Notation Interpreter := (InterpreterStateMachine.t Esp8266Client.t).

(** The attributes of a [DemoApp] ([asset] and [verify] are the arguments
    [--asset] and [--verify]). The status reporter only prints; it is left
    out. *)
Record t := mk {
  _config : Config.t;
  asset : string;
  verify : bool;
  _manifest : DemoManifest.t;
  _session_manager : SessionManager.t;
  _interpreter : Interpreter;
  _detector_runner : Detectors.DetectorRunner;
  _signal_synthesizer : DemoSignalSynthesizer.t;
}.

Definition set_session_manager (v : SessionManager.t) (self : t) : t :=
  mk (_config self) (asset self) (verify self) (_manifest self) v (_interpreter self)
     (_detector_runner self) (_signal_synthesizer self).
Definition set_interpreter (v : Interpreter) (self : t) : t :=
  mk (_config self) (asset self) (verify self) (_manifest self) (_session_manager self) v
     (_detector_runner self) (_signal_synthesizer self).
Definition set_signal_synthesizer (v : DemoSignalSynthesizer.t) (self : t) : t :=
  mk (_config self) (asset self) (verify self) (_manifest self) (_session_manager self)
     (_interpreter self) (_detector_runner self) v.

(** [DemoApp(config, args)], the manifest of [args.manifest] being loaded. *)
Definition __init__ (config : Config.t) (manifest : DemoManifest.t) (asset : string)
    (verify : bool) : result t :=
  session_manager ← SessionManager.__init__ config;
  let led_client :=
    if Esp8266Config.enabled (Config.esp8266 config)
    then Some (Esp8266Client.__init__ (Config.esp8266 config)) else None in
  let interpreter := InterpreterStateMachine.__init__ (L := Esp8266Client.t) config led_client in
  detector_runner ← Detectors.build_default_runner config;
  Ok (mk config asset verify manifest session_manager interpreter detector_runner
        DemoSignalSynthesizer.__init__).

(** [_handle_session_event], the callback of the session manager. *)
Definition _handle_session_event (self : t) (event : SessionEvent.t) : result t :=
  match SessionEvent.event_type event with
  | SessionEventType.STARTED =>
      interpreter ←
        InterpreterStateMachine.start_session (_interpreter self)
          (SessionEvent.session_id event) (SessionEvent.timestamp_ms event);
      Ok (set_interpreter interpreter self)
  | SessionEventType.ENDED =>
      Ok (set_interpreter
            (InterpreterStateMachine.end_session (_interpreter self)
               (SessionEvent.timestamp_ms event)) self)
  end.

(** [self._session_manager.process_frame(packet)], with the callback run on
    the events it emits. *)
Definition gate_frame (self : t) (packet : FramePacket.t) : result t :=
  '(session_manager, events) ←
    SessionManager.process_frame uuid4 (_session_manager self) packet;
  for_each events _handle_session_event (set_session_manager session_manager self).

Definition _process_packet (self : t) (packet : FramePacket.t) : result t :=
  self ← gate_frame self packet;
  if negb (SessionManager._session_active (_session_manager self)) then Ok self
  else
    let '(synthesizer, signals) :=
      DemoSignalSynthesizer.generate (_signal_synthesizer self) packet in
    let self := set_signal_synthesizer synthesizer self in
    let signals :=
      match signals with
      | [] => Detectors.evaluate run_inference (_detector_runner self) packet
      | _ => signals
      end in
    interpreter ←
      InterpreterStateMachine.process_signals (_interpreter self) signals
        (FramePacket.timestamp_ms packet);
    Ok (set_interpreter interpreter self).

(** The warm-up packets of [_prime_session]. *)
Definition warmup_packets (config : Config.t) : list FramePacket.t :=
  let session := Config.session config in
  let warmup_frames := Z.max 0 (SessionConfig.start_window_frames session) in
  let baseline_motion :=
    MotionMetrics.mk
      (py_max_float (SessionConfig.motion_threshold session) 0.5)
      (py_max_float (SessionConfig.relative_motion_threshold session)
         0x1.3333333333333p-2) in
  (λ index,
     FramePacket.mk (- warmup_frames + index) (- (warmup_frames - index))
       (Config.roi config) (Config.config_version config) baseline_motion PyNone PyNone
       (<["hand_count" := PyInt 2]> (<["hands_in_roi" := PyInt 2]> ∅)))
  <$> seqZ 0 warmup_frames.

Definition _prime_session (self : t) : result t :=
  for_each (warmup_packets (_config self)) gate_frame self.

(** [_apply_demo_thresholds] only logs; what it computes on the way can
    raise. *)
Definition _apply_demo_thresholds (self : t) (asset_id : string) : result unit :=
  asset ← DemoManifest.require (_manifest self) asset_id;
  _ ← Replay.summarize_step_durations asset;
  Ok ().

Definition _resolve_asset_identifier (self : t) (value : string) : result string :=
  match DemoManifest.get (_manifest self) value with
  | Some _ => Ok value
  | None =>
      let candidate := resolve_path value in
      match list_find (λ entry, DemoAsset.path entry.2 = candidate)
              (DemoManifest.assets (_manifest self)) with
      | Some (_, (asset_id, _)) => Ok asset_id
      | None => Raise ManifestError
      end
  end.

(** The checks of [_verify_asset] on the snapshot of the interpreter. *)
Definition annotation_duration (annotations : list StepAnnotation.t) (step : StepID.t) : Z :=
  foldl (λ total a,
           if decide (StepAnnotation.step_id a = step)
           then total + (StepAnnotation.end_ms a - StepAnnotation.start_ms a)
           else total)
    0 annotations.

Definition last_orientation (annotations : list StepAnnotation.t) (step : StepID.t)
  : option StepOrientation.t :=
  foldl (λ last a,
           if decide (StepAnnotation.step_id a = step)
           then Some (StepAnnotation.orientation a) else last)
    None annotations.

Definition snapshot_dict (snapshot : list StepStatus.t) : gmap StepID.t StepStatus.t :=
  foldl (λ d status, <[StepStatus.step_id status := status]> d) ∅ snapshot.

Definition required_ms (config : Config.t) (step : StepID.t) : Z :=
  match Config.steps config !! StepID.value step with
  | Some config_threshold => StepThreshold.duration_ms config_threshold
  | None => 0
  end.

Definition did_complete (snapshot : gmap StepID.t StepStatus.t) (step : StepID.t) : bool :=
  match snapshot !! step with
  | Some status => bool_decide (StepStatus.state status = StepState.COMPLETED)
  | None => false
  end.

Definition verify_errors (config : Config.t) (asset : DemoAsset.t)
    (snapshot_list : list StepStatus.t) : list VerifyError :=
  let annotations := DemoAsset.annotations asset in
  let snapshot := snapshot_dict snapshot_list in
  let annotated := insertion_order (StepAnnotation.step_id <$> annotations) in
  let per_annotated step_id :=
    let annotation_duration := annotation_duration annotations step_id in
    let required_ms := required_ms config step_id in
    let should_complete := required_ms <=? annotation_duration in
    let did_complete := did_complete snapshot step_id in
    (if should_complete && negb did_complete
     then [ShouldHaveCompleted step_id annotation_duration required_ms]
     else if negb should_complete && did_complete
     then [ShouldNotHaveCompleted step_id annotation_duration required_ms]
     else [])
    ++
    (match snapshot !! step_id, last_orientation annotations step_id with
     | Some status, Some orientation =>
         if did_complete && bool_decide (orientation ≠ StepOrientation.NONE)
            && bool_decide (StepStatus.orientation status ≠ orientation)
         then [OrientationMismatch step_id orientation (StepStatus.orientation status)]
         else []
     | _, _ => []
     end) in
  let per_status step :=
    if bool_decide (step ∉ annotated) && did_complete snapshot step
    then [UnexpectedlyCompleted step] else [] in
  (annotated ≫= per_annotated)
  ++ (insertion_order (StepStatus.step_id <$> snapshot_list) ≫= per_status).

(** Section 4.J in the specification's words: the steps that must be
    COMPLETED after the replay are the annotated ones whose annotations add up
    to the configured threshold at least. *)
Definition expected_completed (config : Config.t) (asset : DemoAsset.t) (step : StepID.t)
  : Prop :=
  step ∈ StepAnnotation.step_id <$> DemoAsset.annotations asset ∧
  required_ms config step ≤ annotation_duration (DemoAsset.annotations asset) step.

#[global] Instance expected_completed_dec config asset step :
  Decision (expected_completed config asset step).
Proof. unfold expected_completed. apply _. Defined.

(** The orientation check of [_verify_asset]: a completed step whose last
    annotation carries an orientation shows that orientation. *)
Definition orientations_agree (asset : DemoAsset.t) (snapshot : gmap StepID.t StepStatus.t)
  : Prop :=
  ∀ step status orientation,
    snapshot !! step = Some status →
    StepStatus.state status = StepState.COMPLETED →
    last_orientation (DemoAsset.annotations asset) step = Some orientation →
    orientation ≠ StepOrientation.NONE →
    StepStatus.orientation status = orientation.

Definition _verify_asset (self : t) (asset_id : string) : result bool :=
  asset ← DemoManifest.require (_manifest self) asset_id;
  Ok (bool_decide
        (verify_errors (_config self) asset
           (InterpreterStateMachine.snapshot (_interpreter self)) = [])).

(** The session manager's [reset], with the callback run on its event. *)
Definition reset_gate (self : t) : result t :=
  let '(session_manager, events) := SessionManager.reset (_session_manager self) in
  for_each events _handle_session_event (set_session_manager session_manager self).

(** [run()]: the application after the run, and the exit code. *)
Definition run (self : t) : result (t * Z) :=
  match _resolve_asset_identifier self (asset self) with
  | Raise ManifestError => Ok (self, 2)
  | Raise e => Raise e
  | Ok asset_id =>
      _ ← _apply_demo_thresholds self asset_id;
      self ← _prime_session self;
      packets ← Replay.stream_packets (_manifest self) (_config self) asset_id;
      self ←
        for_each packets
          (λ self packet, _process_packet self (boost_demo_packet packet (_config self)))
          self;
      self ← reset_gate self;
      if verify self then
        passed ← _verify_asset self asset_id;
        if passed : bool then Ok (self, 0) else Ok (self, 3)
      else Ok (self, 0)
  end.

End WithEnvironment.
End DemoApp.

(** ** logging/sessions.py *)

Module FallbackEvent.
Record t := mk {
  timestamp_ms : Z;
  reason : string;
  model_confidence : option float;
  landmark_confidence : option float;
}.
End FallbackEvent.

Module _SignalStats.
Record t := mk {
  model_count : Z;
  heuristic_count : Z;
  demo_count : Z;
  model_confidence_sum : float;
}.

Definition new : t := mk 0 0 0 0.

Definition register (self : t) (source : StepSignalSource.t) (confidence : float) : t :=
  match source with
  | StepSignalSource.MODEL =>
      mk (model_count self + 1) (heuristic_count self) (demo_count self)
         (model_confidence_sum self + confidence)%float
  | StepSignalSource.DEMO =>
      mk (model_count self) (heuristic_count self) (demo_count self + 1)
         (model_confidence_sum self)
  | StepSignalSource.HEURISTIC =>
      mk (model_count self) (heuristic_count self + 1) (demo_count self)
         (model_confidence_sum self)
  end.

Definition classification_source (self : t) : string :=
  let has_model := 0 <? model_count self in
  let has_fallback := 0 <? heuristic_count self + demo_count self in
  if has_model && has_fallback then "MIXED"
  else if has_model then "MODEL"
  else if has_fallback then "HEURISTIC"
  else "UNKNOWN".

Definition avg_model_confidence (self : t) : result (option float) :=
  if model_count self <=? 0 then Ok None
  else
    average ← py_float_div_int (model_confidence_sum self) (model_count self);
    Ok (Some average).
End _SignalStats.

Module _SessionState.
Record t := mk {
  session_id : string;
  config_version : string;
  roi : ROI.t;
  demo_mode : bool;
  demo_asset_id : option string;
  model_version : option string;
  start_ts_ms : Z;
  notes : list string;
  step_stats : gmap StepID.t _SignalStats.t;
  fallback_events : list FallbackEvent.t;
  model_inference_count : Z;
  heuristic_fallback_count : Z;
  model_confidence_sum : float;
  model_confidence_samples : Z;
  inference_latency_sum_ms : float;
  inference_latency_samples : Z;
}.

(** [_SessionState(session_id=..., ..., start_ts_ms=...)]: the other fields
    take the dataclass defaults. *)
Definition new (session_id config_version : string) (roi : ROI.t) (demo_mode : bool)
    (demo_asset_id model_version : option string) (start_ts_ms : Z) : t :=
  mk session_id config_version roi demo_mode demo_asset_id model_version start_ts_ms
     [] ∅ [] 0 0 0 0 0 0.

Definition set_session_id (v : string) (s : t) : t :=
  mk v (config_version s) (roi s) (demo_mode s) (demo_asset_id s) (model_version s)
     (start_ts_ms s) (notes s) (step_stats s) (fallback_events s)
     (model_inference_count s) (heuristic_fallback_count s) (model_confidence_sum s)
     (model_confidence_samples s) (inference_latency_sum_ms s)
     (inference_latency_samples s).
Definition set_notes (v : list string) (s : t) : t :=
  mk (session_id s) (config_version s) (roi s) (demo_mode s) (demo_asset_id s)
     (model_version s) (start_ts_ms s) v (step_stats s) (fallback_events s)
     (model_inference_count s) (heuristic_fallback_count s) (model_confidence_sum s)
     (model_confidence_samples s) (inference_latency_sum_ms s)
     (inference_latency_samples s).
Definition set_fallback_events (v : list FallbackEvent.t) (s : t) : t :=
  mk (session_id s) (config_version s) (roi s) (demo_mode s) (demo_asset_id s)
     (model_version s) (start_ts_ms s) (notes s) (step_stats s) v
     (model_inference_count s) (heuristic_fallback_count s) (model_confidence_sum s)
     (model_confidence_samples s) (inference_latency_sum_ms s)
     (inference_latency_samples s).
End _SessionState.

(** The dictionaries [_serialize_step_status], [_serialize_uncertainty] and
    [_serialize_fallback] build. An optional field is a key that is present
    or not. *)
Module StepPayload.
Record t := mk {
  step_id : string;
  orientation : string;
  state : string;
  accumulated_ms : Z;
  completed_ts : option string;
  uncertainty_count : Z;
  classification_source : string;
  model_confidence_avg : option float;
}.
End StepPayload.

Module UncertaintyPayload.
Record t := mk {
  timestamp_ms : Z;
  reason : string;
  details : option string;
}.
End UncertaintyPayload.

Module FallbackPayload.
Record t := mk {
  timestamp_ms : Z;
  reason : string;
  model_confidence : option float;
  landmark_confidence : option float;
}.
End FallbackPayload.

(** The dictionary [_build_record] returns, key by key. [json.dumps] turns
    it into the line of the log, so two equal records are the same bytes. *)
Module SessionRecord.
Record t := mk {
  session_id : string;
  config_version : string;
  model_version : option string;
  start_ts : string;
  end_ts : string;
  roi_rect : ROI.t;
  demo_mode : bool;
  demo_asset_id : option string;
  step_statuses : list StepPayload.t;
  uncertainty_events : list UncertaintyPayload.t;
  fallback_events : list FallbackPayload.t;
  total_rubbing_ms : Z;
  model_inference_count : Z;
  heuristic_fallback_count : Z;
  avg_inference_time_ms : option float;
  inference_time_samples : Z;
  inference_time_sum_ms : float;
  avg_model_confidence : option float;
  model_confidence_samples : Z;
  model_confidence_sum : float;
  model_usage_rate : float;
  notes : list string;
}.

Definition set_session_id (v : string) (r : t) : t :=
  mk v (config_version r) (model_version r) (start_ts r) (end_ts r) (roi_rect r)
     (demo_mode r) (demo_asset_id r) (step_statuses r) (uncertainty_events r)
     (fallback_events r) (total_rubbing_ms r) (model_inference_count r)
     (heuristic_fallback_count r) (avg_inference_time_ms r) (inference_time_samples r)
     (inference_time_sum_ms r) (avg_model_confidence r) (model_confidence_samples r)
     (model_confidence_sum r) (model_usage_rate r) (notes r).
End SessionRecord.

(** A line appended to the session log: the file it goes to (the date of
    the session's start, [<date>.jsonl]) and the record. *)
Definition LogLine : Type := string * SessionRecord.t.

(** A call that may append lines to the session log before it returns or
    raises: the lines appended, in order, and the outcome. Lines written
    before an exception stay in the file. *)
Record logged (A : Type) := Logged {
  written : list LogLine;
  outcome : result A;
}.
Arguments Logged {A} written outcome.
Arguments written {A} _.
Arguments outcome {A} _.

Global Instance logged_ret : MRet logged := λ A a, Logged [] (Ok a).
Global Instance logged_bind : MBind logged := λ A B f m,
  match outcome m with
  | Ok a => let r := f a in Logged (written m ++ written r) (outcome r)
  | Raise e => Logged (written m) (Raise e)
  end.

(** A call that writes nothing. *)
Definition quiet {A} (r : result A) : logged A := Logged [] r.

(** [for x in xs: self = body(self, x)], for a body that may write. *)
Fixpoint for_each_logged {S A} (xs : list A) (body : S → A → logged S) (self : S)
  : logged S :=
  match xs with
  | [] => mret self
  | x :: rest => self ← body self x; for_each_logged rest body self
  end.

Module SessionLogger.
Section WithClock.
(** [_ms_to_iso] and the date bucket of [_write_record] go through
    [datetime.fromtimestamp(..., tz=timezone.utc)]: functions of their
    argument, which raise on a timestamp out of the calendar's range. *)
Variable _ms_to_iso : Z → result string.
Variable date_bucket : Z → result string.

(** The attribute [_sessions]; [_log_dir] is fixed when the logger is
    built. *)
Record t := mk { _sessions : gmap string _SessionState.t }.

Definition __init__ : t := mk ∅.

Definition handle_session_started (self : t) (event : SessionEvent.t) (roi : ROI.t)
    (demo_mode : bool) (demo_asset_id model_version : option string) : t :=
  mk (<[SessionEvent.session_id event :=
          _SessionState.new (SessionEvent.session_id event)
            (SessionEvent.config_version event) roi demo_mode demo_asset_id model_version
            (SessionEvent.timestamp_ms event)]> (_sessions self)).

(** The body of [record_step_signals] once the state of the session is
    found. *)
Definition register_signals (state : _SessionState.t) (signals : list StepSignal.t)
    (inference_latency_ms : option float) : _SessionState.t :=
  let '(state, saw_model_signal) :=
    foldl
      (λ '(state, saw_model_signal) signal,
         let stats :=
           default _SignalStats.new
             (_SessionState.step_stats state !! StepSignal.step_id signal) in
         let stats :=
           _SignalStats.register stats (StepSignal.source signal)
             (StepSignal.confidence signal) in
         let step_stats :=
           <[StepSignal.step_id signal := stats]> (_SessionState.step_stats state) in
         if bool_decide (StepSignal.source signal = StepSignalSource.MODEL)
         then
           (_SessionState.mk (_SessionState.session_id state)
              (_SessionState.config_version state) (_SessionState.roi state)
              (_SessionState.demo_mode state) (_SessionState.demo_asset_id state)
              (_SessionState.model_version state) (_SessionState.start_ts_ms state)
              (_SessionState.notes state) step_stats (_SessionState.fallback_events state)
              (_SessionState.model_inference_count state + 1)
              (_SessionState.heuristic_fallback_count state)
              (_SessionState.model_confidence_sum state + StepSignal.confidence signal)%float
              (_SessionState.model_confidence_samples state + 1)
              (_SessionState.inference_latency_sum_ms state)
              (_SessionState.inference_latency_samples state),
            true)
         else
           (_SessionState.mk (_SessionState.session_id state)
              (_SessionState.config_version state) (_SessionState.roi state)
              (_SessionState.demo_mode state) (_SessionState.demo_asset_id state)
              (_SessionState.model_version state) (_SessionState.start_ts_ms state)
              (_SessionState.notes state) step_stats (_SessionState.fallback_events state)
              (_SessionState.model_inference_count state)
              (_SessionState.heuristic_fallback_count state + 1)
              (_SessionState.model_confidence_sum state)
              (_SessionState.model_confidence_samples state)
              (_SessionState.inference_latency_sum_ms state)
              (_SessionState.inference_latency_samples state),
            saw_model_signal))
      (state, false) signals in
  match inference_latency_ms with
  | Some latency =>
      if saw_model_signal : bool
      then
        _SessionState.mk (_SessionState.session_id state)
          (_SessionState.config_version state) (_SessionState.roi state)
          (_SessionState.demo_mode state) (_SessionState.demo_asset_id state)
          (_SessionState.model_version state) (_SessionState.start_ts_ms state)
          (_SessionState.notes state) (_SessionState.step_stats state)
          (_SessionState.fallback_events state)
          (_SessionState.model_inference_count state)
          (_SessionState.heuristic_fallback_count state)
          (_SessionState.model_confidence_sum state)
          (_SessionState.model_confidence_samples state)
          (_SessionState.inference_latency_sum_ms state + latency)%float
          (_SessionState.inference_latency_samples state + 1)
      else state
  | None => state
  end.

Definition record_step_signals (self : t) (session_id : option string)
    (signals : list StepSignal.t) (inference_latency_ms : option float) : t :=
  match session_id with
  | Some sid =>
      if negb (truthy_str (Some sid)) then self
      else
        match _sessions self !! sid with
        | None => self
        | Some state =>
            mk (<[sid := register_signals state signals inference_latency_ms]>
                  (_sessions self))
        end
  | None => self
  end.

Definition record_fallback (self : t) (session_id : option string) (timestamp_ms : Z)
    (reason : string) (model_confidence landmark_confidence : option float) : t :=
  match session_id with
  | Some sid =>
      if negb (truthy_str (Some sid)) then self
      else
        match _sessions self !! sid with
        | None => self
        | Some state =>
            let event :=
              FallbackEvent.mk timestamp_ms reason model_confidence landmark_confidence in
            mk (<[sid := _SessionState.set_fallback_events
                           (_SessionState.fallback_events state ++ [event]) state]>
                  (_sessions self))
        end
  | None => self
  end.

Definition _serialize_step_status (status : StepStatus.t) (stats : _SignalStats.t)
  : result StepPayload.t :=
  completed_ts ←
    match StepStatus.completed_ts status with
    | Some ts => iso ← _ms_to_iso ts; Ok (Some iso)
    | None => Ok None
    end;
  model_confidence ← _SignalStats.avg_model_confidence stats;
  Ok (StepPayload.mk (StepID.value (StepStatus.step_id status))
        (StepOrientation.value (StepStatus.orientation status))
        (StepState.value (StepStatus.state status))
        (StepStatus.accumulated_ms status) completed_ts
        (StepStatus.uncertainty_count status)
        (_SignalStats.classification_source stats) model_confidence).

Definition _serialize_uncertainty (event : UncertaintyEvent.t) : UncertaintyPayload.t :=
  UncertaintyPayload.mk (UncertaintyEvent.timestamp_ms event)
    (UncertaintyReason.value (UncertaintyEvent.reason event))
    (if truthy_str (UncertaintyEvent.details event)
     then UncertaintyEvent.details event else None).

Definition _serialize_fallback (event : FallbackEvent.t) : FallbackPayload.t :=
  FallbackPayload.mk (FallbackEvent.timestamp_ms event) (FallbackEvent.reason event)
    (FallbackEvent.model_confidence event) (FallbackEvent.landmark_confidence event).

(** The loop of [_build_record] over the statuses: the payloads, and
    [total_rubbing_ms]. *)
Fixpoint serialize_statuses (state : _SessionState.t) (step_statuses : list StepStatus.t)
    (total_rubbing_ms : Z) : result (list StepPayload.t * Z) :=
  match step_statuses with
  | [] => Ok ([], total_rubbing_ms)
  | status :: rest =>
      let stats :=
        default _SignalStats.new
          (_SessionState.step_stats state !! StepStatus.step_id status) in
      let total_rubbing_ms := total_rubbing_ms + Z.max 0 (StepStatus.accumulated_ms status) in
      payload ← _serialize_step_status status stats;
      '(payloads, total_rubbing_ms) ← serialize_statuses state rest total_rubbing_ms;
      Ok (payload :: payloads, total_rubbing_ms)
  end.

Definition _build_record (state : _SessionState.t) (end_ts_ms : Z)
    (step_statuses : list StepStatus.t) (uncertainty_events : list UncertaintyEvent.t)
  : result SessionRecord.t :=
  '(step_payloads, total_rubbing_ms) ← serialize_statuses state step_statuses 0;
  let total_classifications :=
    _SessionState.model_inference_count state
    + _SessionState.heuristic_fallback_count state in
  model_usage_rate ←
    (if 0 <? total_classifications
     then py_int_truediv (_SessionState.model_inference_count state) total_classifications
     else Ok 0%float);
  avg_model_confidence ←
    (if 0 <? _SessionState.model_confidence_samples state
     then
       average ← py_float_div_int (_SessionState.model_confidence_sum state)
                   (_SessionState.model_confidence_samples state);
       Ok (Some average)
     else Ok None);
  avg_inference_latency ←
    (if 0 <? _SessionState.inference_latency_samples state
     then
       average ← py_float_div_int (_SessionState.inference_latency_sum_ms state)
                   (_SessionState.inference_latency_samples state);
       Ok (Some average)
     else Ok None);
  start_ts ← _ms_to_iso (_SessionState.start_ts_ms state);
  end_ts ← _ms_to_iso end_ts_ms;
  Ok (SessionRecord.mk (_SessionState.session_id state)
        (_SessionState.config_version state) (_SessionState.model_version state)
        start_ts end_ts (_SessionState.roi state) (_SessionState.demo_mode state)
        (_SessionState.demo_asset_id state) step_payloads
        (_serialize_uncertainty <$> uncertainty_events)
        (_serialize_fallback <$> _SessionState.fallback_events state)
        total_rubbing_ms (_SessionState.model_inference_count state)
        (_SessionState.heuristic_fallback_count state) avg_inference_latency
        (_SessionState.inference_latency_samples state)
        (_SessionState.inference_latency_sum_ms state) avg_model_confidence
        (_SessionState.model_confidence_samples state)
        (_SessionState.model_confidence_sum state) model_usage_rate
        (_SessionState.notes state)).

Definition _write_record (record : SessionRecord.t) (start_ts_ms : Z) : logged unit :=
  match date_bucket start_ts_ms with
  | Ok date => Logged [(date +:+ ".jsonl", record)] (Ok ())
  | Raise e => Logged [] (Raise e)
  end.

Definition handle_session_ended (self : t) (event : SessionEvent.t)
    (step_statuses : list StepStatus.t) (uncertainty_events : list UncertaintyEvent.t)
  : logged t :=
  match _sessions self !! SessionEvent.session_id event with
  | None => mret self
  | Some state =>
      let self := mk (delete (SessionEvent.session_id event) (_sessions self)) in
      let '(duration_note, reason_note) :=
        match SessionEvent.details event with
        | EndedDetails reason duration_ms => (Some duration_ms, Some reason)
        | StartedDetails _ => (None, None)
        end in
      let state :=
        match duration_note with
        | Some duration_ms =>
            _SessionState.set_notes
              (_SessionState.notes state ++ ["duration_ms=" +:+ pretty duration_ms]) state
        | None => state
        end in
      let state :=
        match reason_note with
        | Some reason =>
            if truthy_str (Some reason)
            then _SessionState.set_notes
                   (_SessionState.notes state ++ ["reason=" +:+ reason]) state
            else state
        | None => state
        end in
      record ←
        quiet (_build_record state (SessionEvent.timestamp_ms event) step_statuses
                 uncertainty_events);
      _ ← _write_record record (_SessionState.start_ts_ms state);
      mret self
  end.

End WithClock.
End SessionLogger.

(** ** cli/capture.py: the replay of a demo asset *)

Module CaptureApp.
Section WithEnvironment.
Variable uuid4 : nat → string.
Variable transport : list HttpRequest → HttpRequest → option string.
Variable _ms_to_iso : Z → result string.
Variable date_bucket : Z → result string.

Local Instance led_publisher : LedPublisher Esp8266Client.t :=
  Esp8266Client.led_publisher transport.

Notation Interpreter := (InterpreterStateMachine.t Esp8266Client.t).

(** The attributes of a [CaptureApp] built for [--demo-asset] (an asset
    identifier, hence a non-empty string: [_demo_mode] holds and
    [_demo_synthesizer] is set), without [--sample-inference],
    [--mock-session], [--preview] or [--export-training-data]. [log_steps]
    is the argument [--log-steps]; [_model_version] is what
    [detect_model_version()] found in the installation. The LED client is
    the object the interpreter holds. The recording
    manager, the preview and the status reporter write frames and console
    lines only; they are left out. *)
Record t := mk {
  _config : Config.t;
  log_steps : bool;
  _session_manager : SessionManager.t;
  _interpreter : Interpreter;
  _session_logger : SessionLogger.t;
  _model_version : option string;
  _demo_asset_id : option string;
  _demo_mode : bool;
  _step_runner : Detectors.DetectorRunner;
  _demo_synthesizer : DemoSignalSynthesizer.t;
}.

Definition set_session_manager (v : SessionManager.t) (self : t) : t :=
  mk (_config self) (log_steps self) v (_interpreter self)
     (_session_logger self) (_model_version self) (_demo_asset_id self) (_demo_mode self)
     (_step_runner self) (_demo_synthesizer self).
Definition set_interpreter (v : Interpreter) (self : t) : t :=
  mk (_config self) (log_steps self) (_session_manager self) v
     (_session_logger self) (_model_version self) (_demo_asset_id self) (_demo_mode self)
     (_step_runner self) (_demo_synthesizer self).
Definition set_session_logger (v : SessionLogger.t) (self : t) : t :=
  mk (_config self) (log_steps self) (_session_manager self)
     (_interpreter self) v (_model_version self) (_demo_asset_id self) (_demo_mode self)
     (_step_runner self) (_demo_synthesizer self).
Definition set_demo_synthesizer (v : DemoSignalSynthesizer.t) (self : t) : t :=
  mk (_config self) (log_steps self) (_session_manager self)
     (_interpreter self) (_session_logger self) (_model_version self) (_demo_asset_id self)
     (_demo_mode self) (_step_runner self) v.

(** [CaptureApp(config, args)]. The reset sent to the LEDs on startup is
    inside a [try]; the interpreter is handed the client after it. *)
Definition __init__ (config : Config.t) (demo_asset : string) (log_steps : bool)
    (model_version : option string) : result t :=
  session_manager ← SessionManager.__init__ config;
  let led_client :=
    if Esp8266Config.enabled (Config.esp8266 config)
    then Some (Esp8266Client._reset_leds transport
                 (Esp8266Client.__init__ (Config.esp8266 config)))
    else None in
  let interpreter :=
    InterpreterStateMachine.__init__ (L := Esp8266Client.t) config led_client in
  step_runner ← Detectors.build_default_runner config;
  Ok (mk config log_steps session_manager interpreter SessionLogger.__init__
        model_version (Some demo_asset) true step_runner DemoSignalSynthesizer.__init__).

(** [_handle_session_event], the callback of the session manager. *)
Definition _handle_session_event (self : t) (event : SessionEvent.t) : logged t :=
  match SessionEvent.event_type event with
  | SessionEventType.STARTED =>
      interpreter ←
        quiet (InterpreterStateMachine.start_session (_interpreter self)
                 (SessionEvent.session_id event) (SessionEvent.timestamp_ms event));
      let self := set_interpreter interpreter self in
      mret (set_session_logger
              (SessionLogger.handle_session_started (_session_logger self) event
                 (Config.roi (_config self)) (_demo_mode self) (_demo_asset_id self)
                 (_model_version self))
              self)
  | SessionEventType.ENDED =>
      let snapshot := InterpreterStateMachine.snapshot (_interpreter self) in
      let uncertainties := InterpreterStateMachine.uncertainty_events (_interpreter self) in
      session_logger ←
        SessionLogger.handle_session_ended _ms_to_iso date_bucket (_session_logger self)
          event snapshot uncertainties;
      let self := set_session_logger session_logger self in
      mret (set_interpreter
              (InterpreterStateMachine.end_session (_interpreter self)
                 (SessionEvent.timestamp_ms event))
              self)
  end.

(** [self._session_manager.process_frame(packet)], with the callback run on
    the events it emits. *)
Definition gate_frame (self : t) (packet : FramePacket.t) : logged t :=
  '(session_manager, events) ←
    quiet (SessionManager.process_frame uuid4 (_session_manager self) packet);
  for_each_logged events _handle_session_event (set_session_manager session_manager self).

Definition _process_packet (self : t) (packet : FramePacket.t) : logged t :=
  self ← gate_frame self packet;
  let session_active := SessionManager._session_active (_session_manager self) in
  let needs_signals := session_active || log_steps self in
  let '(self, signals) :=
    if needs_signals
    then
      let '(synthesizer, signals) :=
        DemoSignalSynthesizer.generate (_demo_synthesizer self) packet in
      (set_demo_synthesizer synthesizer self, Some signals)
    else (self, None) in
  if session_active then
    match signals with
    | Some signals =>
        let session_id := SessionManager._current_session_id (_session_manager self) in
        let self :=
          set_session_logger
            (SessionLogger.record_step_signals (_session_logger self) session_id signals
               None)
            self in
        interpreter ←
          quiet (InterpreterStateMachine.process_signals (_interpreter self) signals
                   (FramePacket.timestamp_ms packet));
        mret (set_interpreter interpreter self)
    | None => mret self
    end
  else mret self.

(** [_apply_demo_thresholds] only logs; [summarize_step_durations] can raise
    on the way. *)
Definition _apply_demo_thresholds (self : t) (manifest : DemoManifest.t)
    (asset_id : string) : result unit :=
  match DemoManifest.require manifest asset_id with
  | Raise _ => Ok ()
  | Ok asset =>
      _ ← Replay.summarize_step_durations asset;
      Ok ()
  end.

Definition _prime_demo_session (self : t) : logged t :=
  for_each_logged (DemoApp.warmup_packets (_config self)) gate_frame self.

(** [self._session_manager.reset()], with the callback run on its event. *)
Definition reset_gate (self : t) : logged t :=
  let '(session_manager, events) := SessionManager.reset (_session_manager self) in
  for_each_logged events _handle_session_event (set_session_manager session_manager self).

(** [_run_demo_asset()], the manifest of [args.demo_manifest] being loaded:
    the exit code. *)
Definition _run_demo_asset (self : t) (manifest : DemoManifest.t) (demo_asset : string)
  : logged Z :=
  _ ← quiet (_apply_demo_thresholds self manifest demo_asset);
  self ← _prime_demo_session self;
  packets ← quiet (Replay.stream_packets manifest (_config self) demo_asset);
  self ←
    for_each_logged packets
      (λ self packet, _process_packet self (boost_demo_packet packet (_config self)))
      self;
  _ ← reset_gate self;
  mret 0.

(** [CaptureApp(config, args).run()] for [--demo-asset demo_asset]: what
    the run appends to the session log, and its exit code or exception. *)
Definition replay (config : Config.t) (manifest : DemoManifest.t) (demo_asset : string)
    (log_steps : bool) (model_version : option string) : logged Z :=
  self ← quiet (__init__ config demo_asset log_steps model_version);
  _run_demo_asset self manifest demo_asset.

End WithEnvironment.
End CaptureApp.

(** A log line without the identifier of its session. *)
Definition without_session_id (line : LogLine) : LogLine :=
  (line.1, SessionRecord.set_session_id "" line.2).

(** ** Two runs of the replay, side by side

    What two runs that differ in the identifiers [uuid4()] hands out and in
    the answers of the LED endpoint have in common, component by
    component. *)
Module TwoRuns.

(** Both calls raise the same exception, or both return, with related
    values. *)
Definition result_rel {A B} (R : A → B → Prop) (r1 : result A) (r2 : result B) : Prop :=
  match r1, r2 with
  | Ok a, Ok b => R a b
  | Raise e1, Raise e2 => e1 = e2
  | _, _ => False
  end.

(** The same, for calls that write to the session log: the lines they
    write agree but for the session identifiers. *)
Definition logged_rel {A B} (R : A → B → Prop) (m1 : logged A) (m2 : logged B) : Prop :=
  without_session_id <$> written m1 = without_session_id <$> written m2 ∧
  result_rel R (outcome m1) (outcome m2).

(** Two current session identifiers: both unset, or both set and truthy. *)
Definition ids_rel (id1 id2 : option string) : Prop :=
  match id1, id2 with
  | Some a, Some b => a ≠ "" ∧ b ≠ ""
  | None, None => True
  | _, _ => False
  end.

(** Two session managers that differ in the session identifier at most. *)
Record gate_rel (m1 m2 : SessionManager.t) : Prop := {
  gate_config : SessionManager._config m1 = SessionManager._config m2;
  gate_window : SessionManager._start_window m1 = SessionManager._start_window m2;
  gate_active : SessionManager._session_active m1 = SessionManager._session_active m2;
  gate_ids :
    ids_rel (SessionManager._current_session_id m1) (SessionManager._current_session_id m2);
  gate_start_ts :
    SessionManager._session_start_ts m1 = SessionManager._session_start_ts m2;
  gate_last_active :
    SessionManager._last_active_ts m1 = SessionManager._last_active_ts m2;
}.

Record event_rel (e1 e2 : SessionEvent.t) : Prop := {
  event_rel_type : SessionEvent.event_type e1 = SessionEvent.event_type e2;
  event_rel_id1 : SessionEvent.session_id e1 ≠ "";
  event_rel_id2 : SessionEvent.session_id e2 ≠ "";
  event_rel_ts : SessionEvent.timestamp_ms e1 = SessionEvent.timestamp_ms e2;
  event_rel_version : SessionEvent.config_version e1 = SessionEvent.config_version e2;
  event_rel_details : SessionEvent.details e1 = SessionEvent.details e2;
}.

(** What a call of the session manager did to the current session, in both
    runs: nothing, or it opened one, or it closed the current one. *)
Inductive gate_step (m1 m1' : SessionManager.t) (events1 : list SessionEvent.t)
    (m2 m2' : SessionManager.t) (events2 : list SessionEvent.t) : Prop :=
  | gate_quiet :
      events1 = [] → events2 = [] →
      SessionManager._current_session_id m1' = SessionManager._current_session_id m1 →
      SessionManager._current_session_id m2' = SessionManager._current_session_id m2 →
      gate_step m1 m1' events1 m2 m2' events2
  | gate_started e1 e2 :
      events1 = [e1] → events2 = [e2] → event_rel e1 e2 →
      SessionEvent.event_type e1 = SessionEventType.STARTED →
      SessionManager._current_session_id m1' = Some (SessionEvent.session_id e1) →
      SessionManager._current_session_id m2' = Some (SessionEvent.session_id e2) →
      gate_step m1 m1' events1 m2 m2' events2
  | gate_ended e1 e2 :
      events1 = [e1] → events2 = [e2] → event_rel e1 e2 →
      SessionEvent.event_type e1 = SessionEventType.ENDED →
      SessionManager._current_session_id m1 = Some (SessionEvent.session_id e1) →
      SessionManager._current_session_id m2 = Some (SessionEvent.session_id e2) →
      SessionManager._current_session_id m1' = None →
      SessionManager._current_session_id m2' = None →
      gate_step m1 m1' events1 m2 m2' events2.

(** What relates the results of a call of the session manager in the two
    runs. *)
Definition gate_call_rel (m1 m2 : SessionManager.t)
    (r1 r2 : SessionManager.t * list SessionEvent.t) : Prop :=
  gate_rel r1.1 r2.1 ∧ gate_step m1 r1.1 r1.2 m2 r2.1 r2.2.

(** Two records that differ in [session_id] at most. *)
Definition record_rel (r1 r2 : SessionRecord.t) : Prop :=
  SessionRecord.set_session_id "" r1 = SessionRecord.set_session_id "" r2.

(** Two accumulators of the logger that differ in the session identifier
    at most. *)
Definition state_rel (s1 s2 : _SessionState.t) : Prop :=
  _SessionState.set_session_id "" s1 = _SessionState.set_session_id "" s2.

(** Two loggers, under the current session identifiers of their runs. *)
Definition logger_rel (id1 id2 : option string) (l1 l2 : SessionLogger.t) : Prop :=
  match id1, id2 with
  | Some id1, Some id2 =>
      option_Forall2 state_rel (SessionLogger._sessions l1 !! id1)
        (SessionLogger._sessions l2 !! id2)
  | _, _ => True
  end.

(** Two state machines that differ in the session identifier, the LED
    client and the events handed to the callback at most. *)
Record interp_rel {L} (s1 s2 : InterpreterStateMachine.t L) : Prop := {
  interp_wf1 : InterpreterState.wf s1;
  interp_wf2 : InterpreterState.wf s2;
  interp_thresholds :
    InterpreterStateMachine._step_thresholds s1 = InterpreterStateMachine._step_thresholds s2;
  interp_order :
    InterpreterStateMachine._step_order s1 = InterpreterStateMachine._step_order s2;
  interp_session :
    truthy_str (InterpreterStateMachine._session_id s1)
    = truthy_str (InterpreterStateMachine._session_id s2);
  interp_statuses :
    InterpreterStateMachine._step_statuses s1 = InterpreterStateMachine._step_statuses s2;
  interp_last_confident : ∀ k,
    k ∈ InterpreterStateMachine._step_order s1 →
    mjoin (InterpreterStateMachine._last_confident_ts s1 !! k)
    = mjoin (InterpreterStateMachine._last_confident_ts s2 !! k);
  interp_uncertainty :
    InterpreterStateMachine._uncertainty_events s1
    = InterpreterStateMachine._uncertainty_events s2;
}.

(** Two applications, the loggers being compared under the session
    identifiers [id1] and [id2]. *)
Record app_rel_under (id1 id2 : option string) (a1 a2 : CaptureApp.t) : Prop := {
  app_config : CaptureApp._config a1 = CaptureApp._config a2;
  app_log_steps : CaptureApp.log_steps a1 = CaptureApp.log_steps a2;
  app_gate : gate_rel (CaptureApp._session_manager a1) (CaptureApp._session_manager a2);
  app_interp : interp_rel (CaptureApp._interpreter a1) (CaptureApp._interpreter a2);
  app_logger :
    logger_rel id1 id2 (CaptureApp._session_logger a1) (CaptureApp._session_logger a2);
  app_model_version : CaptureApp._model_version a1 = CaptureApp._model_version a2;
  app_asset : CaptureApp._demo_asset_id a1 = CaptureApp._demo_asset_id a2;
  app_demo_mode : CaptureApp._demo_mode a1 = CaptureApp._demo_mode a2;
  app_synthesizer : CaptureApp._demo_synthesizer a1 = CaptureApp._demo_synthesizer a2;
}.

(** Between two calls, the identifiers are the current ones. While the
    callback has not run yet on the events of a call of the session manager,
    they are the ones of before the call. *)
Definition app_rel (a1 a2 : CaptureApp.t) : Prop :=
  app_rel_under
    (SessionManager._current_session_id (CaptureApp._session_manager a1))
    (SessionManager._current_session_id (CaptureApp._session_manager a2)) a1 a2.

End TwoRuns.

(** ** Concrete scenarios, used to run the theorems on inputs *)

Module Scenario.
Import InterpreterStateMachine InterpreterRun.

(** The value of a call that raised nothing ([d] otherwise). *)
Definition unwrap {A} (r : result A) (d : A) : A :=
  match r with
  | Ok a => a
  | Raise _ => d
  end.

(** A configuration in the style of [tests/integration/test_interpreter.py]:
    every step with the same [duration_ms]. *)
Definition config (duration_ms : Z) : Config.t :=
  Config.mk "test-config" (ROI.mk 0 0 400 300)
    (SessionConfig.mk 0.5 0.25 3 500 2 true)
    (list_to_map ((λ s, (StepID.value s, StepThreshold.mk duration_ms 0.5 None)) <$> StepID.all))
    (Esp8266Config.mk false None None 500 1).

Definition signal (step : StepID.t) (ts : Z) : StepSignal.t :=
  StepSignal.mk step StepOrientation.NONE 0.875 true ts StepSignalSource.MODEL None.

(** Scenario S1 of the specification, up to the frame before completion. *)
Definition machine0 : InterpreterStateMachine.t Empty_set := __init__ (config 300) None.
Definition machine1 := unwrap (start_session machine0 "session-1" 200) machine0.
Definition machine2 := unwrap (process_signals machine1 [signal StepID.STEP_2 300] 300) machine1.
Definition machine3 := unwrap (process_signals machine2 [signal StepID.STEP_2 450] 450) machine2.
Definition machine4 := unwrap (process_signals machine3 [signal StepID.STEP_2 600] 600) machine3.
(** The status of STEP_2 in [machine3]. *)
Definition status3 : StepStatus.t :=
  StepStatus.mk StepID.STEP_2 StepOrientation.NONE StepState.IN_PROGRESS 150 None 0.
End Scenario.


Module GateScenario.
Import SessionManager SessionGate.

(** The stand-in for [uuid4()]: the [n]-th identifier it hands out. *)
Definition uuid4 (n : nat) : string := "session-" +:+ pretty n.

(** A frame as [tests/unit/test_session_manager.py] builds it. *)
Definition packet (ts : Z) (mean_velocity relative_motion : float) (hand_count : Z)
  : FramePacket.t :=
  FramePacket.mk (ts / 33) ts (ROI.mk 0 0 400 300) "test-config"
    (MotionMetrics.mk mean_velocity relative_motion) PyNone PyNone
    (<["hand_count" := PyInt hand_count]> (<["hands_in_roi" := PyInt hand_count]> ∅)).

Definition moving (ts : Z) : FramePacket.t := packet ts 0.75 0.5 2.
Definition still (ts : Z) : FramePacket.t := packet ts 0.125 0.0625 2.

(** A frame that reports its hands under [hand_count] only. *)
Definition hand_count_only : FramePacket.t :=
  FramePacket.mk 0 0 (ROI.mk 0 0 400 300) "test-config" (MotionMetrics.mk 0.75 0.5)
    PyNone PyNone (<["hand_count" := PyInt 2]> ∅).

(** [SessionManager(config)] for [Scenario.config]: window of 3 frames,
    timeout of 500 ms. *)
Definition gate0 : SessionManager.t :=
  SessionManager.mk (Scenario.config 300) (Deque.mk [] 3) false None None None 0.

Definition after (self : SessionManager.t) (packets : list FramePacket.t) : SessionManager.t :=
  match process_frames uuid4 self packets with
  | Ok (self', _) => self'
  | Raise _ => self
  end.

(** Scenario S1: three moving frames open the session at 200. *)
Definition gate_active : SessionManager.t := after gate0 [moving 0; moving 100; moving 200].

(** A stream whose clock steps back: the session opens at 1000, and the
    next moving frame is stamped 0. *)
Definition gate_backwards : SessionManager.t :=
  after gate0 [moving 1000; moving 1000; moving 1000; moving 0].
End GateScenario.

(** The second half of [tests/smoke/test_led_client.py]: a client pointed at
    an endpoint that cannot be reached. *)
Module LedScenario.
Import Esp8266Client.

Definition unreachable (_ : list HttpRequest) (_ : HttpRequest) : option string :=
  Some "ConnectionError: connection refused".

Definition led_config : Esp8266Config.t :=
  Esp8266Config.mk true None (Some "http://127.0.0.1:9/signal") 200 1.

Definition client : Esp8266Client.t :=
  start_session unreachable (__init__ led_config) "session-failure".
End LedScenario.

(** The manifest of [tests/unit/test_demo_replay.py], and an asset recorded
    at 4000 frames per second beside it. *)
Module ReplayScenario.

Definition sample : DemoAsset.t :=
  DemoAsset.mk "sample" "/demos/sample.npz" 25 5
    [StepAnnotation.mk StepID.STEP_2 StepOrientation.NONE 0 3000]
    (Some (ROI.mk 10 5 80 90)).

Definition high_speed : DemoAsset.t :=
  DemoAsset.mk "high-speed" "/demos/high-speed.npz" 4000 3 [] None.

Definition manifest : DemoManifest.t :=
  DemoManifest.mk "0.1.0" [("sample", sample); ("high-speed", high_speed)].

End ReplayScenario.

(** Replays through [DemoApp]: scenario S5 of the specification, and an
    asset that annotates the two sides of step 3 one after the other. *)
Module DemoScenario.

Definition s5_asset : DemoAsset.t :=
  DemoAsset.mk "s5" "/demos/s5.npz" 25 160
    [StepAnnotation.mk StepID.STEP_2 StepOrientation.NONE 0 3000;
     StepAnnotation.mk StepID.STEP_3 StepOrientation.RIGHT_OVER_LEFT 3200 6200]
    None.

Definition two_sided : DemoAsset.t :=
  DemoAsset.mk "two-sided" "/demos/two-sided.npz" 25 20
    [StepAnnotation.mk StepID.STEP_3 StepOrientation.RIGHT_OVER_LEFT 0 400;
     StepAnnotation.mk StepID.STEP_3 StepOrientation.LEFT_OVER_RIGHT 400 800]
    None.

Definition manifest : DemoManifest.t :=
  DemoManifest.mk "0.1.0" [("s5", s5_asset); ("two-sided", two_sided)].

(** No camera image, hence no model; an LED endpoint that answers. *)
Definition no_model (_ : FramePacket.t) : option MLStepResult.t := None.
Definition reachable_endpoint (_ : list HttpRequest) (_ : HttpRequest) : option string :=
  None.

(** [DemoApp(config, args).run()] with [--verify], every step's threshold
    being [duration_ms]. *)
Definition run (uuid4 : nat → string) (duration_ms : Z) (asset : string)
  : result (DemoApp.t * Z) :=
  app ← DemoApp.__init__ (Scenario.config duration_ms) manifest asset true;
  DemoApp.run uuid4 reachable_endpoint no_model id app.

(** The application after the run ([None] if the run raised). *)
Definition app_after (duration_ms : Z) (asset : string) : option DemoApp.t :=
  match run GateScenario.uuid4 duration_ms asset with
  | Ok (app, _) => Some app
  | Raise _ => None
  end.

Definition exit_code (duration_ms : Z) (asset : string) : option Z :=
  match run GateScenario.uuid4 duration_ms asset with
  | Ok (_, code) => Some code
  | Raise _ => None
  end.

End DemoScenario.

(** Two replays of scenario S5 through [CaptureApp], the LEDs being
    enabled: the first run gets the identifiers of [GateScenario.uuid4] and
    an endpoint that answers, the second other identifiers and an endpoint
    that cannot be reached. *)
Module CaptureScenario.

Definition config : Config.t :=
  Config.mk "test-config" (ROI.mk 0 0 400 300)
    (SessionConfig.mk 0.5 0.25 3 500 2 true)
    (Config.steps (Scenario.config 3000))
    LedScenario.led_config.

Definition other_uuid4 (n : nat) : string := "replay-" +:+ pretty (n + 7)%nat.

(** Stand-ins for the two renderings of a timestamp: the decimal of the
    milliseconds, and the number of the day since the epoch. *)
Definition _ms_to_iso (timestamp_ms : Z) : result string := Ok (pretty timestamp_ms).
Definition date_bucket (timestamp_ms : Z) : result string :=
  Ok (pretty (timestamp_ms / 86400000)).

Definition first_run : logged Z :=
  CaptureApp.replay GateScenario.uuid4 DemoScenario.reachable_endpoint _ms_to_iso
    date_bucket config DemoScenario.manifest "s5" false (Some "0123456789ab").

Definition second_run : logged Z :=
  CaptureApp.replay other_uuid4 LedScenario.unreachable _ms_to_iso date_bucket config
    DemoScenario.manifest "s5" false (Some "0123456789ab").

End CaptureScenario.

(** ** The events of a session manager, as a stream *)

Module SessionEvents.

(** An idle manager holds no session. *)
Definition idle_inv (self : SessionManager.t) : Prop :=
  SessionManager._session_active self = false →
  SessionManager._current_session_id self = None ∧
  SessionManager._session_start_ts self = None ∧
  SessionManager._last_active_ts self = None.

(** The events of a run, read from a point where the session [current] is
    under way (or none is) and [uuid4()] has been called [calls] times:
    STARTED and ENDED alternate, the [n]-th start carries the [n]-th
    identifier handed out, and an end names the session that is under way. *)
Fixpoint well_bracketed (uuid4 : nat → string) (current : option string) (calls : nat)
    (events : list SessionEvent.t) : Prop :=
  match events with
  | [] => True
  | event :: rest =>
      match current with
      | None =>
          SessionEvent.event_type event = SessionEventType.STARTED ∧
          SessionEvent.session_id event = uuid4 calls ∧
          well_bracketed uuid4 (Some (SessionEvent.session_id event)) (S calls) rest
      | Some sid =>
          SessionEvent.event_type event = SessionEventType.ENDED ∧
          SessionEvent.session_id event = sid ∧
          well_bracketed uuid4 None calls rest
      end
  end.

End SessionEvents.

(** ** The LED client through all of its calls, and its request log *)

Module LedClientCalls.
Import Esp8266Client.
Section WithTransport.
Variable transport : list HttpRequest → HttpRequest → option string.

(** The public methods of the client. *)
Inductive ClientCall :=
  | CallStartSession (session_id : string)
  | CallPublish (step_id : StepID.t) (state : LedSignalState.t) (timestamp_ms : Z)
  | CallEndSession.

Definition run_call (self : t) (call : ClientCall) : t :=
  match call with
  | CallStartSession session_id => start_session transport self session_id
  | CallPublish step_id state timestamp_ms =>
      (publish transport self step_id state timestamp_ms).1
  | CallEndSession => end_session self
  end.

Definition run_calls (self : t) (calls : list ClientCall) : t :=
  foldl run_call self calls.

End WithTransport.

(** The state the last [/signal] request for [step] carries, among the
    requests issued since the last [/reset] ([None] when there is none). *)
Definition last_signal (requests : list HttpRequest) (step : StepID.t) : option string :=
  foldl
    (λ shown request,
       match request with
       | POST_reset => None
       | POST_signal payload =>
           if String.eqb (LedPayload.step_id payload) (StepID.value step)
           then Some (LedPayload.state payload) else shown
       end)
    None requests.

(** What the client remembers of a session under way is what its log
    shows. *)
Definition log_inv (self : t) : Prop :=
  _disabled self = false → truthy_str (_session_id self) = true →
  ∀ step, last_signal (sent self) step
          = LedSignalState.value <$> (_last_states self !! step).

End LedClientCalls.

(** ** demo/replay.py: the manifest loader *)

(** A decoded JSON document, as [json.loads] returns it. An object lists
    its members in the order of the file; of a repeated key the last
    occurrence counts. *)
Inductive Json :=
  | JNull
  | JBool (b : bool)
  | JInt (z : Z)
  | JFloat (f : float)
  | JStr (s : string)
  | JList (items : list Json)
  | JObject (members : list (string * Json)).

Module ManifestLoader.
Section WithFileSystem.
(** [str.strip()], on the text the bytes of a string encode. *)
Variable strip : string → string.
(** [(manifest_path.parent / raw_file).resolve()]. *)
Variable resolve_file : string → result string.

(** [obj.get(key)]. *)
Definition dict_get (obj : list (string * Json)) (key : string) : option Json :=
  (λ found, found.2.2) <$> list_find (λ member, member.1 = key) (reverse obj).

(** The keys of an object, each once, in the order of their first
    occurrence. *)
Definition dict_keys (obj : list (string * Json)) : list string :=
  insertion_order obj.*1.

(** [for item in block]: a list yields its items, a string its characters,
    an object its keys; the other values cannot be iterated. *)
Definition iterate (block : Json) : result (list Json) :=
  match block with
  | JList items => Ok items
  | JStr s => Ok ((λ c, JStr (String c EmptyString)) <$> String.list_ascii_of_string s)
  | JObject members => Ok (JStr <$> dict_keys members)
  | JNull | JBool _ | JInt _ | JFloat _ => Raise TypeError
  end.

Definition _require_str (obj : list (string * Json)) (key : string) : result string :=
  match dict_get obj key with
  | Some (JStr value) =>
      if String.eqb (strip value) "" then Raise ManifestError else Ok value
  | _ => Raise ManifestError
  end.

(** [_require_positive_int]: a [bool] passes [isinstance(value, int)], and
    counts as 0 or 1. *)
Definition _require_positive_int (obj : list (string * Json)) (key : string)
    (allow_zero : bool) : result Z :=
  let check (value : Z) : result Z :=
    let minimum := if allow_zero then 0 else 1 in
    if value <? minimum then Raise ManifestError else Ok value in
  match dict_get obj key with
  | Some (JInt value) => check value
  | Some (JBool value) => check (Z.b2z value)
  | _ => Raise ManifestError
  end.

Definition _require_positive_float (obj : list (string * Json)) (key : string)
  : result float :=
  let check (value : float) : result float :=
    if PrimFloat.leb value 0 then Raise ManifestError else Ok value in
  match dict_get obj key with
  | Some (JFloat value) => check value
  | Some (JInt value) => value ← py_float_of_int value; check value
  | Some (JBool value) => value ← py_float_of_int (Z.b2z value); check value
  | _ => Raise ManifestError
  end.

(** [StepID(value)] and [StepOrientation(value)]: a value that names no
    member raises [ValueError]. *)
Definition step_id_of (value : string) : result StepID.t :=
  match StepID.of_value value with
  | Some step_id => Ok step_id
  | None => Raise ValueError
  end.

Definition orientation_of (value : Json) : result StepOrientation.t :=
  match value with
  | JStr value =>
      match StepOrientation.of_value value with
      | Some orientation => Ok orientation
      | None => Raise ValueError
      end
  | _ => Raise ValueError
  end.

(** The body of the loop over [annotations_block]. *)
Definition load_annotation (annotations : list StepAnnotation.t) (annotation : Json)
  : result (list StepAnnotation.t) :=
  match annotation with
  | JObject annotation =>
      raw_step_id ← _require_str annotation "step_id";
      step_id ← step_id_of raw_step_id;
      let orientation_value :=
        default (JStr (StepOrientation.value StepOrientation.NONE))
          (dict_get annotation "orientation") in
      orientation ← orientation_of orientation_value;
      start_ms ← _require_positive_int annotation "start_ms" true;
      end_ms ← _require_positive_int annotation "end_ms" false;
      if end_ms <=? start_ms then Raise ManifestError
      else Ok (annotations ++ [StepAnnotation.mk step_id orientation start_ms end_ms])
  | _ => Raise ManifestError
  end.

(** The body of the loop over [assets_block]; [assets] is the dictionary
    filled so far, in insertion order. *)
Definition load_entry (assets : list (string * DemoAsset.t)) (entry : Json)
  : result (list (string * DemoAsset.t)) :=
  match entry with
  | JObject entry =>
      asset_id ← _require_str entry "id";
      if bool_decide (asset_id ∈ assets.*1) then Raise ManifestError
      else
        raw_file ← _require_str entry "file";
        path ← resolve_file raw_file;
        fps ← _require_positive_float entry "fps";
        total_frames ← _require_positive_int entry "total_frames" false;
        roi ←
          match dict_get entry "roi" with
          | None => Ok None
          | Some (JObject roi_block) =>
              x ← _require_positive_int roi_block "x" true;
              y ← _require_positive_int roi_block "y" true;
              width ← _require_positive_int roi_block "width" false;
              height ← _require_positive_int roi_block "height" false;
              Ok (Some (ROI.mk x y width height))
          | Some _ => Raise ManifestError
          end;
        annotations_block ←
          match dict_get entry "annotations" with
          | None => Ok []
          | Some block => iterate block
          end;
        annotations ← for_each annotations_block load_annotation [];
        Ok (assets ++
              [(asset_id, DemoAsset.mk asset_id path fps total_frames annotations roi)])
  | _ => Raise ManifestError
  end.

(** [load_manifest(path)]. [contents] is what the file system holds at
    [path]: nothing, or the outcome of reading and decoding the file. *)
Definition load_manifest (contents : option (result Json)) : result DemoManifest.t :=
  match contents with
  | None => Raise ManifestError
  | Some decoded =>
      data ← decoded;
      match data with
      | JObject data =>
          match dict_get data "version" with
          | Some (JStr version) =>
              match dict_get data "assets" with
              | Some (JList assets_block) =>
                  assets ← for_each assets_block load_entry [];
                  Ok (DemoManifest.mk version assets)
              | _ => Raise ManifestError
              end
          | _ => Raise ManifestError
          end
      | _ => Raise ManifestError
      end
  end.

End WithFileSystem.

(** An asset's region of interest as the loader admits it. *)
Definition loaded_roi (roi : ROI.t) : Prop :=
  0 ≤ ROI.x roi ∧ 0 ≤ ROI.y roi ∧ 1 ≤ ROI.width roi ∧ 1 ≤ ROI.height roi.

(** What the loop over the entries keeps of the dictionary it fills. *)
Definition assets_inv (assets : list (string * DemoAsset.t)) : Prop :=
  NoDup assets.*1 ∧
  ∀ asset_id asset, (asset_id, asset) ∈ assets →
    DemoAsset.asset_id asset = asset_id ∧
    Replay.loaded_asset asset ∧
    (∀ roi, DemoAsset.roi asset = Some roi → loaded_roi roi).

End ManifestLoader.

(** ** The signal synthesizer on a stream *)

Module SynthesizerRun.
Import DemoSignalSynthesizer.

(** [generate] on the packets of a stream, one after the other: the
    synthesizer after the last packet, and the signals of each packet. *)
Fixpoint generate_all (self : t) (packets : list FramePacket.t)
  : t * list (list StepSignal.t) :=
  match packets with
  | [] => (self, [])
  | packet :: rest =>
      let '(self, signals) := generate self packet in
      let '(self, later) := generate_all self rest in
      (self, signals :: later)
  end.

(** The segment of an annotation, and the signal [generate] builds for it. *)
Definition segment_key (a : StepAnnotation.t) : SegmentKey :=
  (StepAnnotation.step_id a, StepAnnotation.start_ms a, StepAnnotation.end_ms a,
   StepAnnotation.orientation a).

Definition segment_signal (a : StepAnnotation.t) (timestamp_ms : Z) : StepSignal.t :=
  StepSignal.mk (StepAnnotation.step_id a) (StepAnnotation.orientation a) 1 true timestamp_ms
    StepSignalSource.DEMO (Some "demo_annotation").

End SynthesizerRun.

(** ** More scenarios *)

Module GateMoreScenario.
Import SessionManager.

(** A configuration whose start window holds no frame. *)
Definition zero_window : Config.t :=
  Config.mk "test-config" (ROI.mk 0 0 400 300)
    (SessionConfig.mk 0.5 0.25 0 500 2 true)
    (Config.steps (Scenario.config 300))
    (Esp8266Config.mk false None None 500 1).

Definition gate_zero : SessionManager.t :=
  SessionManager.mk zero_window (Deque.mk [] 0) false None None None 0.

(** Scenario S1 with its tail: three moving frames, then stillness until
    the timeout, then movement again. *)
Definition two_sessions : list FramePacket.t :=
  [GateScenario.moving 0; GateScenario.moving 100; GateScenario.moving 200;
   GateScenario.still 300; GateScenario.still 900;
   GateScenario.moving 1000; GateScenario.moving 1100; GateScenario.moving 1200].

End GateMoreScenario.

Module LedCallsScenario.
Import Esp8266Client LedClientCalls.

(** An endpoint that answers the first four requests and then goes away. *)
Definition flaky (before : list HttpRequest) (_ : HttpRequest) : option string :=
  if (length before <? 4)%nat then None else Some "ConnectionError: timed out".

(** A session that lights step 2, completes it, and ends. *)
Definition calls : list ClientCall :=
  [CallStartSession "session-1";
   CallPublish StepID.STEP_2 LedSignalState.CURRENT 100;
   CallPublish StepID.STEP_2 LedSignalState.CURRENT 200;
   CallPublish StepID.STEP_2 LedSignalState.COMPLETED 300;
   CallPublish StepID.STEP_3 LedSignalState.CURRENT 400].

Definition disabled_config : Esp8266Config.t :=
  Esp8266Config.mk false (Some "http://esp8266.local") None 500 1.

End LedCallsScenario.

Module InterpreterMoreScenario.
Import Scenario.

(** Two confident signals in one frame: the more confident one names the
    active step. *)
Definition two_signals : list StepSignal.t :=
  [signal StepID.STEP_2 600;
   StepSignal.mk StepID.STEP_4 StepOrientation.NONE 0.9375 true 600 StepSignalSource.MODEL None;
   StepSignal.mk StepID.STEP_5 StepOrientation.NONE 0.96875 false 600 StepSignalSource.MODEL None].

End InterpreterMoreScenario.

(** The manifest file of [ReplayScenario], decoded. *)
Module ManifestScenario.

Definition document : Json :=
  JObject
    [("version", JStr "0.1.0");
     ("assets",
      JList
        [JObject
           [("id", JStr "sample"); ("file", JStr "sample.npz"); ("fps", JFloat 25);
            ("total_frames", JInt 5);
            ("roi", JObject [("x", JInt 10); ("y", JInt 5); ("width", JInt 80);
                             ("height", JInt 90)]);
            ("annotations",
             JList
               [JObject
                  [("step_id", JStr "STEP_2"); ("orientation", JStr "NONE");
                   ("start_ms", JInt 0); ("end_ms", JInt 3000)]])];
         JObject
           [("id", JStr "high-speed"); ("file", JStr "high-speed.npz");
            ("fps", JInt 4000); ("total_frames", JInt 3)]])].

(** The strings of [document] carry no blank at either end. *)
Definition strip (s : string) : string := s.

Definition resolve_file (raw_file : string) : result string := Ok ("/demos/" +:+ raw_file).

End ManifestScenario.

(** The detectors on a replay frame of [DemoScenario.two_sided]. *)
Module DetectorScenario.

Definition runner : Detectors.DetectorRunner :=
  Scenario.unwrap (Detectors.build_default_runner (Scenario.config 3000)) [].

(** Frame 3, stamped 120: inside the first annotation of step 3. *)
Definition hinted_packet : FramePacket.t :=
  Replay.replay_packet (Scenario.config 3000) DemoScenario.two_sided (ROI.mk 0 0 400 300) 40 3.

Definition hinted_signal : StepSignal.t :=
  StepSignal.mk StepID.STEP_3 StepOrientation.RIGHT_OVER_LEFT 1 true 120
    StepSignalSource.MODEL None.

End DetectorScenario.

(** The application of scenario S5, before and after its run. *)
Module DemoMoreScenario.
Import DemoScenario.

(** What [unwrap] falls back on; [__init__] raises nothing here. *)
Definition blank_app : DemoApp.t :=
  DemoApp.mk (Scenario.config 3000) "s5" true manifest GateScenario.gate0
    (InterpreterStateMachine.__init__ (Scenario.config 3000) None) []
    DemoSignalSynthesizer.__init__.

Definition s5_app : DemoApp.t :=
  Scenario.unwrap (DemoApp.__init__ (Scenario.config 3000) manifest "s5" true) blank_app.

Definition s5_run : DemoApp.t * Z :=
  Scenario.unwrap (DemoApp.run GateScenario.uuid4 reachable_endpoint no_model id s5_app)
    (blank_app, -1).

End DemoMoreScenario.

(** ** The parts of a [DemoApp] that a run leaves alone *)

Module DemoAppState.

(** What [DemoApp.__init__] sets and no method reassigns. *)
Definition settings (self : DemoApp.t)
  : Config.t * string * bool * DemoManifest.t * Detectors.DetectorRunner :=
  (DemoApp._config self, DemoApp.asset self, DemoApp.verify self, DemoApp._manifest self,
   DemoApp._detector_runner self).

End DemoAppState.

(** * Part II: theorems *)

(** ** The interpreter state machine *)

Module InterpreterFacts.
Import InterpreterStateMachine InterpreterRun InterpreterState.
Section WithLed.
Context {L : Type} `{LedPublisher L}.
Implicit Types (self s : InterpreterStateMachine.t L).

Lemma core_inv s s' :
  core s' = core s →
  _step_thresholds s' = _step_thresholds s ∧ _step_order s' = _step_order s ∧
  _session_id s' = _session_id s ∧ _step_statuses s' = _step_statuses s ∧
  _last_confident_ts s' = _last_confident_ts s ∧
  _uncertainty_events s' = _uncertainty_events s.
Proof. unfold core. intros [= -> -> -> -> -> ->]. done. Qed.

Ltac core_tac :=
  repeat (simpl; match goal with
  | |- context [match ?x with _ => _ end] => destruct x eqn:?
  end); try reflexivity.

Lemma _emit_event_core s et ts st state d : core (_emit_event s et ts st state d) = core s.
Proof. unfold _emit_event. core_tac. Qed.

Lemma _send_led_signal_core s k st ts force :
  core (_send_led_signal s k st ts force) = core s.
Proof. unfold _send_led_signal. core_tac. Qed.

Lemma _sync_led_active_core s p c ts : core (_sync_led_active s p c ts) = core s.
Proof.
  unfold _sync_led_active.
  destruct (_led_client s); [|done].
  set (s1 := match p with Some _ => _ | None => _ end).
  assert (Hs1 : core s1 = core s).
  { subst s1. destruct p; [|done]. destruct (_ !! _); [|done].
    case_bool_decide; [|done]. apply _send_led_signal_core. }
  destruct c; [|done].
  apply core_inv in Hs1 as Hs1'. destruct Hs1' as (_ & _ & _ & -> & _).
  destruct (_ !! _); [|done].
  by rewrite _send_led_signal_core.
Qed.

Lemma _emit_active_step_core s ts p : core (_emit_active_step s ts p) = core s.
Proof.
  unfold _emit_active_step. case_match; [done|].
  by rewrite _sync_led_active_core, _emit_event_core.
Qed.

Lemma _set_active_step_core s k ts : core (_set_active_step s k ts) = core s.
Proof.
  unfold _set_active_step. case_bool_decide; [done|].
  by rewrite _emit_active_step_core.
Qed.

Lemma _publish_status_core s st ts force th :
  _step_thresholds s !! StepStatus.step_id st = Some th →
  ∃ s', _publish_status s st ts force = Ok s' ∧ core s' = core s.
Proof.
  intros Hth. unfold _publish_status.
  destruct (negb (truthy_str (_session_id s))); [by eexists|].
  destruct (negb force && _); [by eexists|].
  unfold dict_item. cbn [_step_thresholds set_last_published]. rewrite Hth.
  cbn [mbind result_bind].
  case_bool_decide; eexists; (split; [reflexivity|]).
  - by rewrite _send_led_signal_core, _emit_event_core.
  - by rewrite _emit_event_core.
Qed.

Lemma record_uncertainty_spec s reason ts details :
  let s' := record_uncertainty s reason ts details in
  _step_thresholds s' = _step_thresholds s ∧ _step_order s' = _step_order s ∧
  _session_id s' = _session_id s ∧ _step_statuses s' = _step_statuses s ∧
  _last_confident_ts s' = _last_confident_ts s ∧
  _uncertainty_events s' =
    _uncertainty_events s ++
    (if truthy_str (_session_id s) then [UncertaintyEvent.mk ts reason details] else []).
Proof.
  unfold record_uncertainty. destruct (truthy_str (_session_id s)); simpl.
  - pose proof (_emit_event_core
      (set_uncertainty_events (_uncertainty_events s ++ [UncertaintyEvent.mk ts reason details]) s)
      InterpreterEventType.UNCERTAINTY ts None None
      (UncertaintyDetails (UncertaintyReason.value reason)
         (if truthy_str details then details else None))) as Hc.
    apply core_inv in Hc. simpl in Hc. naive_solver.
  - by rewrite app_nil_r.
Qed.

Ltac Z_tests :=
  repeat match goal with
  | H : (_ <? _) = true |- _ => apply Z.ltb_lt in H
  | H : (_ <? _) = false |- _ => apply Z.ltb_ge in H
  | H : (_ <=? _) = true |- _ => apply Z.leb_le in H
  | H : (_ <=? _) = false |- _ => apply Z.leb_gt in H
  end.

Ltac finish_update :=
  Z_tests; rewrite ?app_nil_r;
  repeat match goal with |- _ ∧ _ => split end;
  first
    [ done
    | by intros; rewrite ?lookup_insert_ne by done
    | by rewrite lookup_insert_eq
    | cbv [StepStatus.set_orientation StepStatus.set_state StepStatus.set_accumulated_ms
           StepStatus.set_completed_ts StepStatus.set_uncertainty_count];
      simpl; f_equal; lia ].

Lemma spec_update_step_step_id d sig ts st last :
  StepStatus.step_id (spec_update_step d sig ts st last).1.1 = StepStatus.step_id st.
Proof.
  unfold spec_update_step. case_bool_decide; [done|].
  destruct sig as [[? ? ? [] ? ? ?]|]; simpl; repeat case_match; done.
Qed.

(** [_update_step] carries out the specification's rule on the step it is
    given and leaves every other step alone. *)
Lemma _update_step_spec s k st th sig ts :
  truthy_str (_session_id s) = true →
  StepStatus.step_id st = k →
  _step_thresholds s !! k = Some th →
  _step_statuses s !! k = Some st →
  let r := spec_update_step (StepThreshold.duration_ms th) sig ts st
             (mjoin (_last_confident_ts s !! k)) in
  ∃ s', _update_step s k st th sig ts = Ok s' ∧
    _step_thresholds s' = _step_thresholds s ∧ _step_order s' = _step_order s ∧
    _session_id s' = _session_id s ∧
    _step_statuses s' = <[k := r.1.1]> (_step_statuses s) ∧
    (∀ k', k' ≠ k → _last_confident_ts s' !! k' = _last_confident_ts s !! k') ∧
    mjoin (_last_confident_ts s' !! k) = r.1.2 ∧
    _uncertainty_events s' = _uncertainty_events s ++ r.2.
Proof.
  intros Hsess Hk Hth Hst r. subst r. unfold _update_step, spec_update_step.
  case_bool_decide as Hc.
  { eexists; split; [done|]. simpl. rewrite insert_id by done.
    rewrite app_nil_r. done. }
  rewrite Hk.
  destruct (match confident_signal sig with Some _ => _ | None => _ end)
    as [s1 st1] eqn:Hmid.
  set (r := match sig with Some _ => _ | None => _ end).
  assert (Hmid' :
    _step_thresholds s1 = _step_thresholds s ∧ _step_order s1 = _step_order s ∧
    _session_id s1 = _session_id s ∧ _step_statuses s1 = _step_statuses s ∧
    (∀ k', k' ≠ k → _last_confident_ts s1 !! k' = _last_confident_ts s !! k') ∧
    mjoin (_last_confident_ts s1 !! k) = r.1.2 ∧
    _uncertainty_events s1 = _uncertainty_events s ++ r.2 ∧
    st1 = r.1.1).
  { subst r. clear Hst.
    pose proof (record_uncertainty_spec
      (set_last_confident_ts (<[k:=None]> (_last_confident_ts s)) s)
      UncertaintyReason.LOW_CONFIDENCE ts (Some ("step=" +:+ StepID.value k))) as Hru.
    cbn [set_last_confident_ts _session_id _step_thresholds _step_order _step_statuses
         _last_confident_ts _uncertainty_events] in Hru.
    rewrite Hsess in Hru. destruct Hru as (Hr1 & Hr2 & Hr3 & Hr4 & Hr5 & Hr6).
    destruct st as [sid o state acc cts uc]. simpl in Hk, Hc. subst sid.
    destruct sig as [[sk so sc [] st' ss sn]|];
      cbn [confident_signal StepSignal.is_confident] in Hmid.
    - (* a confident signal *)
      cbn [StepSignal.orientation StepSignal.timestamp_ms] in Hmid.
      destruct (mjoin (_last_confident_ts s !! k)) as [last|] eqn:Hlast.
      + destruct state; try done; cbn in Hmid |- *;
        repeat (case_bool_decide; simplify_eq/=; try done);
        repeat (case_match; simplify_eq/=; try lia); finish_update.
      + destruct state; try done; cbn in Hmid |- *;
        repeat (case_bool_decide; simplify_eq/=; try done);
        repeat (case_match; simplify_eq/=; try lia); finish_update.
    - (* a signal that is not confident *)
      destruct state; try done; cbn in Hmid |- *; simplify_eq/=;
        rewrite ?Hr1, ?Hr2, ?Hr3, ?Hr4, ?Hr5, ?Hr6; finish_update.
    - (* no signal *)
      destruct state; try done; cbn in Hmid |- *; simplify_eq/=;
        rewrite ?Hr1, ?Hr2, ?Hr3, ?Hr4, ?Hr5, ?Hr6; finish_update. }
  assert (Hsid : StepStatus.step_id r.1.1 = k).
  { subst r. destruct sig as [[? ? ? [] ? ? ?]|]; simpl; repeat case_match; done. }
  clearbody r. clear Hmid.
  destruct Hmid' as (H1 & H2 & H3 & H4 & H5 & H6 & H7 & ->).
  set (s2 := set_step_statuses _ s1).
  destruct (_publish_status_core s2 (r.1.1) ts false th) as (s3 & Hs3 & Hcore).
  { subst s2. cbn [set_step_statuses _step_thresholds]. by rewrite H1, Hsid. }
  apply core_inv in Hcore. subst s2. simpl in Hcore.
  destruct Hcore as (Hc1 & Hc2 & Hc3 & Hc4 & Hc5 & Hc6).
  destruct (_ || _).
  - exists s3. split; [done|]. rewrite Hc1, Hc2, Hc3, Hc4, Hc5, Hc6, H4.
    done.
  - eexists. split; [done|]. simpl. rewrite H4. done.
Qed.

End WithLed.
End InterpreterFacts.

Module InterpreterLoop.
Import InterpreterStateMachine InterpreterRun InterpreterState InterpreterFacts.
Section WithLed.
Context {L : Type} `{LedPublisher L}.
Implicit Types (self s : InterpreterStateMachine.t L).

Lemma dict_item_Some {K V} `{Countable K} (d : gmap K V) k v :
  d !! k = Some v → dict_item d k = Ok v.
Proof. unfold dict_item. by intros ->. Qed.

Lemma process_signals_loop signals ts l : ∀ s,
  wf s → truthy_str (_session_id s) = true → NoDup l →
  (∀ k, k ∈ l → k ∈ _step_order s) →
  ∃ s',
    for_each l
      (λ self step_id,
         status ← dict_item (_step_statuses self) step_id;
         threshold ← dict_item (_step_thresholds self) step_id;
         let signal := signal_map signals !! step_id in
         _update_step self step_id status threshold signal ts) s = Ok s' ∧
    _step_thresholds s' = _step_thresholds s ∧ _step_order s' = _step_order s ∧
    _session_id s' = _session_id s ∧
    (∀ k, k ∉ l → _step_statuses s' !! k = _step_statuses s !! k ∧
                  _last_confident_ts s' !! k = _last_confident_ts s !! k) ∧
    (∀ k st th, k ∈ l → _step_statuses s !! k = Some st → _step_thresholds s !! k = Some th →
       let r := spec_update_step (StepThreshold.duration_ms th) (signal_map signals !! k) ts st
                  (mjoin (_last_confident_ts s !! k)) in
       _step_statuses s' !! k = Some r.1.1 ∧ mjoin (_last_confident_ts s' !! k) = r.1.2) ∧
    _uncertainty_events s' = _uncertainty_events s ++ (l ≫= step_events s signals ts) ∧
    wf s'.
Proof.
  induction l as [|k l IH]; intros s Hwf Hsess Hnd Hin.
  { exists s. simpl. rewrite app_nil_r. split_and!; try done.
    intros k st th Hk. by apply elem_of_nil in Hk. }
  apply NoDup_cons in Hnd as [Hk Hnd].
  assert (Hko : k ∈ _step_order s) by (apply Hin; left).
  destruct (wf_present s Hwf Hsess k Hko) as [st Hst].
  destruct (wf_thresholds s Hwf k Hko) as [th Hth].
  destruct (wf_keys s Hwf k st Hst) as [Hsid _].
  destruct (_update_step_spec s k st th (signal_map signals !! k) ts Hsess Hsid Hth Hst)
    as (s1 & Hup & E1 & E2 & E3 & E4 & E5 & E6 & E7).
  assert (Hwf1 : wf s1).
  { split.
    - rewrite E2. apply Hwf.
    - rewrite E1, E2. apply Hwf.
    - rewrite E4, E2. intros k' st' Hl.
      destruct (decide (k' = k)) as [->|Hne].
      + rewrite lookup_insert_eq in Hl. injection Hl as <-.
        by rewrite spec_update_step_step_id.
      + rewrite lookup_insert_ne in Hl by done. by apply Hwf.
    - rewrite E3, E2, E4. intros Hs k' Hk'.
      destruct (decide (k' = k)) as [->|Hne].
      + rewrite lookup_insert_eq. by eexists.
      + rewrite lookup_insert_ne by done. by apply Hwf. }
  destruct (IH s1 Hwf1) as (s' & Hloop & F1 & F2 & F3 & F4 & F5 & F6 & F7).
  { by rewrite E3. } { done. } { intros k' Hk'. rewrite E2. apply Hin. by right. }
  exists s'. split.
  { cbn [for_each]. rewrite (dict_item_Some _ _ _ Hst). cbn [mbind result_bind].
    rewrite (dict_item_Some _ _ _ Hth). cbn [mbind result_bind].
    rewrite Hup. exact Hloop. }
  split; [congruence|]. split; [congruence|]. split; [congruence|].
  split.
  { intros k' Hk'. apply not_elem_of_cons in Hk' as [Hne Hk'].
    destruct (F4 k' Hk') as [-> ->]. rewrite E4, lookup_insert_ne by done.
    by rewrite E5. }
  split.
  { intros k' st' th' Hk' Hst' Hth'. apply elem_of_cons in Hk' as [->|Hk'].
    - destruct (F4 k Hk) as [-> ->]. rewrite E4, lookup_insert_eq, E6.
      by simplify_eq.
    - assert (k' ≠ k) by (intros ->; done).
      specialize (F5 k' st' th' Hk').
      rewrite E4, lookup_insert_ne, E1, E5 in F5 by done. by apply F5. }
  split; [|done].
  rewrite F6, E7. cbn [mbind list_bind]. rewrite <- app_assoc. f_equal.
  unfold step_events at 2. rewrite Hst, Hth. f_equal.
  clear -Hk E1 E4 E5. induction l as [|k' l IHl]; [done|].
  apply not_elem_of_cons in Hk as [Hne Hk]. cbn [mbind list_bind].
  rewrite IHl by done. f_equal.
  unfold step_events. by rewrite E1, E4, lookup_insert_ne, E5.
Qed.

End WithLed.
End InterpreterLoop.

Module InterpreterInv.
Import InterpreterStateMachine InterpreterRun InterpreterState InterpreterFacts InterpreterLoop.
Section WithLed.
Context {L : Type} `{LedPublisher L}.
Implicit Types (self s : InterpreterStateMachine.t L).

Lemma wf_core s s' : core s' = core s → wf s → wf s'.
Proof.
  intros Hc [W1 W2 W3 W4]. apply core_inv in Hc as (E1 & E2 & E3 & E4 & E5 & E6).
  split; rewrite ?E1, ?E2, ?E3, ?E4; done.
Qed.

Lemma process_signals_idle s signals ts :
  truthy_str (_session_id s) = false → process_signals s signals ts = Ok s.
Proof. intros Hs. unfold process_signals. by rewrite Hs. Qed.

Lemma process_signals_spec s signals ts :
  wf s → truthy_str (_session_id s) = true →
  ∃ s', process_signals s signals ts = Ok s' ∧
    _step_thresholds s' = _step_thresholds s ∧ _step_order s' = _step_order s ∧
    _session_id s' = _session_id s ∧
    (∀ k, _step_statuses s !! k = None → _step_statuses s' !! k = None) ∧
    (∀ k st th, _step_statuses s !! k = Some st → _step_thresholds s !! k = Some th →
       let r := spec_update_step (StepThreshold.duration_ms th) (signal_map signals !! k) ts st
                  (mjoin (_last_confident_ts s !! k)) in
       _step_statuses s' !! k = Some r.1.1 ∧ mjoin (_last_confident_ts s' !! k) = r.1.2) ∧
    _uncertainty_events s' =
      _uncertainty_events s ++ (_step_order s ≫= step_events s signals ts) ∧
    wf s'.
Proof.
  intros Hwf Hsess. unfold process_signals. rewrite Hsess. cbn [negb].
  set (s0 := _set_active_step s _ ts).
  assert (Hc : core s0 = core s) by apply _set_active_step_core.
  pose proof (wf_core _ _ Hc Hwf) as Hwf0.
  apply core_inv in Hc as (E1 & E2 & E3 & E4 & E5 & E6).
  destruct (process_signals_loop signals ts (_step_order s0) s0 Hwf0)
    as (s' & Hloop & F1 & F2 & F3 & F4 & F5 & F6 & F7).
  { by rewrite E3. } { apply Hwf0. } { done. }
  exists s'. split; [exact Hloop|].
  split; [congruence|]. split; [congruence|]. split; [congruence|].
  split.
  { intros k Hk. destruct (F4 k) as [-> _]; [|by rewrite E4].
    intros Hin. rewrite E2 in Hin.
    destruct (wf_present s Hwf Hsess k Hin) as [? ?]. congruence. }
  split.
  { intros k st th Hst Hth.
    destruct (wf_keys s Hwf k st Hst) as [_ Hin].
    specialize (F5 k st th). rewrite E2, E4, E1, E5 in F5. by apply F5. }
  split; [|done].
  rewrite F6, E6, E2. f_equal. apply list_bind_ext; [|done].
  intros k. unfold step_events. by rewrite E1, E4, E5.
Qed.

(** *** Well-formedness of every reachable state *)

Lemma _build_thresholds_order config :
  NoDup (_build_thresholds config).*1 ∧
  ∀ k, k ∈ (_build_thresholds config).*1 →
       is_Some ((list_to_map (_build_thresholds config) : gmap _ _) !! k).
Proof.
  unfold _build_thresholds.
  assert (Hnd : NoDup StepID.all) by (unfold StepID.all; repeat constructor; set_solver).
  revert Hnd. generalize StepID.all as l.
  intros l Hnd.
  assert (Hsub : ∀ k, k ∈ (omap (λ step, pair step <$> Config.steps config !! StepID.value step) l).*1
                      → k ∈ l).
  { intros k. rewrite list_elem_of_fmap. intros ([k' th] & -> & Hin).
    apply list_elem_of_omap in Hin as (k'' & Hin & Heq).
    destruct (Config.steps config !! _); simplify_eq/=. done. }
  assert (Hnd' : NoDup (omap (λ step, pair step <$> Config.steps config !! StepID.value step) l).*1).
  { clear Hsub. induction Hnd as [|k l Hk Hnd IH]; [constructor|].
    cbn [omap list_omap]. destruct (Config.steps config !! _) eqn:E; simpl; [|done].
    constructor; [|done]. rewrite list_elem_of_fmap. intros ([k' th] & ? & Hin); simplify_eq/=.
    apply list_elem_of_omap in Hin as (k'' & Hin & Heq).
    destruct (Config.steps config !! StepID.value k''); simplify_eq/=. done. }
  split; [done|]. intros k Hk.
  apply list_elem_of_fmap in Hk as ([k' th] & -> & Hin).
  exists th. by apply elem_of_list_to_map.
Qed.

Lemma wf_init config (led : option L) : wf (__init__ config led).
Proof.
  destruct (_build_thresholds_order config) as [Hnd Hth].
  split; simpl; try done.
Qed.

Lemma _publish_all_core ts force : ∀ (sts : list StepStatus.t) s,
  (∀ st, st ∈ sts → is_Some (_step_thresholds s !! StepStatus.step_id st)) →
  ∃ s', for_each sts (λ self status, _publish_status self status ts force) s = Ok s' ∧
        core s' = core s.
Proof.
  induction sts as [|st sts IH]; intros s Hth; [by exists s|].
  destruct (Hth st) as [th Hst]; [by left|].
  destruct (_publish_status_core s st ts force th Hst) as (s1 & Hp & Hc).
  destruct (IH s1) as (s' & Hloop & Hc').
  { intros st' Hin. apply core_inv in Hc as (-> & _). apply Hth. by right. }
  exists s'. cbn [for_each]. rewrite Hp. split; [exact Hloop|]. congruence.
Qed.

Lemma _begin_led_session_core s ts : core (_begin_led_session s ts) = core s.
Proof. unfold _begin_led_session. repeat case_match; done. Qed.

Lemma lookup_list_to_map_fmap {V} (f : StepID.t → V) (l : list StepID.t) k :
  (list_to_map ((λ step, (step, f step)) <$> l) : gmap StepID.t V) !! k =
  if decide (k ∈ l) then Some (f k) else None.
Proof.
  induction l as [|k' l IH]; [done|]. cbn [fmap list_fmap list_to_map foldr].
  destruct (decide (k = k')) as [->|Hne].
  - rewrite lookup_insert_eq. rewrite decide_True by left. done.
  - rewrite lookup_insert_ne by done. rewrite IH.
    destruct (decide (k ∈ l)).
    + rewrite decide_True by (by right). done.
    + rewrite decide_False; [done|]. by intros [?|?]%elem_of_cons.
Qed.

Lemma start_session_spec s session_id ts :
  wf s →
  ∃ s', start_session s session_id ts = Ok s' ∧
    _step_thresholds s' = _step_thresholds s ∧ _step_order s' = _step_order s ∧
    _session_id s' = Some session_id ∧
    (∀ k, _step_statuses s' !! k =
          if decide (k ∈ _step_order s) then Some (StepStatus.new k) else None) ∧
    (∀ k, mjoin (_last_confident_ts s' !! k) = None) ∧
    _uncertainty_events s' = [] ∧
    wf s'.
Proof.
  intros Hwf. unfold start_session.
  set (s1 := _begin_led_session _ ts).
  assert (Hc1 : core s1 = core (set_led_states ∅ (set_active_step_id None
     (set_last_published (list_to_map ((λ step, (step, (StepState.NOT_STARTED, 0, StepOrientation.NONE))) <$> _step_order s))
     (set_last_confident_ts (list_to_map ((λ step, (step, None)) <$> _step_order s))
     (set_step_statuses (list_to_map ((λ step, (step, StepStatus.new step)) <$> _step_order s))
     (set_uncertainty_events [] (set_session_id (Some session_id) s)))))))).
  { apply _begin_led_session_core. }
  apply core_inv in Hc1 as (E1 & E2 & E3 & E4 & E5 & E6). simpl in *.
  destruct (_publish_all_core ts true (dict_values (_step_order s1) (_step_statuses s1)) s1)
    as (s2 & Hp & Hc2).
  { intros st Hin. unfold dict_values in Hin.
    apply list_elem_of_omap in Hin as (k & Hk & Hst).
    rewrite E4, lookup_list_to_map_fmap in Hst. case_decide; simplify_eq/=.
    rewrite E1. by apply Hwf. }
  unfold _publish_all. rewrite Hp. cbn [mbind result_bind].
  eexists. split; [reflexivity|].
  pose proof (_emit_active_step_core s2 ts None) as Hc3.
  rewrite Hc2 in Hc3. apply core_inv in Hc3 as (G1 & G2 & G3 & G4 & G5 & G6).
  rewrite G1, G2, G3, G4, G5, G6, E1, E2, E3, E4, E5, E6.
  split_and!; try done.
  - intros k. apply lookup_list_to_map_fmap.
  - intros k. rewrite lookup_list_to_map_fmap. by case_decide.
  - split; rewrite ?G1, ?G2, ?G3, ?G4, ?E1, ?E2, ?E3, ?E4; try apply Hwf.
    + intros k st. rewrite lookup_list_to_map_fmap. case_decide; [|done].
      by intros [= <-].
    + intros _ k Hk. rewrite lookup_list_to_map_fmap, decide_True by done. by eexists.
Qed.

End WithLed.
End InterpreterInv.

Module InterpreterReach.
Import InterpreterStateMachine InterpreterRun InterpreterState InterpreterFacts InterpreterLoop InterpreterInv.
Section WithLed.
Context {L : Type} `{LedPublisher L}.
Implicit Types (self s : InterpreterStateMachine.t L).

Lemma _end_led_session_core s ts : core (_end_led_session s ts) = core s.
Proof.
  unfold _end_led_session. destruct (_led_client s); [|done].
  generalize (_step_order s) as ks. intros ks.
  assert (Hl : ∀ s0, core (foldl (λ self step,
             _send_led_signal self step LedSignalState.IDLE ts true) s0 ks) = core s0).
  { induction ks as [|k ks IH]; intros s0; [done|]. simpl.
    by rewrite IH, _send_led_signal_core. }
  specialize (Hl s). apply core_inv in Hl as (E1 & E2 & E3 & E4 & E5 & E6).
  unfold core. simpl. by rewrite E1, E2, E3, E4, E5, E6.
Qed.

Lemma end_session_spec s ts :
  let s' := end_session s ts in
  _step_thresholds s' = _step_thresholds s ∧ _step_order s' = _step_order s ∧
  truthy_str (_session_id s') = false ∧ _step_statuses s' = _step_statuses s ∧
  _last_confident_ts s' = _last_confident_ts s ∧
  _uncertainty_events s' = _uncertainty_events s.
Proof.
  unfold end_session. destruct (truthy_str (_session_id s)) eqn:Hs; simpl; [|done].
  set (s1 := _end_led_session _ ts).
  assert (Hc : core s1 = core s).
  { subst s1. by rewrite _end_led_session_core, _set_active_step_core. }
  apply core_inv in Hc as (E1 & E2 & E3 & E4 & E5 & E6).
  destruct (_led_client s1); simpl; by rewrite E1, E2, E4, E5, E6.
Qed.

Lemma wf_end_session s ts : wf s → wf (end_session s ts).
Proof.
  intros [W1 W2 W3 W4].
  destruct (end_session_spec s ts) as (E1 & E2 & E3 & E4 & E5 & E6).
  split; rewrite ?E1, ?E2, ?E4; try done. by rewrite E3.
Qed.

Lemma wf_record_uncertainty s reason ts details :
  wf s → wf (record_uncertainty s reason ts details).
Proof.
  intros [W1 W2 W3 W4].
  destruct (record_uncertainty_spec s reason ts details) as (E1 & E2 & E3 & E4 & E5 & E6).
  split; rewrite ?E1, ?E2, ?E3, ?E4; done.
Qed.

Lemma run_op_wf s op : wf s → ∃ s', run_op s op = Ok s' ∧ wf s'.
Proof.
  intros Hwf. destruct op as [signals ts|reason ts details|ts]; simpl.
  - destruct (truthy_str (_session_id s)) eqn:Hs.
    + destruct (process_signals_spec s signals ts Hwf Hs)
        as (s' & -> & _ & _ & _ & _ & _ & _ & Hwf').
      by exists s'.
    + rewrite process_signals_idle by done. by exists s.
  - eexists; split; [done|]. by apply wf_record_uncertainty.
  - eexists; split; [done|]. by apply wf_end_session.
Qed.

Lemma reachable_wf s : reachable s → wf s.
Proof.
  induction 1 as [config led|s sid ts s' _ IH Hstart|s op s' _ IH Hop].
  - apply wf_init.
  - destruct (start_session_spec s sid ts IH) as (s'' & Hs & _ & _ & _ & _ & _ & _ & Hwf).
    rewrite Hs in Hstart. by injection Hstart as <-.
  - destruct (run_op_wf s op IH) as (s'' & Hs & Hwf).
    rewrite Hs in Hop. by injection Hop as <-.
Qed.

Lemma spec_update_step_inv th sig ts st last :
  status_inv th st →
  status_inv th (spec_update_step (StepThreshold.duration_ms th) sig ts st last).1.1.
Proof.
  intros (Hacc & Hdone & Hnot). unfold spec_update_step.
  case_bool_decide as Hc; [done|]. specialize (Hnot Hc).
  assert (Hdelta : ∀ t, 0 ≤ match last with Some l => 0 `max` (t - l) | None => 0 end).
  { intros t. destruct last; lia. }
  destruct sig as [[? so ? [] t ? ?]|]; simpl.
  - specialize (Hdelta t).
    destruct (Z.leb_spec (StepThreshold.duration_ms th)
      (StepStatus.accumulated_ms st +
       match last with Some l => 0 `max` (t - l) | None => 0 end)) as [Hle|Hlt];
      unfold status_inv; simpl.
    + split; [lia|]. split; [|done]. intros _. split; [lia|by eexists].
    + split; [lia|]. split; [done|]. done.
  - case_bool_decide; unfold status_inv; simpl; [|done].
    split; [done|]. split; done.
  - case_bool_decide; unfold status_inv; simpl; [|done].
    split; [done|]. split; done.
Qed.

Lemma spec_update_step_completed d sig ts st last :
  StepStatus.state st = StepState.COMPLETED →
  spec_update_step d sig ts st last = (st, last, []).
Proof. intros Hc. unfold spec_update_step. by rewrite bool_decide_eq_true_2. Qed.

Lemma run_op_statuses_inv s op s' :
  wf s → statuses_inv s → run_op s op = Ok s' → statuses_inv s'.
Proof.
  intros Hwf Hinv Hop. destruct op as [signals ts|reason ts details|ts]; simpl in Hop.
  - destruct (truthy_str (_session_id s)) eqn:Hs.
    + destruct (process_signals_spec s signals ts Hwf Hs)
        as (s'' & Hp & E1 & E2 & E3 & Hnone & Hsome & _).
      rewrite Hp in Hop. injection Hop as ->.
      intros k st' Hst'. rewrite E1.
      destruct (_step_statuses s !! k) as [st|] eqn:Hst.
      * destruct (Hinv k st Hst) as (th & Hth & Hi). exists th. split; [done|].
        destruct (Hsome k st th Hst Hth) as [Hnew _].
        rewrite Hnew in Hst'. injection Hst' as <-. by apply spec_update_step_inv.
      * rewrite (Hnone k Hst) in Hst'. done.
    + rewrite process_signals_idle in Hop by done. by injection Hop as <-.
  - injection Hop as <-.
    destruct (record_uncertainty_spec s reason ts details) as (E1 & E2 & E3 & E4 & E5 & E6).
    intros k st. rewrite E1, E4. apply Hinv.
  - injection Hop as <-.
    destruct (end_session_spec s ts) as (E1 & E2 & E3 & E4 & E5 & E6).
    intros k st. rewrite E1, E4. apply Hinv.
Qed.

Lemma reachable_statuses_inv s : reachable s → statuses_inv s.
Proof.
  induction 1 as [config led|s sid ts s' Hr IH Hstart|s op s' Hr IH Hop].
  - intros k st. simpl. by rewrite lookup_empty.
  - pose proof (reachable_wf s Hr) as Hwf.
    destruct (start_session_spec s sid ts Hwf) as (s'' & Hs & E1 & E2 & E3 & E4 & _).
    rewrite Hs in Hstart. injection Hstart as <-.
    intros k st. rewrite E4, E1. case_decide as Hk; [|done]. intros [= <-].
    destruct (wf_thresholds s Hwf k Hk) as [th Hth]. exists th. split; [done|].
    unfold status_inv. simpl. repeat split; done.
  - apply (run_op_statuses_inv s op s'); [by apply reachable_wf|done|done].
Qed.

(** A completed status is out of reach of every later call of the session. *)
Lemma run_op_completed s op k st :
  wf s → _step_statuses s !! k = Some st →
  StepStatus.state st = StepState.COMPLETED →
  ∃ s', run_op s op = Ok s' ∧ wf s' ∧ _step_statuses s' !! k = Some st.
Proof.
  intros Hwf Hst Hc. destruct (run_op_wf s op Hwf) as (s' & Hop & Hwf').
  exists s'. split; [done|]. split; [done|].
  destruct op as [signals ts|reason ts details|ts]; simpl in Hop.
  - destruct (truthy_str (_session_id s)) eqn:Hs.
    + destruct (process_signals_spec s signals ts Hwf Hs)
        as (s'' & Hp & E1 & E2 & E3 & Hnone & Hsome & _).
      rewrite Hp in Hop. injection Hop as ->.
      destruct (wf_keys s Hwf k st Hst) as [_ Hk].
      destruct (wf_thresholds s Hwf k Hk) as [th Hth].
      destruct (Hsome k st th Hst Hth) as [Hnew _].
      by rewrite spec_update_step_completed in Hnew.
    + rewrite process_signals_idle in Hop by done. by injection Hop as <-.
  - injection Hop as <-.
    destruct (record_uncertainty_spec s reason ts details) as (E1 & E2 & E3 & E4 & E5 & E6).
    by rewrite E4.
  - injection Hop as <-.
    destruct (end_session_spec s ts) as (E1 & E2 & E3 & E4 & E5 & E6).
    by rewrite E4.
Qed.

Lemma run_ops_completed ops : ∀ s k st,
  wf s → _step_statuses s !! k = Some st →
  StepStatus.state st = StepState.COMPLETED →
  ∃ s', run_ops s ops = Ok s' ∧ _step_statuses s' !! k = Some st.
Proof.
  induction ops as [|op ops IH]; intros s k st Hwf Hst Hc; [by exists s|].
  destruct (run_op_completed s op k st Hwf Hst Hc) as (s1 & Hop & Hwf1 & Hst1).
  destruct (IH s1 k st Hwf1 Hst1 Hc) as (s' & Hops & Hst').
  exists s'. split; [|done]. unfold run_ops. cbn [for_each]. rewrite Hop. exact Hops.
Qed.

End WithLed.
End InterpreterReach.

Module InterpreterClaims.
Import InterpreterStateMachine InterpreterRun InterpreterState InterpreterFacts
  InterpreterLoop InterpreterInv InterpreterReach.
Section WithLed.
Context {L : Type} `{LedPublisher L}.
Implicit Types (self s : InterpreterStateMachine.t L).

Lemma signal_map_lookup signals k sig :
  signal_map signals !! k = Some sig → sig ∈ signals ∧ StepSignal.step_id sig = k.
Proof.
  unfold signal_map.
  assert (Hgen : ∀ m : gmap StepID.t StepSignal.t,
    foldl (λ m sig, <[StepSignal.step_id sig := sig]> m) m signals !! k = Some sig →
    (sig ∈ signals ∧ StepSignal.step_id sig = k) ∨ m !! k = Some sig).
  { induction signals as [|x xs IH]; intros m Hm; [by right|].
    simpl in Hm. destruct (IH _ Hm) as [[Hin Hk]|Hl].
    - left. split; [by right|done].
    - destruct (decide (StepSignal.step_id x = k)) as [Hx|Hx].
      + rewrite <- Hx, lookup_insert_eq in Hl. injection Hl as ->. left. split; [by left|done].
      + rewrite lookup_insert_ne in Hl by done. by right. }
  intros Hl. destruct (Hgen ∅ Hl) as [?|Hl']; [done|]. by rewrite lookup_empty in Hl'.
Qed.

(** C1: a confident signal adds the time since the previous confident one,
    and completes the step exactly when the threshold is reached. *)
Theorem confident_signal_accumulates_dwell s signals ts k st th sig :
  reachable s → truthy_str (_session_id s) = true →
  _step_statuses s !! k = Some st → _step_thresholds s !! k = Some th →
  StepStatus.state st ≠ StepState.COMPLETED →
  signal_map signals !! k = Some sig → StepSignal.is_confident sig = true →
  let t := StepSignal.timestamp_ms sig in
  let gained :=
    match mjoin (_last_confident_ts s !! k) with
    | Some last => Z.max 0 (t - last)
    | None => 0
    end in
  ∃ s' st',
    process_signals s signals ts = Ok s' ∧ _step_statuses s' !! k = Some st' ∧
    StepStatus.accumulated_ms st' = StepStatus.accumulated_ms st + gained ∧
    (StepStatus.state st' = StepState.COMPLETED ↔
       StepThreshold.duration_ms th ≤ StepStatus.accumulated_ms st') ∧
    (StepStatus.state st' = StepState.COMPLETED →
       StepStatus.completed_ts st' = Some t ∧ mjoin (_last_confident_ts s' !! k) = None) ∧
    (StepStatus.state st' ≠ StepState.COMPLETED →
       StepStatus.state st' = StepState.IN_PROGRESS ∧
       StepStatus.completed_ts st' = StepStatus.completed_ts st ∧
       mjoin (_last_confident_ts s' !! k) = Some t).
Proof.
  intros Hr Hsess Hst Hth Hc Hsig Hconf t gained.
  pose proof (reachable_wf s Hr) as Hwf.
  destruct (process_signals_spec s signals ts Hwf Hsess)
    as (s' & Hp & _ & _ & _ & _ & Hsome & _).
  destruct (Hsome k st th Hst Hth) as [Hnew Hlast]. clear Hsome.
  rewrite Hsig in Hnew, Hlast. unfold spec_update_step in Hnew, Hlast.
  rewrite bool_decide_eq_false_2 in Hnew, Hlast by done.
  destruct sig as [sk so sc conf t' ss sn]. simpl in Hconf, t. subst conf t.
  fold gained in Hnew, Hlast.
  exists s'. eexists. split; [exact Hp|]. split; [exact Hnew|]. clear Hnew.
  destruct (Z.leb_spec (StepThreshold.duration_ms th)
              (StepStatus.accumulated_ms st + gained)) as [Hle|Hlt]; simpl in *.
  - split; [done|]. split; [done|]. split; [done|]. done.
  - split; [done|]. split; [split; [done|lia]|]. split; [done|]. done.
Qed.

Lemma step_events_cases s signals ts k :
  wf s → step_events s signals ts k = [] ∨ step_events s signals ts k = [low_confidence_event ts k].
Proof.
  intros Hwf. unfold step_events.
  destruct (_step_statuses s !! k) as [st|] eqn:Hst; [|by left].
  destruct (_step_thresholds s !! k) as [th|]; [|by left].
  destruct (wf_keys s Hwf k st Hst) as [Hk _].
  unfold spec_update_step. case_bool_decide; [by left|].
  destruct (signal_map signals !! k) as [[? ? ? [] ? ? ?]|]; simpl;
    try case_match; try case_bool_decide; try (by left); right;
    by rewrite Hk.
Qed.

Lemma StepID_value_inj k k' : StepID.value k = StepID.value k' → k = k'.
Proof. by destruct k, k'. Qed.

Lemma filter_step_events s signals ts (l : list StepID.t) k :
  wf s → NoDup l →
  filter (λ e, UncertaintyEvent.details e = Some ("step=" +:+ StepID.value k))
    (l ≫= step_events s signals ts) =
  if decide (k ∈ l) then step_events s signals ts k else [].
Proof.
  intros Hwf. induction 1 as [|k' l Hk' Hnd IH]; [done|].
  cbn [mbind list_bind]. rewrite filter_app, IH. clear IH.
  destruct (decide (k = k')) as [<-|Hne].
  - rewrite (decide_False (P := k ∈ l)) by done.
    rewrite (decide_True (P := k ∈ k :: l)) by left. rewrite app_nil_r.
    destruct (step_events_cases s signals ts k Hwf) as [->| ->]; [done|].
    unfold low_confidence_event. rewrite filter_cons_True by done. done.
  - assert (Hnil : filter (λ e, UncertaintyEvent.details e = Some ("step=" +:+ StepID.value k))
                     (step_events s signals ts k') = []).
    { destruct (step_events_cases s signals ts k' Hwf) as [->| ->]; [done|].
      unfold low_confidence_event. rewrite filter_cons_False; [done|]. simpl.
      intros [= Heq]. apply Hne. symmetry. by apply StepID_value_inj. }
    rewrite Hnil. simpl.
    destruct (decide (k ∈ l)).
    + rewrite decide_True by (by right). done.
    + rewrite decide_False; [done|]. by intros [?|?]%elem_of_cons.
Qed.

(** C3: a step with no confident signal in the frame loses its
    [last_confident_ts]; if it was in progress it becomes uncertain, counts
    one more uncertainty and records one LOW_CONFIDENCE event stamped with the
    frame; otherwise its status is left as it was. *)
Theorem unconfident_step_pauses s signals ts k st :
  reachable s → truthy_str (_session_id s) = true →
  _step_statuses s !! k = Some st →
  StepStatus.state st ≠ StepState.COMPLETED →
  (∀ sig, sig ∈ signals → StepSignal.step_id sig = k → StepSignal.is_confident sig = false) →
  ∃ s' new,
    process_signals s signals ts = Ok s' ∧
    mjoin (_last_confident_ts s' !! k) = None ∧
    _uncertainty_events s' = _uncertainty_events s ++ new ∧
    (∀ e, e ∈ new → UncertaintyEvent.reason e = UncertaintyReason.LOW_CONFIDENCE ∧
                    UncertaintyEvent.timestamp_ms e = ts) ∧
    (StepStatus.state st = StepState.IN_PROGRESS →
       _step_statuses s' !! k =
         Some (StepStatus.set_uncertainty_count (StepStatus.uncertainty_count st + 1)
                 (StepStatus.set_state StepState.UNCERTAIN st)) ∧
       filter (λ e, UncertaintyEvent.details e = Some ("step=" +:+ StepID.value k)) new =
         [UncertaintyEvent.mk ts UncertaintyReason.LOW_CONFIDENCE
            (Some ("step=" +:+ StepID.value k))]) ∧
    (StepStatus.state st ≠ StepState.IN_PROGRESS →
       _step_statuses s' !! k = Some st ∧
       filter (λ e, UncertaintyEvent.details e = Some ("step=" +:+ StepID.value k)) new = []).
Proof.
  intros Hr Hsess Hst Hc Hnone.
  pose proof (reachable_wf s Hr) as Hwf.
  destruct (wf_keys s Hwf k st Hst) as [Hsid Hk].
  destruct (wf_thresholds s Hwf k Hk) as [th Hth].
  destruct (process_signals_spec s signals ts Hwf Hsess)
    as (s' & Hp & _ & _ & _ & _ & Hsome & Hev & _).
  destruct (Hsome k st th Hst Hth) as [Hnew Hlast]. clear Hsome.
  exists s', (_step_order s ≫= step_events s signals ts).
  split; [done|].
  assert (Hspec :
    spec_update_step (StepThreshold.duration_ms th) (signal_map signals !! k) ts st
      (mjoin (_last_confident_ts s !! k)) =
    if bool_decide (StepStatus.state st = StepState.IN_PROGRESS)
    then (StepStatus.set_uncertainty_count (StepStatus.uncertainty_count st + 1)
            (StepStatus.set_state StepState.UNCERTAIN st), None, [low_confidence_event ts k])
    else (st, None, [])).
  { unfold spec_update_step. rewrite bool_decide_eq_false_2 by done.
    destruct (signal_map signals !! k) as [sig|] eqn:Hsig.
    - destruct (signal_map_lookup _ _ _ Hsig) as [Hin Hsk].
      specialize (Hnone sig Hin Hsk). destruct sig as [? ? ? conf ? ? ?].
      simpl in Hnone. subst conf. by rewrite <- Hsid.
    - by rewrite <- Hsid. }
  rewrite Hspec in Hnew, Hlast.
  split; [by destruct (bool_decide _)|].
  split; [done|].
  split.
  { intros e He. apply list_elem_of_bind in He as (k' & He & _).
    destruct (step_events_cases s signals ts k' Hwf) as [Hn|Hn]; rewrite Hn in He.
    - by apply elem_of_nil in He.
    - apply list_elem_of_singleton in He as ->. done. }
  rewrite (filter_step_events s signals ts (_step_order s) k Hwf (wf_nodup s Hwf)).
  rewrite decide_True by done. unfold step_events. rewrite Hst, Hth, Hspec.
  split; intros Hip.
  - rewrite bool_decide_eq_true_2 in Hnew |- * by done. done.
  - rewrite bool_decide_eq_false_2 in Hnew |- * by done. done.
Qed.

(** C2: in every reachable state each status has a non-negative dwell time,
    is COMPLETED only with the threshold reached and a completion time, and has
    no completion time otherwise; and a COMPLETED status survives, unchanged,
    every later call of the session. *)
Theorem step_status_invariants s :
  reachable s →
  (∀ k st, _step_statuses s !! k = Some st →
     ∃ th, _step_thresholds s !! k = Some th ∧
       0 ≤ StepStatus.accumulated_ms st ∧
       (StepStatus.state st = StepState.COMPLETED →
          StepThreshold.duration_ms th ≤ StepStatus.accumulated_ms st ∧
          is_Some (StepStatus.completed_ts st)) ∧
       (StepStatus.state st ≠ StepState.COMPLETED → StepStatus.completed_ts st = None)) ∧
  (∀ k st ops, _step_statuses s !! k = Some st →
     StepStatus.state st = StepState.COMPLETED →
     ∃ s', run_ops s ops = Ok s' ∧ _step_statuses s' !! k = Some st).
Proof.
  intros Hr. split.
  - apply (reachable_statuses_inv s Hr).
  - intros k st ops Hst Hc. apply run_ops_completed; [by apply reachable_wf|done|done].
Qed.

End WithLed.
End InterpreterClaims.

Module InterpreterWitness.
Import InterpreterStateMachine InterpreterRun Scenario InterpreterClaims.

Lemma machine3_reachable : reachable machine3.
Proof.
  apply (reachable_op machine2 (OpProcessSignals [signal StepID.STEP_2 450] 450));
    [|vm_compute; reflexivity].
  apply (reachable_op machine1 (OpProcessSignals [signal StepID.STEP_2 300] 300));
    [|vm_compute; reflexivity].
  apply (reachable_start_session machine0 "session-1" 200); [|vm_compute; reflexivity].
  apply reachable_init.
Qed.

Lemma machine4_reachable : reachable machine4.
Proof.
  apply (reachable_op machine3 (OpProcessSignals [signal StepID.STEP_2 600] 600));
    [|vm_compute; reflexivity].
  apply machine3_reachable.
Qed.

Lemma confident_signal_accumulates_dwell_witness :
  ∃ s' st',
    process_signals machine3 [signal StepID.STEP_2 600] 600 = Ok s' ∧
    _step_statuses s' !! StepID.STEP_2 = Some st' ∧
    StepStatus.accumulated_ms st' =
      StepStatus.accumulated_ms status3 +
      match mjoin (_last_confident_ts machine3 !! StepID.STEP_2) with
      | Some last => Z.max 0 (StepSignal.timestamp_ms (signal StepID.STEP_2 600) - last)
      | None => 0
      end ∧
    (StepStatus.state st' = StepState.COMPLETED ↔
       StepThreshold.duration_ms (StepThreshold.mk 300 0.5 None) ≤ StepStatus.accumulated_ms st') ∧
    (StepStatus.state st' = StepState.COMPLETED →
       StepStatus.completed_ts st' = Some (StepSignal.timestamp_ms (signal StepID.STEP_2 600)) ∧
       mjoin (_last_confident_ts s' !! StepID.STEP_2) = None) ∧
    (StepStatus.state st' ≠ StepState.COMPLETED →
       StepStatus.state st' = StepState.IN_PROGRESS ∧
       StepStatus.completed_ts st' = StepStatus.completed_ts status3 ∧
       mjoin (_last_confident_ts s' !! StepID.STEP_2) =
         Some (StepSignal.timestamp_ms (signal StepID.STEP_2 600))).
Proof.
  apply (confident_signal_accumulates_dwell machine3 [signal StepID.STEP_2 600] 600
           StepID.STEP_2 status3 (StepThreshold.mk 300 0.5 None) (signal StepID.STEP_2 600)).
  - exact machine3_reachable.
  - vm_compute; reflexivity.
  - vm_compute; reflexivity.
  - vm_compute; reflexivity.
  - discriminate.
  - vm_compute; reflexivity.
  - reflexivity.
Defined.

Lemma unconfident_step_pauses_witness :
  ∃ s' new,
    process_signals machine3 [] 500 = Ok s' ∧
    mjoin (_last_confident_ts s' !! StepID.STEP_2) = None ∧
    _uncertainty_events s' = _uncertainty_events machine3 ++ new ∧
    (∀ e, e ∈ new → UncertaintyEvent.reason e = UncertaintyReason.LOW_CONFIDENCE ∧
                    UncertaintyEvent.timestamp_ms e = 500) ∧
    (StepStatus.state status3 = StepState.IN_PROGRESS →
       _step_statuses s' !! StepID.STEP_2 =
         Some (StepStatus.set_uncertainty_count (StepStatus.uncertainty_count status3 + 1)
                 (StepStatus.set_state StepState.UNCERTAIN status3)) ∧
       filter (λ e, UncertaintyEvent.details e = Some ("step=" +:+ StepID.value StepID.STEP_2)) new =
         [UncertaintyEvent.mk 500 UncertaintyReason.LOW_CONFIDENCE
            (Some ("step=" +:+ StepID.value StepID.STEP_2))]) ∧
    (StepStatus.state status3 ≠ StepState.IN_PROGRESS →
       _step_statuses s' !! StepID.STEP_2 = Some status3 ∧
       filter (λ e, UncertaintyEvent.details e = Some ("step=" +:+ StepID.value StepID.STEP_2)) new = []).
Proof.
  apply (unconfident_step_pauses machine3 [] 500 StepID.STEP_2 status3).
  - exact machine3_reachable.
  - vm_compute; reflexivity.
  - vm_compute; reflexivity.
  - discriminate.
  - intros sig Hin. by apply elem_of_nil in Hin.
Defined.

Lemma step_status_invariants_witness :
  (∀ k st, _step_statuses machine4 !! k = Some st →
     ∃ th, _step_thresholds machine4 !! k = Some th ∧
       0 ≤ StepStatus.accumulated_ms st ∧
       (StepStatus.state st = StepState.COMPLETED →
          StepThreshold.duration_ms th ≤ StepStatus.accumulated_ms st ∧
          is_Some (StepStatus.completed_ts st)) ∧
       (StepStatus.state st ≠ StepState.COMPLETED → StepStatus.completed_ts st = None)) ∧
  (∀ k st ops, _step_statuses machine4 !! k = Some st →
     StepStatus.state st = StepState.COMPLETED →
     ∃ s', run_ops machine4 ops = Ok s' ∧ _step_statuses s' !! k = Some st).
Proof. exact (step_status_invariants machine4 machine4_reachable). Defined.

Example machine4_step2 :
  _step_statuses machine4 !! StepID.STEP_2 =
  Some (StepStatus.mk StepID.STEP_2 StepOrientation.NONE StepState.COMPLETED 300 (Some 600) 0).
Proof. vm_compute. reflexivity. Qed.
End InterpreterWitness.

Module SessionGateFacts.
Import SessionManager SessionGate.

Lemma _extract_int_is_int packet key dflt :
  isinstance_int dflt = true → isinstance_int (_extract_int packet key dflt) = true.
Proof.
  intros Hd. unfold _extract_int.
  destruct (isinstance_int (default dflt _)) eqn:E; done.
Qed.

Lemma py_lt_int_total v n : isinstance_int v = true → ∃ b, py_lt_int v n = Ok b.
Proof. destruct v; try done; by eexists. Qed.

Lemma gate_total self packet : ∃ ok, _meets_start_conditions self packet = Ok ok.
Proof.
  unfold _meets_start_conditions.
  set (hands_total := _extract_int packet "hand_count" (PyInt 0)).
  assert (Ht : isinstance_int hands_total = true) by by apply _extract_int_is_int.
  destruct (py_lt_int_total hands_total
              (SessionConfig.min_hands (Config.session (_config self))) Ht) as [b ->].
  cbn [mbind result_bind]. destruct b; [by eexists|].
  destruct (py_lt_int_total (_extract_int packet "hands_in_roi" hands_total)
              (SessionConfig.min_hands (Config.session (_config self)))) as [b ->].
  { by apply _extract_int_is_int. }
  cbn [mbind result_bind]. destruct b; [by eexists|].
  repeat case_match; by eexists.
Qed.

Lemma gate_ok_spec self packet : _meets_start_conditions self packet = Ok (gate_ok self packet).
Proof. unfold gate_ok. by destruct (gate_total self packet) as [ok ->]. Qed.

Lemma gate_ok_config self self' packet :
  _config self' = _config self → gate_ok self' packet = gate_ok self packet.
Proof. intros Hc. unfold gate_ok, _meets_start_conditions. by rewrite Hc. Qed.

(** C10: without an integer under [hands_in_roi], the gate judges the frame
    with [hands_in_roi] equal to the extracted [hand_count]; a [hand_count]
    that is missing or no integer counts as 0; and the judgement raises
    nothing, whatever the metadata. *)
Theorem gate_hands_in_roi_defaults_to_hand_count self packet :
  (∀ v, FramePacket.metadata packet !! "hands_in_roi" = Some v → isinstance_int v = false) →
  let session := Config.session (_config self) in
  let hands_total := _extract_int packet "hand_count" (PyInt 0) in
  _extract_int packet "hands_in_roi" hands_total = hands_total ∧
  _meets_start_conditions self packet =
    _meets_start_conditions self (with_metadata packet "hands_in_roi" hands_total) ∧
  (∀ v n, FramePacket.metadata packet !! "hand_count" = Some v → py_int_value v = Some n →
          SessionConfig.min_hands session ≤ n →
          motion_ok session (FramePacket.motion packet) →
          _meets_start_conditions self packet = Ok true) ∧
  ((∀ v, FramePacket.metadata packet !! "hand_count" = Some v → isinstance_int v = false) →
     hands_total = PyInt 0 ∧
     (0 < SessionConfig.min_hands session → _meets_start_conditions self packet = Ok false)) ∧
  (∀ self' packet', ∃ ok, _meets_start_conditions self' packet' = Ok ok).
Proof.
  intros Hroi session hands_total.
  assert (Hext : _extract_int packet "hands_in_roi" hands_total = hands_total).
  { unfold _extract_int. destruct (FramePacket.metadata packet !! "hands_in_roi") as [v|] eqn:E.
    - simpl. by rewrite (Hroi v).
    - simpl. by destruct (isinstance_int hands_total). }
  assert (Ht : isinstance_int hands_total = true) by by apply _extract_int_is_int.
  split; [done|]. split.
  { unfold _meets_start_conditions.
    assert (Hh : _extract_int (with_metadata packet "hands_in_roi" hands_total) "hand_count" (PyInt 0)
                 = hands_total).
    { unfold _extract_int, with_metadata. simpl. by rewrite lookup_insert_ne. }
    rewrite Hh. fold hands_total. rewrite Hext.
    assert (Hr : _extract_int (with_metadata packet "hands_in_roi" hands_total) "hands_in_roi"
                   hands_total = hands_total).
    { unfold _extract_int, with_metadata. simpl. rewrite lookup_insert_eq. simpl. by rewrite Ht. }
    by rewrite Hr. }
  split.
  { intros v n Hv Hn Hmin Hmotion. unfold _meets_start_conditions.
    fold hands_total session. rewrite Hext.
    assert (Hh : hands_total = v).
    { unfold hands_total, _extract_int. rewrite Hv. simpl. by destruct v. }
    assert (Hlt : py_lt_int hands_total (SessionConfig.min_hands session) = Ok false).
    { rewrite Hh. destruct v; simplify_eq/=; f_equal; lia. }
    rewrite Hlt. cbn [mbind result_bind].
    destruct (SessionConfig.require_motion session) eqn:Hreq; [|done].
    destruct (Hmotion Hreq) as [-> ->]. done. }
  split.
  { intros Hnone.
    assert (Hz : hands_total = PyInt 0).
    { unfold hands_total, _extract_int.
      destruct (FramePacket.metadata packet !! "hand_count") as [v|] eqn:E; simpl.
      - by rewrite (Hnone v).
      - done. }
    split; [done|]. intros Hmin. unfold _meets_start_conditions. fold hands_total session.
    rewrite Hz. simpl. by rewrite (proj2 (Z.ltb_lt _ _) Hmin). }
  apply gate_total.
Qed.

End SessionGateFacts.

Module SessionGateStream.
Import SessionManager SessionGate SessionGateFacts.

Section WithUuid.
Variable uuid4 : nat → string.

Ltac solve_active_inv :=
  intros ?; simpl in *;
  repeat match goal with H : _ = Some _ |- _ => rewrite H end;
  first [congruence | repeat split; by eexists].

Lemma reachable_gate_inv self : reachable uuid4 self → gate_inv self.
Proof.
  induction 1 as [config self Hinit|self packet self' events _ IH Hp|self _ IH].
  - unfold __init__, Deque.new in Hinit.
    destruct (Z.ltb_spec (SessionConfig.start_window_frames (Config.session config)) 0);
      simplify_eq/=. split; simpl; [done|lia|]. intros Ha. done.
  - destruct IH as [I1 I2 I3]. unfold process_frame in Hp.
    rewrite gate_ok_spec in Hp. cbn [mbind result_bind] in Hp. simpl in Hp.
    destruct (_session_active self) eqn:Hact; simpl in Hp.
    + destruct (I3 Hact) as ([sid Hsid] & [start Hstart] & [last Hlast]).
      destruct (gate_ok self packet).
      * simplify_eq/=. split; simpl; [done|done|solve_active_inv].
      * rewrite Hlast in Hp. case_match; simplify_eq/=.
        -- unfold _end_session in *. simpl in *. rewrite Hsid, Hstart in *. simplify_eq/=.
           split; simpl; [done|done|solve_active_inv].
        -- split; simpl; [done|done|solve_active_inv].
    + case_match; simplify_eq/=.
      * split; simpl; [done|done|solve_active_inv].
      * split; simpl; [done|done|solve_active_inv].
  - destruct IH as [I1 I2 I3]. unfold reset.
    destruct (_session_active self) eqn:Hact.
    + destruct (I3 Hact) as ([sid Hsid] & [start Hstart] & [last Hlast]).
      unfold _end_session. rewrite Hact, Hsid, Hstart. simpl.
      split; simpl; [done|done|solve_active_inv].
    + simpl. split; simpl; [done|done|solve_active_inv].
Qed.


(** *** The sliding window *)

Lemma window_append (w : Deque.t bool) (oks : list bool) ok :
  0 ≤ Deque.maxlen w →
  Deque.items w = drop (length oks - Z.to_nat (Deque.maxlen w)) oks →
  Deque.items (Deque.append w ok) =
    drop (length (oks ++ [ok]) - Z.to_nat (Deque.maxlen w)) (oks ++ [ok]) ∧
  Deque.maxlen (Deque.append w ok) = Deque.maxlen w.
Proof.
  intros Hn Hw. split; [|done]. unfold Deque.append. cbn [Deque.items Deque.maxlen].
  rewrite Hw. set (n := Z.to_nat (Deque.maxlen w)).
  rewrite !length_app, length_drop. cbn [length].
  destruct (Z.ltb_spec (Deque.maxlen w)
              (Z.of_nat (length oks - (length oks - n) + 1))) as [Hlt|Hge].
  - (* the window was full: its oldest verdict leaves *)
    assert (Hlen : (n ≤ length oks)%nat) by lia.
    replace (length oks + 1 - n)%nat with (length oks - n + 1)%nat by lia.
    rewrite <- drop_drop, drop_app_le by lia. done.
  - (* there was room left *)
    assert (Hlen : (length oks < n)%nat) by lia.
    replace (length oks - n)%nat with 0%nat by lia.
    replace (length oks + 1 - n)%nat with 0%nat by lia. done.
Qed.

Lemma window_full (w : Deque.t bool) (oks : list bool) :
  0 ≤ Deque.maxlen w →
  Deque.items w = drop (length oks - Z.to_nat (Deque.maxlen w)) oks →
  (Deque.len w =? Deque.maxlen w) && forallb id (Deque.items w) =
  full_ok_window (Deque.maxlen w) oks.
Proof.
  intros Hn Hw. unfold full_ok_window, Deque.len. rewrite Hw, length_drop. f_equal.
  destruct (Z.leb_spec (Deque.maxlen w) (Z.of_nat (length oks)));
    [apply Z.eqb_eq|apply Z.eqb_neq]; lia.
Qed.

(** One frame through an idle gate. *)
Lemma process_frame_idle self packet oks :
  gate_inv self → _session_active self = false → window_of self oks →
  let n := SessionConfig.start_window_frames (Config.session (_config self)) in
  let ts := FramePacket.timestamp_ms packet in
  ∃ self' events,
    process_frame uuid4 self packet = Ok (self', events) ∧
    gate_inv self' ∧ _config self' = _config self ∧
    window_of self' (oks ++ [gate_ok self packet]) ∧
    if full_ok_window n (oks ++ [gate_ok self packet])
    then events = [SessionEvent.mk SessionEventType.STARTED (uuid4 (uuid_calls self)) ts
                     (Config.config_version (_config self))
                     (StartedDetails (Config.roi (_config self)))] ∧
         _session_active self' = true ∧ _session_start_ts self' = Some ts ∧
         _last_active_ts self' = Some ts ∧
         _current_session_id self' = Some (uuid4 (uuid_calls self))
    else events = [] ∧ _session_active self' = false ∧ uuid_calls self' = uuid_calls self.
Proof.
  intros [I1 I2 I3] Hidle Hw n ts.
  destruct (window_append (_start_window self) oks (gate_ok self packet) I2 Hw) as [Ha Hm].
  pose proof (window_full (Deque.append (_start_window self) (gate_ok self packet))
                (oks ++ [gate_ok self packet])) as Hf.
  rewrite Hm in Hf. specialize (Hf I2 Ha). rewrite I1 in Hf. fold n in Hf.
  unfold process_frame. rewrite gate_ok_spec. cbn [mbind result_bind].
  cbn [_session_active _start_window _config]. rewrite Hidle. cbn [negb].
  rewrite Hm, I1. fold n. rewrite Hf.
  destruct (full_ok_window n (oks ++ [gate_ok self packet])).
  - eexists _, _. split; [done|]. simpl. split_and!; try done.
  - eexists _, _. split; [done|]. simpl. split_and!; try done.
Qed.

(** A run of frames none of which completes a full window of [gate_ok]
    verdicts leaves the gate idle and emits nothing. *)
Lemma process_frames_idle packets : ∀ self oks,
  gate_inv self → _session_active self = false → window_of self oks →
  let n := SessionConfig.start_window_frames (Config.session (_config self)) in
  (∀ j, (j < length packets)%nat →
        full_ok_window n (oks ++ take (S j) (gate_ok self <$> packets)) = false) →
  ∃ self',
    process_frames uuid4 self packets = Ok (self', replicate (length packets) []) ∧
    gate_inv self' ∧ _config self' = _config self ∧ _session_active self' = false ∧
    uuid_calls self' = uuid_calls self ∧
    window_of self' (oks ++ (gate_ok self <$> packets)).
Proof.
  induction packets as [|packet packets IH]; intros self oks Hinv Hidle Hw n Hno.
  { exists self. rewrite app_nil_r. done. }
  destruct (process_frame_idle self packet oks Hinv Hidle Hw)
    as (self1 & events & Hp & Hinv1 & Hc1 & Hw1 & Hcase).
  fold n in Hcase.
  assert (H0 : full_ok_window n (oks ++ [gate_ok self packet]) = false).
  { apply (Hno 0%nat). simpl. lia. }
  rewrite H0 in Hcase.
  destruct Hcase as (-> & Hidle1 & Hu1).
  destruct (IH self1 (oks ++ [gate_ok self packet]) Hinv1 Hidle1 Hw1)
    as (self' & Hps & Hinv' & Hc' & Hidle' & Hu' & Hw').
  { intros j Hj. rewrite Hc1. fold n. rewrite <- app_assoc.
    rewrite (list_fmap_ext (gate_ok self1) (gate_ok self) packets)
      by (intros; by apply gate_ok_config).
    apply (Hno (S j)). simpl. lia. }
  exists self'. cbn [process_frames]. rewrite Hp. cbn [mbind result_bind].
  rewrite Hps. cbn [mbind result_bind]. split; [done|].
  split_and!; try congruence.
  rewrite <- app_assoc in Hw'.
  rewrite (list_fmap_ext (gate_ok self1) (gate_ok self) packets) in Hw'
    by (intros; by apply gate_ok_config).
  done.
Qed.

(** C4: from an idle gate with an empty window, as long as no frame
    completes a window of [start_window_frames] verdicts that are all
    [gate_ok] nothing is emitted; the frame that does emits SessionStarted with
    its own timestamp, which becomes the session's start. *)
Theorem session_starts_on_first_full_window self before packet :
  reachable uuid4 self → _session_active self = false →
  Deque.items (_start_window self) = [] →
  let n := SessionConfig.start_window_frames (Config.session (_config self)) in
  let oks := gate_ok self <$> before in
  (∀ j, (j < length before)%nat → full_ok_window n (take (S j) oks) = false) →
  ∃ self1 self2 events,
    process_frames uuid4 self before = Ok (self1, replicate (length before) []) ∧
    process_frame uuid4 self1 packet = Ok (self2, events) ∧
    (full_ok_window n (oks ++ [gate_ok self packet]) = true →
       events = [SessionEvent.mk SessionEventType.STARTED (uuid4 (uuid_calls self))
                   (FramePacket.timestamp_ms packet) (Config.config_version (_config self))
                   (StartedDetails (Config.roi (_config self)))] ∧
       _session_active self2 = true ∧
       _session_start_ts self2 = Some (FramePacket.timestamp_ms packet)) ∧
    (full_ok_window n (oks ++ [gate_ok self packet]) = false →
       events = [] ∧ _session_active self2 = false).
Proof.
  intros Hr Hidle Hempty n oks Hno.
  pose proof (reachable_gate_inv self Hr) as Hinv.
  assert (Hw : window_of self []) by (unfold window_of; by rewrite Hempty).
  destruct (process_frames_idle before self [] Hinv Hidle Hw Hno)
    as (self1 & Hps & Hinv1 & Hc1 & Hidle1 & Hu1 & Hw1).
  destruct (process_frame_idle self1 packet _ Hinv1 Hidle1 Hw1)
    as (self2 & events & Hp & _ & _ & _ & Hcase).
  rewrite Hc1, Hu1, (gate_ok_config self self1 packet Hc1) in Hcase. simpl in Hcase.
  fold n oks in Hcase.
  exists self1, self2, events. split; [done|]. split; [done|].
  destruct (full_ok_window n (oks ++ [gate_ok self packet])).
  - split; [|done]. intros _. destruct Hcase as (-> & ? & ? & _). done.
  - split; [done|]. intros _. destruct Hcase as (-> & ? & _). done.
Qed.

End WithUuid.
End SessionGateStream.

Module SessionGateWitness.
Import SessionManager SessionGate SessionGateFacts SessionGateStream GateScenario.

Lemma gate0_reachable : reachable uuid4 gate0.
Proof. apply (reachable_init uuid4 (Scenario.config 300)). reflexivity. Qed.

Lemma after_reachable self packets : reachable uuid4 self → reachable uuid4 (after self packets).
Proof.
  unfold after. revert self. induction packets as [|p ps IH]; intros self Hr; [done|].
  cbn [process_frames].
  destruct (process_frame uuid4 self p) as [[self1 ev]|] eqn:Hp; [|done].
  cbn [mbind result_bind].
  assert (Hr1 : reachable uuid4 self1) by (by eapply reachable_process_frame).
  specialize (IH self1 Hr1).
  destruct (process_frames uuid4 self1 ps) as [[self2 evs]|]; [done|].
  simpl. done.
Qed.

Lemma gate_hands_in_roi_defaults_to_hand_count_witness :
  _extract_int hand_count_only "hands_in_roi" (_extract_int hand_count_only "hand_count" (PyInt 0)) =
    _extract_int hand_count_only "hand_count" (PyInt 0) ∧
  _meets_start_conditions gate0 hand_count_only =
    _meets_start_conditions gate0
      (with_metadata hand_count_only "hands_in_roi"
         (_extract_int hand_count_only "hand_count" (PyInt 0))) ∧
  (∀ v n, FramePacket.metadata hand_count_only !! "hand_count" = Some v →
          py_int_value v = Some n →
          SessionConfig.min_hands (Config.session (_config gate0)) ≤ n →
          motion_ok (Config.session (_config gate0)) (FramePacket.motion hand_count_only) →
          _meets_start_conditions gate0 hand_count_only = Ok true) ∧
  ((∀ v, FramePacket.metadata hand_count_only !! "hand_count" = Some v →
         isinstance_int v = false) →
     _extract_int hand_count_only "hand_count" (PyInt 0) = PyInt 0 ∧
     (0 < SessionConfig.min_hands (Config.session (_config gate0)) →
      _meets_start_conditions gate0 hand_count_only = Ok false)) ∧
  (∀ self' packet', ∃ ok, _meets_start_conditions self' packet' = Ok ok).
Proof.
  apply (gate_hands_in_roi_defaults_to_hand_count gate0 hand_count_only).
  intros v Hv. vm_compute in Hv. discriminate.
Defined.

Example hand_count_only_opens_gate : _meets_start_conditions gate0 hand_count_only = Ok true.
Proof. vm_compute. reflexivity. Qed.

Lemma session_starts_on_first_full_window_witness :
  ∃ self1 self2 events,
    process_frames uuid4 gate0 [still 0; moving 100; moving 200] =
      Ok (self1, replicate (length [still 0; moving 100; moving 200]) []) ∧
    process_frame uuid4 self1 (moving 300) = Ok (self2, events) ∧
    (full_ok_window (SessionConfig.start_window_frames (Config.session (_config gate0)))
       ((gate_ok gate0 <$> [still 0; moving 100; moving 200]) ++ [gate_ok gate0 (moving 300)])
       = true →
       events = [SessionEvent.mk SessionEventType.STARTED (uuid4 (uuid_calls gate0))
                   (FramePacket.timestamp_ms (moving 300)) (Config.config_version (_config gate0))
                   (StartedDetails (Config.roi (_config gate0)))] ∧
       _session_active self2 = true ∧
       _session_start_ts self2 = Some (FramePacket.timestamp_ms (moving 300))) ∧
    (full_ok_window (SessionConfig.start_window_frames (Config.session (_config gate0)))
       ((gate_ok gate0 <$> [still 0; moving 100; moving 200]) ++ [gate_ok gate0 (moving 300)])
       = false →
       events = [] ∧ _session_active self2 = false).
Proof.
  apply (session_starts_on_first_full_window uuid4 gate0 [still 0; moving 100; moving 200]
           (moving 300)).
  - exact gate0_reachable.
  - reflexivity.
  - reflexivity.
  - intros [|[|[|j]]] Hj; [vm_compute; reflexivity..|simpl in Hj; lia].
Defined.

Example fourth_frame_completes_window :
  full_ok_window 3 ((gate_ok gate0 <$> [still 0; moving 100; moving 200])
                     ++ [gate_ok gate0 (moving 300)]) = true.
Proof. vm_compute. reflexivity. Qed.


(** The session of scenario S1 ends on the still frame at 1400 with
    [duration_ms = 1200]. *)
Example s1_session_ends_at_1400 :
  ∃ self',
    process_frame uuid4 gate_active (still 1400) =
    Ok (self', [SessionEvent.mk SessionEventType.ENDED "session-0" 1400 "test-config"
                  (EndedDetails "timeout" 1200)]).
Proof. eexists. vm_compute. reflexivity. Qed.


End SessionGateWitness.

Module LedClientFacts.
Import Esp8266Client LedClientRun.
Section WithTransport.
Variable transport : list HttpRequest → HttpRequest → option string.

Lemma publish_disabled self step state ts :
  _disabled self = true → publish transport self step state ts = (self, false).
Proof. intros Hd. unfold publish. by rewrite Hd, orb_true_r. Qed.

(** A disabled client stays so, silent, through any calls but [start_session]. *)
Lemma run_ops_disabled ops : ∀ self,
  _disabled self = true →
  let '(self', results) := run_ops transport self ops in
  _disabled self' = true ∧ sent self' = sent self ∧ _config self' = _config self ∧
  Forall (λ delivered, delivered = false) results.
Proof.
  induction ops as [|[step state ts|] ops IH]; intros self Hd; cbn [run_ops].
  - done.
  - rewrite publish_disabled by done. specialize (IH self Hd).
    destruct (run_ops transport self ops) as [self' results].
    destruct IH as (? & ? & ? & ?). split_and!; try done. by constructor.
  - specialize (IH (end_session self) Hd).
    destruct (run_ops transport (end_session self) ops) as [self' results]. done.
Qed.

(** C8: a publish that fails in transport records the reason, disables the
    client and returns [False]; until the next [start_session] every publish
    returns [False] and sends nothing; [start_session] then clears the error
    and the per-step states and enables publishing again. *)
Theorem publish_failure_disables_until_start_session self step state ts reason :
  Esp8266Config.enabled (_config self) = true → _disabled self = false →
  truthy_str (_session_id self) = true → _last_states self !! step ≠ Some state →
  transport (sent self) (POST_signal (_build_payload self step state ts)) = Some reason →
  ∃ self1,
    publish transport self step state ts = (self1, false) ∧
    _disabled self1 = true ∧ _last_error self1 = Some reason ∧
    sent self1 = sent self ++ [POST_signal (_build_payload self step state ts)] ∧
    ∀ ops,
      ∃ self2 results,
        run_ops transport self1 ops = (self2, results) ∧
        Forall (λ delivered, delivered = false) results ∧
        sent self2 = sent self1 ∧ _disabled self2 = true ∧
        ∀ session_id,
          let self3 := start_session transport self2 session_id in
          _disabled self3 = false ∧ _last_error self3 = None ∧ _last_states self3 = ∅ ∧
          _session_id self3 = Some session_id ∧ sent self3 = sent self2 ++ [POST_reset] ∧
          (truthy_str (Some session_id) = true →
           ∀ step' state' ts',
             sent (publish transport self3 step' state' ts').1 =
             sent self3 ++ [POST_signal (_build_payload self3 step' state' ts')]).
Proof.
  intros Hen Hdis Hsess Hlast Hfail.
  eexists. split.
  { unfold publish. rewrite Hen, Hdis, Hsess. cbn [negb orb].
    rewrite bool_decide_eq_false_2 by done.
    unfold post. rewrite Hfail. unfold _disable. cbn [_disabled]. rewrite Hdis.
    reflexivity. }
  cbn [_disabled _last_error sent]. split_and!; try done.
  intros ops.
  pose proof (run_ops_disabled ops
    {| _config := _config self; _session_id := _session_id self; _disabled := true;
       _last_error := Some reason; _last_states := _last_states self;
       sent := sent self ++ [POST_signal (_build_payload self step state ts)] |} eq_refl) as Hrun.
  destruct (run_ops transport _ ops) as [self2 results].
  destruct Hrun as (Hd2 & Hs2 & Hc2 & Hres). cbn [sent _config] in Hs2, Hc2.
  exists self2, results. split_and!; try done.
  intros session_id. cbv zeta. unfold start_session.
  rewrite Hc2, Hen. cbn [negb]. unfold _reset_leds, post.
  cbn [fst _config _session_id _disabled _last_error _last_states sent].
  split_and!; try done.
  intros Hsid step' state' ts'. unfold publish.
  cbn [_config _disabled _session_id _last_states]. rewrite Hc2, Hen, Hsid.
  cbn [negb orb]. rewrite lookup_empty, bool_decide_eq_false_2 by done.
  unfold post. cbn [sent _config _session_id _disabled _last_error _last_states].
  destruct (transport (sent self2 ++ [POST_reset]) _); reflexivity.
Qed.

End WithTransport.
End LedClientFacts.

Module LedClientWitness.
Import Esp8266Client LedClientRun LedClientFacts LedScenario.

Lemma publish_failure_disables_until_start_session_witness :
  ∃ self1,
    publish unreachable client StepID.STEP_4 LedSignalState.CURRENT 654321 = (self1, false) ∧
    _disabled self1 = true ∧
    _last_error self1 = Some "ConnectionError: connection refused" ∧
    sent self1 =
      sent client ++
      [POST_signal (_build_payload client StepID.STEP_4 LedSignalState.CURRENT 654321)] ∧
    ∀ ops,
      ∃ self2 results,
        run_ops unreachable self1 ops = (self2, results) ∧
        Forall (λ delivered, delivered = false) results ∧
        sent self2 = sent self1 ∧ _disabled self2 = true ∧
        ∀ session_id,
          let self3 := start_session unreachable self2 session_id in
          _disabled self3 = false ∧ _last_error self3 = None ∧ _last_states self3 = ∅ ∧
          _session_id self3 = Some session_id ∧ sent self3 = sent self2 ++ [POST_reset] ∧
          (truthy_str (Some session_id) = true →
           ∀ step' state' ts',
             sent (publish unreachable self3 step' state' ts').1 =
             sent self3 ++ [POST_signal (_build_payload self3 step' state' ts')]).
Proof.
  apply (publish_failure_disables_until_start_session unreachable client StepID.STEP_4
           LedSignalState.CURRENT 654321 "ConnectionError: connection refused").
  - reflexivity.
  - reflexivity.
  - reflexivity.
  - vm_compute. discriminate.
  - reflexivity.
Defined.

(** The requests of the scenario: the reset of [start_session], then the one
    signal that failed; nothing after it. *)
Example unreachable_client_requests :
  sent (run_ops unreachable client
          [OpPublish StepID.STEP_4 LedSignalState.CURRENT 654321;
           OpPublish StepID.STEP_5 LedSignalState.CURRENT 654400;
           OpEndSession;
           OpPublish StepID.STEP_4 LedSignalState.IDLE 654500]).1 =
  [POST_reset;
   POST_signal (LedPayload.mk 4 "STEP_4" "CURRENT" 654321 1)].
Proof. vm_compute. reflexivity. Qed.

End LedClientWitness.

Module ReplayFacts.
Import Replay.

(** C9, as the code has it: for an asset of a loaded manifest whose
    [1000/fps] rounds to an integer, [stream_packets] yields exactly
    [total_frames] packets; the [i]-th has [frame_id = i] and
    [timestamp_ms = i * max(1, round(1000/fps))], and zero motion. *)
Theorem stream_packets_grid manifest config asset_id asset rounded :
  DemoManifest.get manifest asset_id = Some asset →
  loaded_asset asset →
  py_round (1000 / DemoAsset.fps asset)%float = Ok rounded →
  ∃ packets,
    stream_packets manifest config asset_id = Ok packets ∧
    Z.of_nat (length packets) = DemoAsset.total_frames asset ∧
    ∀ (i : nat) packet, packets !! i = Some packet →
      FramePacket.frame_id packet = Z.of_nat i ∧
      FramePacket.timestamp_ms packet = Z.of_nat i * Z.max 1 rounded ∧
      FramePacket.motion packet = MotionMetrics.mk 0 0.
Proof.
  intros Hasset (_ & Htotal & _) Hround.
  unfold stream_packets, DemoManifest.require, frame_interval_ms.
  rewrite Hasset. cbn [mbind result_bind]. rewrite Hround. cbn [mbind result_bind].
  eexists. split; [reflexivity|]. split.
  - rewrite length_fmap, length_seqZ. lia.
  - intros i packet Hi. rewrite list_lookup_fmap in Hi.
    destruct (seqZ 0 (DemoAsset.total_frames asset) !! i) as [frame_id|] eqn:Hs; [|done].
    apply lookup_seqZ in Hs as [-> _]. simpl in Hi. injection Hi as <-.
    unfold replay_packet. simpl. split_and!; [lia|f_equal; lia|done].
Qed.

End ReplayFacts.

Module ReplayWitness.
Import Replay ReplayFacts ReplayScenario.

Lemma stream_packets_grid_witness :
  ∃ packets,
    stream_packets manifest (Scenario.config 3000) "sample" = Ok packets ∧
    Z.of_nat (length packets) = DemoAsset.total_frames sample ∧
    ∀ (i : nat) packet, packets !! i = Some packet →
      FramePacket.frame_id packet = Z.of_nat i ∧
      FramePacket.timestamp_ms packet = Z.of_nat i * Z.max 1 40 ∧
      FramePacket.motion packet = MotionMetrics.mk 0 0.
Proof.
  apply (stream_packets_grid manifest (Scenario.config 3000) "sample" sample 40).
  - vm_compute. reflexivity.
  - split; [vm_compute; reflexivity|]. split; [vm_compute; discriminate|].
    repeat constructor; vm_compute; discriminate.
  - vm_compute. reflexivity.
Defined.

(** The test's expectations: five packets, the last with [frame_id = 4]. *)
Example sample_stream :
  ∃ packets,
    stream_packets manifest (Scenario.config 3000) "sample" = Ok packets ∧
    FramePacket.frame_id <$> packets = [0; 1; 2; 3; 4] ∧
    FramePacket.timestamp_ms <$> packets = [0; 40; 80; 120; 160].
Proof. eexists. split; [vm_compute; reflexivity|]. split; reflexivity. Qed.

(** C9 as the specification words it fails at 4000 frames per second:
    [round(1000/4000)] is 0, yet the packets are stamped 0, 1, 2 (the interval
    is clamped to 1), so packet 1 is not at [1 * round(1000/fps)]. *)
Lemma high_speed_interval_is_clamped :
  Replay.loaded_asset high_speed ∧
  py_round (1000 / DemoAsset.fps high_speed)%float = Ok 0 ∧
  ∃ packets packet,
    stream_packets manifest (Scenario.config 3000) "high-speed" = Ok packets ∧
    packets !! 1%nat = Some packet ∧
    FramePacket.timestamp_ms packet = 1 ∧
    FramePacket.timestamp_ms packet ≠ 1 * 0.
Proof.
  split.
  { split; [vm_compute; reflexivity|]. split; [vm_compute; discriminate|]. constructor. }
  split; [vm_compute; reflexivity|].
  eexists _, _. split; [vm_compute; reflexivity|]. split; [reflexivity|].
  split; [reflexivity|]. vm_compute. discriminate.
Qed.

End ReplayWitness.

Module VerifyFacts.
Import DemoApp.

Lemma elem_of_insertion_order {K} `{EqDecision K} (keys : list K) k :
  k ∈ insertion_order keys ↔ k ∈ keys.
Proof.
  unfold insertion_order.
  assert (Hgen : ∀ order, k ∈ foldl (λ order k, if decide (k ∈ order) then order
                                         else order ++ [k]) order keys
                          ↔ k ∈ order ∨ k ∈ keys).
  { induction keys as [|x xs IH]; intros order; simpl.
    - rewrite elem_of_nil. tauto.
    - rewrite IH, elem_of_cons. case_decide.
      + split; [tauto|]. intros [?|[->|?]]; tauto.
      + rewrite elem_of_app, list_elem_of_singleton. tauto. }
  rewrite Hgen, elem_of_nil. tauto.
Qed.

Lemma bind_nil {A B} (f : A → list B) (l : list A) :
  l ≫= f = [] ↔ ∀ x, x ∈ l → f x = [].
Proof.
  induction l as [|x l IH]; simpl.
  - split; [|done]. intros _ x Hx. by apply elem_of_nil in Hx.
  - split.
    + intros [Hx Hl]%app_eq_nil y [->|Hy]%elem_of_cons; [done|]. by apply IH.
    + intros Hall. rewrite (Hall x) by left. simpl. apply IH. intros y Hy.
      apply Hall. by right.
Qed.

Lemma snapshot_dict_lookup snapshot step status :
  snapshot_dict snapshot !! step = Some status →
  status ∈ snapshot ∧ StepStatus.step_id status = step.
Proof.
  unfold snapshot_dict.
  assert (Hgen : ∀ d : gmap StepID.t StepStatus.t,
    foldl (λ d status, <[StepStatus.step_id status := status]> d) d snapshot !! step
      = Some status →
    (status ∈ snapshot ∧ StepStatus.step_id status = step) ∨ d !! step = Some status).
  { induction snapshot as [|x xs IH]; intros d Hd; [by right|].
    simpl in Hd. destruct (IH _ Hd) as [[Hin Hk]|Hl].
    - left. split; [by right|done].
    - destruct (decide (StepStatus.step_id x = step)) as [Hx|Hx].
      + rewrite <- Hx, lookup_insert_eq in Hl. injection Hl as ->. left.
        split; [by left|done].
      + rewrite lookup_insert_ne in Hl by done. by right. }
  intros Hl. destruct (Hgen ∅ Hl) as [?|Hl']; [done|]. by rewrite lookup_empty in Hl'.
Qed.

Lemma last_orientation_Some annotations step o :
  last_orientation annotations step = Some o →
  step ∈ StepAnnotation.step_id <$> annotations.
Proof.
  unfold last_orientation.
  assert (Hgen : ∀ last,
    foldl (λ last a, if decide (StepAnnotation.step_id a = step)
                     then Some (StepAnnotation.orientation a) else last)
      last annotations = Some o →
    last = Some o ∨ step ∈ StepAnnotation.step_id <$> annotations).
  { induction annotations as [|a l IH]; intros last Hl; simpl in Hl; [by left|].
    rewrite fmap_cons. destruct (IH _ Hl) as [Hc|Hin].
    - case_decide as Ha; [right; rewrite <- Ha; left|by left].
    - right. by right. }
  intros Hl. by destruct (Hgen None Hl).
Qed.

(** What [verify_errors] finds nothing against. *)
Lemma verify_errors_nil config asset snapshot :
  verify_errors config asset snapshot = [] ↔
  (∀ step, did_complete (snapshot_dict snapshot) step = true ↔
           expected_completed config asset step) ∧
  orientations_agree asset (snapshot_dict snapshot).
Proof.
  unfold verify_errors. cbv zeta.
  set (annotations := DemoAsset.annotations asset).
  set (dict := snapshot_dict snapshot).
  split.
  - intros [Hann Hst]%app_eq_nil.
    pose proof (proj1 (bind_nil _ _) Hann) as Hann'.
    pose proof (proj1 (bind_nil _ _) Hst) as Hst'.
    clear Hann Hst. rename Hann' into Hann, Hst' into Hst. cbv beta in Hann, Hst.
    split.
    + intros step. unfold expected_completed. fold annotations. split.
      * intros Hdid.
        assert (Hin : step ∈ StepAnnotation.step_id <$> annotations).
        { destruct (decide (step ∈ StepAnnotation.step_id <$> annotations)) as [|Hn]; [done|].
          exfalso. pose proof Hdid as Hdid'. unfold did_complete in Hdid'.
          destruct (dict !! step) as [status|] eqn:Hl; [|done].
          destruct (snapshot_dict_lookup _ _ _ Hl) as [Hs Hk].
          specialize (Hst step). rewrite elem_of_insertion_order in Hst.
          assert (Hkey : step ∈ StepStatus.step_id <$> snapshot).
          { rewrite <- Hk. by apply list_elem_of_fmap_2. }
          specialize (Hst Hkey). rewrite Hdid in Hst.
          rewrite bool_decide_eq_true_2 in Hst; [done|].
          by rewrite elem_of_insertion_order. }
        split; [done|].
        specialize (Hann step). rewrite elem_of_insertion_order in Hann.
        specialize (Hann Hin). apply app_eq_nil in Hann as [Hann _].
        rewrite Hdid in Hann. simpl in Hann.
        destruct (Z.leb_spec (required_ms config step) (annotation_duration annotations step));
          [done|]. simpl in Hann. done.
      * intros [Hin Hreq].
        specialize (Hann step). rewrite elem_of_insertion_order in Hann.
        specialize (Hann Hin). apply app_eq_nil in Hann as [Hann _].
        rewrite (proj2 (Z.leb_le _ _) Hreq) in Hann. simpl in Hann.
        by destruct (did_complete dict step).
    + intros step status o Hl Hc Hlast Hne.
      pose proof (last_orientation_Some _ _ _ Hlast) as Hin.
      specialize (Hann step). rewrite elem_of_insertion_order in Hann.
      specialize (Hann Hin). apply app_eq_nil in Hann as [_ Hann].
      fold dict in Hl. rewrite Hl in Hann. fold annotations in Hlast. rewrite Hlast in Hann.
      unfold did_complete in Hann. rewrite Hl in Hann.
      rewrite (bool_decide_eq_true_2 _ Hc), (bool_decide_eq_true_2 _ Hne) in Hann.
      simpl in Hann. case_bool_decide as Ho; [done|].
      destruct (decide (StepStatus.orientation status = o)); [done|contradiction].
  - intros [Hiff Hor]. apply app_nil. split; apply bind_nil.
    + intros step Hin. rewrite elem_of_insertion_order in Hin.
      apply app_nil. split.
      * destruct (did_complete dict step) eqn:Hdid.
        -- apply Hiff in Hdid as [_ Hreq]. fold annotations in Hreq.
           by rewrite (proj2 (Z.leb_le _ _) Hreq).
        -- destruct (Z.leb_spec (required_ms config step)
                       (annotation_duration annotations step)) as [Hle|Hlt]; [|done].
           exfalso. assert (Hd : did_complete dict step = true) by (by apply Hiff).
           congruence.
      * destruct (dict !! step) as [status|] eqn:Hl; [|done].
        destruct (last_orientation annotations step) as [o|] eqn:Hlast; [|done].
        unfold did_complete. rewrite Hl.
        case_bool_decide as Hc; [|done]. case_bool_decide as Hne; [|done].
        simpl. rewrite bool_decide_eq_false_2; [done|].
        intros Hneq. apply Hneq. by apply (Hor step status o).
    + intros step Hin. case_bool_decide as Hn; [|done]. simpl.
      rewrite elem_of_insertion_order in Hn.
      destruct (did_complete dict step) eqn:Hdid; [|done].
      apply Hiff in Hdid as [Hin' _]. done.
Qed.

(** C7, as the code has it: after a replay, verification passes exactly
    when the steps marked COMPLETED are the annotated steps whose annotations
    add up to the threshold at least, and every completed step shows the
    orientation of its last annotation (when that is not NONE). *)
Theorem verification_passes_iff self asset_id asset :
  DemoManifest.get (_manifest self) asset_id = Some asset →
  ∃ passed,
    _verify_asset self asset_id = Ok passed ∧
    (passed = true ↔
       (∀ step,
          did_complete
            (snapshot_dict (InterpreterStateMachine.snapshot (_interpreter self))) step
          = true
          ↔ expected_completed (_config self) asset step) ∧
       orientations_agree asset
         (snapshot_dict (InterpreterStateMachine.snapshot (_interpreter self)))).
Proof.
  intros Hget. unfold _verify_asset, DemoManifest.require. rewrite Hget.
  cbn [mbind result_bind]. eexists. split; [reflexivity|].
  rewrite bool_decide_eq_true. apply verify_errors_nil.
Qed.

End VerifyFacts.

Module DemoWitness.
Import DemoApp VerifyFacts DemoScenario.

(** The completion set is compared step by step. *)
Lemma completion_set_decide config asset snapshot :
  forallb (λ step, bool_decide (did_complete snapshot step
                                = bool_decide (expected_completed config asset step)))
    StepID.all = true →
  ∀ step, did_complete snapshot step = true ↔ expected_completed config asset step.
Proof.
  intros Hall step. rewrite forallb_forall in Hall.
  assert (Hin : In step StepID.all) by (destruct step; simpl; tauto).
  apply Hall, bool_decide_eq_true in Hin. rewrite Hin. apply bool_decide_eq_true.
Qed.

Lemma verification_passes_iff_witness :
  ∃ app,
    app_after 3000 "s5" = Some app ∧
    ∃ passed,
      _verify_asset app "s5" = Ok passed ∧
      (passed = true ↔
         (∀ step,
            did_complete
              (snapshot_dict (InterpreterStateMachine.snapshot (_interpreter app))) step
            = true
            ↔ expected_completed (_config app) s5_asset step) ∧
         orientations_agree s5_asset
           (snapshot_dict (InterpreterStateMachine.snapshot (_interpreter app)))).
Proof.
  eexists. split; [vm_compute; reflexivity|].
  apply (verification_passes_iff _ "s5" s5_asset). vm_compute. reflexivity.
Defined.

(** Scenario S5 of the specification: both steps complete, step 3 with
    RIGHT_OVER_LEFT, and the run exits with 0. *)
Example s5_replay_passes :
  ∃ app,
    run GateScenario.uuid4 3000 "s5" = Ok (app, 0) ∧
    (λ status, (StepStatus.step_id status, StepStatus.state status,
                StepStatus.orientation status))
      <$> filter (λ status, StepStatus.state status = StepState.COMPLETED)
            (InterpreterStateMachine.snapshot (_interpreter app))
    = [(StepID.STEP_2, StepState.COMPLETED, StepOrientation.NONE);
       (StepID.STEP_3, StepState.COMPLETED, StepOrientation.RIGHT_OVER_LEFT)].
Proof. eexists. split; [vm_compute; reflexivity|]. vm_compute. reflexivity. Qed.

(** C7 as the specification words it fails on an asset that annotates
    step 3 first RIGHT_OVER_LEFT, then LEFT_OVER_RIGHT: with thresholds of
    200 ms the step completes during the first annotation and keeps its
    orientation, so the completed steps are exactly the expected ones, yet
    [_verify_asset] reports an orientation mismatch and [run] exits with 3. *)
Lemma completed_set_matches_yet_verification_fails :
  Replay.loaded_asset two_sided ∧
  ∃ app,
    run GateScenario.uuid4 200 "two-sided" = Ok (app, 3) ∧
    (∀ step,
       did_complete
         (snapshot_dict (InterpreterStateMachine.snapshot (_interpreter app))) step = true
       ↔ expected_completed (_config app) two_sided step) ∧
    _verify_asset app "two-sided" = Ok false ∧
    verify_errors (_config app) two_sided
      (InterpreterStateMachine.snapshot (_interpreter app))
    = [OrientationMismatch StepID.STEP_3 StepOrientation.LEFT_OVER_RIGHT
         StepOrientation.RIGHT_OVER_LEFT].
Proof.
  split.
  { split; [vm_compute; reflexivity|]. split; [vm_compute; discriminate|].
    repeat constructor; vm_compute; discriminate. }
  eexists. split; [vm_compute; reflexivity|]. split.
  - apply completion_set_decide. vm_compute. reflexivity.
  - split; vm_compute; reflexivity.
Qed.

End DemoWitness.

(** ** Replay determinism: two runs of [CaptureApp] on the same asset *)

Module TwoRunsFacts.
Import TwoRuns.

Lemma result_rel_bind {A A' B B'} (R : A → A' → Prop) (R' : B → B' → Prop)
    (m1 : result A) (m2 : result A') (k1 : A → result B) (k2 : A' → result B') :
  result_rel R m1 m2 →
  (∀ a a', R a a' → result_rel R' (k1 a) (k2 a')) →
  result_rel R' (m1 ≫= k1) (m2 ≫= k2).
Proof. destruct m1, m2; simpl; intros Hm Hk; try done. by apply Hk. Qed.

Lemma result_rel_refl {A} (r : result A) : result_rel eq r r.
Proof. by destruct r. Qed.

Lemma result_rel_mono {A B} (R R' : A → B → Prop) r1 r2 :
  (∀ a b, R a b → R' a b) → result_rel R r1 r2 → result_rel R' r1 r2.
Proof. destruct r1, r2; simpl; auto. Qed.

Lemma logged_rel_bind {A A' B B'} (R : A → A' → Prop) (R' : B → B' → Prop)
    (m1 : logged A) (m2 : logged A') (k1 : A → logged B) (k2 : A' → logged B') :
  logged_rel R m1 m2 →
  (∀ a a', R a a' → logged_rel R' (k1 a) (k2 a')) →
  logged_rel R' (m1 ≫= k1) (m2 ≫= k2).
Proof.
  destruct m1 as [w1 [a1|e1]], m2 as [w2 [a2|e2]]; intros [Hw Ho] Hk;
    simpl in *; try done.
  destruct (Hk _ _ Ho) as [Hw' Ho']. split; [|done].
  unfold mbind, logged_bind. simpl. rewrite !fmap_app. by f_equal.
Qed.

Lemma logged_rel_quiet {A B} (R : A → B → Prop) r1 r2 :
  result_rel R r1 r2 → logged_rel R (quiet r1) (quiet r2).
Proof. by split. Qed.

Lemma logged_rel_ret {A B} (R : A → B → Prop) a b :
  R a b → logged_rel R (mret a) (mret b).
Proof. by split. Qed.

Lemma logged_rel_for_each {S S' A} (R : S → S' → Prop) (xs : list A)
    (body1 : S → A → logged S) (body2 : S' → A → logged S') :
  (∀ s s' x, R s s' → logged_rel R (body1 s x) (body2 s' x)) →
  ∀ s s', R s s' → logged_rel R (for_each_logged xs body1 s) (for_each_logged xs body2 s').
Proof.
  intros Hbody. induction xs as [|x xs IH]; intros s s' Hs; simpl.
  - by apply logged_rel_ret.
  - eapply logged_rel_bind; [by apply Hbody|]. intros. by apply IH.
Qed.

End TwoRunsFacts.

Module TwoRunsInterpreter.
Import TwoRuns TwoRunsFacts InterpreterStateMachine InterpreterState.
Section WithLed.
Context {L : Type} (H1 H2 : LedPublisher L).
Implicit Types (s : InterpreterStateMachine.t L).

Lemma interp_rel_init config (led1 led2 : option L) :
  interp_rel (__init__ config led1) (__init__ config led2).
Proof.
  split; try done; try apply InterpreterInv.wf_init.
Qed.

Lemma interp_rel_start_session s1 s2 id1 id2 ts :
  interp_rel s1 s2 → id1 ≠ "" → id2 ≠ "" →
  result_rel interp_rel (start_session (H := H1) s1 id1 ts) (start_session (H := H2) s2 id2 ts).
Proof.
  intros [W1 W2 E1 E2 E3 E4 E5 E6] Hid1 Hid2.
  destruct (InterpreterInv.start_session_spec (H := H1) s1 id1 ts W1)
    as (s1' & -> & A1 & A2 & A3 & A4 & A5 & A6 & A7).
  destruct (InterpreterInv.start_session_spec (H := H2) s2 id2 ts W2)
    as (s2' & -> & B1 & B2 & B3 & B4 & B5 & B6 & B7).
  simpl. split; try done; try congruence.
  - rewrite A3, B3. simpl.
    apply String.eqb_neq in Hid1, Hid2. by rewrite Hid1, Hid2.
  - apply map_eq. intros k. rewrite A4, B4, E2. done.
Qed.

Lemma interp_rel_process_signals s1 s2 signals ts :
  interp_rel s1 s2 →
  result_rel interp_rel (process_signals (H := H1) s1 signals ts)
    (process_signals (H := H2) s2 signals ts).
Proof.
  intros Hrel. pose proof Hrel as [W1 W2 E1 E2 E3 E4 E5 E6].
  destruct (truthy_str (_session_id s1)) eqn:Hs1.
  - destruct (InterpreterInv.process_signals_spec (H := H1) s1 signals ts W1 Hs1)
      as (s1' & -> & A1 & A2 & A3 & A4 & A5 & A6 & A7).
    destruct (InterpreterInv.process_signals_spec (H := H2) s2 signals ts W2)
      as (s2' & -> & B1 & B2 & B3 & B4 & B5 & B6 & B7); [congruence|].
    simpl. split; try done; try congruence.
    + apply map_eq. intros k.
      destruct (_step_statuses s1 !! k) as [st|] eqn:Hst.
      * destruct (wf_keys s1 W1 k st Hst) as [_ Hin].
        destruct (wf_thresholds s1 W1 k Hin) as [th Hth].
        destruct (A5 k st th Hst Hth) as [-> _].
        destruct (B5 k st th) as [-> _]; [congruence..|].
        by rewrite (E5 k Hin).
      * rewrite (A4 k Hst), (B4 k); [done|congruence].
    + intros k Hin. rewrite A2 in Hin.
      destruct (wf_present s1 W1 Hs1 k Hin) as [st Hst].
      destruct (wf_thresholds s1 W1 k Hin) as [th Hth].
      destruct (A5 k st th Hst Hth) as [_ ->].
      destruct (B5 k st th) as [_ ->]; [congruence..|].
      by rewrite (E5 k Hin).
    + rewrite A6, B6, E6, E2. f_equal. apply list_bind_ext; [|done].
      intros k. unfold step_events. rewrite <- E4, <- E1.
      destruct (_step_statuses s1 !! k) as [st|] eqn:Hst; [|done].
      destruct (wf_keys s1 W1 k st Hst) as [_ Hin]. by rewrite (E5 k Hin).
  - rewrite (InterpreterInv.process_signals_idle (H := H1)) by done.
    rewrite (InterpreterInv.process_signals_idle (H := H2)) by congruence. done.
Qed.

Lemma interp_rel_end_session s1 s2 ts :
  interp_rel s1 s2 →
  interp_rel (end_session (H := H1) s1 ts) (end_session (H := H2) s2 ts).
Proof.
  intros [W1 W2 E1 E2 E3 E4 E5 E6].
  destruct (InterpreterReach.end_session_spec (H := H1) s1 ts) as (A1 & A2 & A3 & A4 & A5 & A6).
  destruct (InterpreterReach.end_session_spec (H := H2) s2 ts) as (B1 & B2 & B3 & B4 & B5 & B6).
  split; try congruence.
  - by apply InterpreterReach.wf_end_session.
  - by apply InterpreterReach.wf_end_session.
  - intros k Hin. rewrite A5, B5. apply E5. by rewrite <- A2.
Qed.

Lemma interp_rel_snapshot s1 s2 : interp_rel s1 s2 → snapshot s1 = snapshot s2.
Proof. intros [W1 W2 E1 E2 E3 E4 E5 E6]. unfold snapshot. by rewrite E2, E4. Qed.

Lemma interp_rel_uncertainty_events s1 s2 :
  interp_rel s1 s2 → uncertainty_events s1 = uncertainty_events s2.
Proof. intros []. done. Qed.

End WithLed.
End TwoRunsInterpreter.

Module TwoRunsGate.
Import TwoRuns TwoRunsFacts SessionManager.
Section WithUuid.
Variables uuid4 uuid4' : nat → string.
Hypothesis uuid4_truthy : ∀ n, uuid4 n ≠ "".
Hypothesis uuid4'_truthy : ∀ n, uuid4' n ≠ "".

Lemma _end_session_rel m1 m2 ts reason :
  gate_rel m1 m2 →
  gate_call_rel m1 m2 (_end_session m1 ts reason) (_end_session m2 ts reason).
Proof.
  intros [E1 E2 E3 E4 E5 E6].
  destruct m1 as [cfg w act c1 st la u1], m2 as [cfg2 w2 act2 c2 st2 la2 u2];
    simpl in *; subst.
  unfold _end_session. simpl.
  assert (Hquiet : ∀ c1 c2, ids_rel c1 c2 →
    gate_call_rel (mk cfg2 w2 act2 c1 st2 la2 u1) (mk cfg2 w2 act2 c2 st2 la2 u2)
      (mk cfg2 w2 act2 c1 st2 la2 u1, []) (mk cfg2 w2 act2 c2 st2 la2 u2, [])).
  { intros. split; [by split|]. by apply gate_quiet. }
  destruct act2; [|by apply Hquiet].
  destruct c1 as [id1|], c2 as [id2|]; try done; try (by apply Hquiet).
  destruct st2 as [start|]; [|by apply Hquiet].
  destruct E4 as [Hid1 Hid2].
  split; [by split|]. by eapply gate_ended.
Qed.

Lemma process_frame_rel m1 m2 packet :
  gate_rel m1 m2 →
  result_rel (gate_call_rel m1 m2) (process_frame uuid4 m1 packet)
    (process_frame uuid4' m2 packet).
Proof.
  intros Hrel. pose proof Hrel as [E1 E2 E3 E4 E5 E6].
  unfold process_frame.
  assert (Hm : _meets_start_conditions m1 packet = _meets_start_conditions m2 packet).
  { unfold _meets_start_conditions. by rewrite E1. }
  rewrite Hm. destruct (_meets_start_conditions m2 packet) as [gate_ok|e]; [|done].
  cbn [mbind result_bind _session_active _start_window _config _last_active_ts].
  rewrite E1, E2, E3, E5, E6.
  destruct (_session_active m2) eqn:Hact; cbn [negb].
  - destruct gate_ok.
    + split; [by split|]. by apply gate_quiet.
    + destruct (_last_active_ts m2) as [last|]; [|by split; [split|apply gate_quiet]].
      case_match; [|by split; [split|apply gate_quiet]].
      simpl.
      set (m1' := mk _ _ _ (_current_session_id m1) _ _ _).
      set (m2' := mk _ _ _ (_current_session_id m2) _ _ _).
      assert (Hrel' : gate_rel m1' m2') by (by split).
      destruct (_end_session_rel m1' m2' (FramePacket.timestamp_ms packet) "timeout" Hrel')
        as [Hg Hs].
      split; [done|].
      destruct Hs as [-> -> Ha Hb|e1 e2 -> -> He Ht Ha Hb|e1 e2 -> -> He Ht Ha Hb Hc Hd].
      * by apply gate_quiet.
      * by eapply gate_started.
      * by eapply gate_ended.
  - case_match.
    + split; [by split|].
      eapply gate_started; [reflexivity|reflexivity|split; simpl; auto|done..].
    + split; [by split|]. by apply gate_quiet.
Qed.

Lemma reset_rel m1 m2 :
  gate_rel m1 m2 → gate_call_rel m1 m2 (reset m1) (reset m2).
Proof.
  intros Hrel. pose proof Hrel as [E1 E2 E3 E4 E5 E6].
  unfold reset. rewrite E3, E6. destruct (_session_active m2) eqn:Hact.
  - destruct (_end_session_rel m1 m2 (default 0 (_last_active_ts m2)) "reset" Hrel)
      as [[F1 F2 F3 F4 F5 F6] Hs].
    destruct (_end_session m1 _ _) as [m1' ev1], (_end_session m2 _ _) as [m2' ev2].
    simpl in *. split; [split; simpl; congruence|]. simpl.
    destruct Hs as [-> -> Ha Hb|e1 e2 -> -> He Ht Ha Hb|e1 e2 -> -> He Ht Ha Hb Hc Hd].
    + by apply gate_quiet.
    + by eapply gate_started.
    + by eapply gate_ended.
  - split; [split; simpl; congruence|]. by apply gate_quiet.
Qed.

End WithUuid.
End TwoRunsGate.

Module TwoRunsLogger.
Import TwoRuns TwoRunsFacts SessionLogger.
Section WithClock.
Variable _ms_to_iso : Z → result string.
Variable date_bucket : Z → result string.

Lemma register_signals_session_id v state signals latency :
  register_signals (_SessionState.set_session_id v state) signals latency
  = _SessionState.set_session_id v (register_signals state signals latency).
Proof.
  unfold register_signals.
  set (body := λ '(state, saw_model_signal) signal, _).
  assert (Hloop : ∀ state saw,
    foldl body (_SessionState.set_session_id v state, saw) signals
    = (_SessionState.set_session_id v (foldl body (state, saw) signals).1,
       (foldl body (state, saw) signals).2)).
  { assert (Hbody : ∀ st saw signal,
      body (_SessionState.set_session_id v st, saw) signal
      = (_SessionState.set_session_id v (body (st, saw) signal).1,
         (body (st, saw) signal).2)).
    { intros st saw signal. unfold body. by destruct (bool_decide _). }
    induction signals as [|signal signals IH]; intros st saw; [done|].
    cbn [foldl]. rewrite Hbody.
    destruct (body (st, saw) signal) as [st' saw']. apply IH. }
  rewrite Hloop. destruct (foldl body (state, false) signals) as [st saw]. simpl.
  destruct latency as [latency|]; [|done]. by destruct saw.
Qed.

Lemma state_rel_register s1 s2 signals latency :
  state_rel s1 s2 →
  state_rel (register_signals s1 signals latency) (register_signals s2 signals latency).
Proof.
  unfold state_rel. intros Hs.
  by rewrite <- !register_signals_session_id, Hs.
Qed.

Lemma serialize_statuses_stats s1 s2 statuses :
  _SessionState.step_stats s1 = _SessionState.step_stats s2 →
  ∀ total, serialize_statuses _ms_to_iso s1 statuses total
           = serialize_statuses _ms_to_iso s2 statuses total.
Proof.
  intros Hs. induction statuses as [|status rest IH]; intros total; [done|].
  simpl. rewrite Hs. destruct (_serialize_step_status _ _ _); [|done]. simpl.
  by rewrite IH.
Qed.

Lemma _build_record_rel s1 s2 end_ts statuses uncertainties :
  state_rel s1 s2 →
  result_rel record_rel (_build_record _ms_to_iso s1 end_ts statuses uncertainties)
    (_build_record _ms_to_iso s2 end_ts statuses uncertainties).
Proof.
  unfold state_rel. intros Hs.
  destruct s1, s2. unfold _SessionState.set_session_id in Hs. simpl in Hs.
  injection Hs as -> -> -> -> -> -> -> -> -> -> -> -> -> -> ->.
  unfold _build_record.
  match goal with
  | |- context [serialize_statuses _ ?s1 statuses 0 ≫= _] =>
      match goal with
      | |- result_rel _ _ (serialize_statuses _ ?s2 statuses 0 ≫= _) =>
          rewrite (serialize_statuses_stats s1 s2 statuses eq_refl 0)
      end
  end.
  destruct (serialize_statuses _ _ _ _) as [[payloads total]|]; [|done].
  cbn [mbind result_bind _SessionState.model_inference_count
       _SessionState.heuristic_fallback_count _SessionState.model_confidence_samples
       _SessionState.model_confidence_sum _SessionState.inference_latency_samples
       _SessionState.inference_latency_sum_ms _SessionState.start_ts_ms].
  repeat (eapply (result_rel_bind eq); [apply result_rel_refl|intros ? ? <-]).
  reflexivity.
Qed.

Lemma handle_session_ended_rel l1 l2 e1 e2 statuses uncertainties :
  event_rel e1 e2 →
  option_Forall2 state_rel (_sessions l1 !! SessionEvent.session_id e1)
    (_sessions l2 !! SessionEvent.session_id e2) →
  logged_rel (λ _ _, True)
    (handle_session_ended _ms_to_iso date_bucket l1 e1 statuses uncertainties)
    (handle_session_ended _ms_to_iso date_bucket l2 e2 statuses uncertainties).
Proof.
  intros [T I1 I2 Ts V D] Hl. unfold handle_session_ended.
  destruct Hl as [s1 s2 Hs|]; [|by apply logged_rel_ret].
  rewrite D.
  destruct (SessionEvent.details e2) as [roi|reason duration].
  - eapply logged_rel_bind.
    + apply logged_rel_quiet. rewrite Ts. by apply _build_record_rel.
    + intros r1 r2 Hr.
      eapply (logged_rel_bind (λ _ _, True)); [|intros; by apply logged_rel_ret].
      unfold _write_record.
      assert (Hst : _SessionState.start_ts_ms s1 = _SessionState.start_ts_ms s2).
      { unfold state_rel in Hs. by apply (f_equal _SessionState.start_ts_ms) in Hs. }
      rewrite Hst. destruct (date_bucket _); [|by split].
      split; [|done]. simpl. unfold without_session_id. simpl. by rewrite Hr.
  - set (t1 := if truthy_str (Some reason) then _ else _).
    set (t2 := if truthy_str (Some reason) then _ else _).
    assert (Hs' : state_rel t1 t2).
    { subst t1 t2. unfold state_rel in *.
      destruct s1, s2. unfold _SessionState.set_session_id in Hs. simpl in Hs.
      injection Hs as -> -> -> -> -> -> -> -> -> -> -> -> -> -> ->.
      by destruct (truthy_str (Some reason)). }
    eapply logged_rel_bind.
    + apply logged_rel_quiet. rewrite Ts. by apply _build_record_rel.
    + intros r1 r2 Hr.
      eapply (logged_rel_bind (λ _ _, True)); [|intros; by apply logged_rel_ret].
      unfold _write_record.
      assert (Hst : _SessionState.start_ts_ms t1 = _SessionState.start_ts_ms t2).
      { unfold state_rel in Hs'. by apply (f_equal _SessionState.start_ts_ms) in Hs'. }
      rewrite Hst. destruct (date_bucket _); [|by split].
      split; [|done]. simpl. unfold without_session_id. simpl. by rewrite Hr.
Qed.

End WithClock.
End TwoRunsLogger.

Module TwoRunsApp.
Import TwoRuns TwoRunsFacts TwoRunsInterpreter TwoRunsGate TwoRunsLogger CaptureApp.
Section WithEnvironment.
Variables uuid4 uuid4' : nat → string.
Variables transport transport' : list HttpRequest → HttpRequest → option string.
Variable _ms_to_iso : Z → result string.
Variable date_bucket : Z → result string.
Hypothesis uuid4_truthy : ∀ n, uuid4 n ≠ "".
Hypothesis uuid4'_truthy : ∀ n, uuid4' n ≠ "".

(** The callback, run on the events of a call of the session manager. *)
Lemma handle_events_rel a1 a2 m1 m2 events1 events2 :
  app_rel a1 a2 →
  gate_call_rel (_session_manager a1) (_session_manager a2) (m1, events1) (m2, events2) →
  logged_rel app_rel
    (for_each_logged events1 (_handle_session_event transport _ms_to_iso date_bucket)
       (set_session_manager m1 a1))
    (for_each_logged events2 (_handle_session_event transport' _ms_to_iso date_bucket)
       (set_session_manager m2 a2)).
Proof.
  intros [A1 A2 A3 A4 A5 A6 A7 A8 A9] [Hg Hs]. simpl in Hg, Hs.
  destruct Hs as [-> -> Ha Hb|e1 e2 -> -> He Ht Ha Hb|e1 e2 -> -> He Ht Ha Hb Hc Hd].
  - apply logged_rel_ret. split; simpl; try done. by rewrite Ha, Hb.
  - pose proof He as [T I1 I2 Ts V D].
    cbn [for_each_logged]. eapply logged_rel_bind; [|intros; by apply logged_rel_ret].
    unfold _handle_session_event. rewrite <- T, Ht.
    eapply logged_rel_bind.
    + apply logged_rel_quiet. cbn [set_session_manager _interpreter]. rewrite Ts.
      by apply interp_rel_start_session.
    + intros i1 i2 Hi. apply logged_rel_ret.
      split; simpl; try done. rewrite Ha, Hb. unfold logger_rel.
      unfold SessionLogger.handle_session_started. simpl.
      rewrite !lookup_insert_eq. constructor.
      unfold state_rel. simpl. by rewrite A1, A6, A7, A8, Ts, V.
  - pose proof He as [T I1 I2 Ts V D].
    cbn [for_each_logged]. eapply logged_rel_bind; [|intros; by apply logged_rel_ret].
    unfold _handle_session_event. rewrite <- T, Ht.
    cbn [set_session_manager _interpreter _session_logger].
    rewrite (interp_rel_snapshot _ _ A4), (interp_rel_uncertainty_events _ _ A4).
    eapply (logged_rel_bind (λ _ _, True)).
    + apply handle_session_ended_rel; [done|].
      unfold logger_rel in A5. by rewrite Ha, Hb in A5.
    + intros l1 l2 _. apply logged_rel_ret.
      split; simpl; try done.
      * rewrite Ts. by apply interp_rel_end_session.
      * by rewrite Hc, Hd.
Qed.

Lemma gate_frame_rel a1 a2 packet :
  app_rel a1 a2 →
  logged_rel app_rel (gate_frame uuid4 transport _ms_to_iso date_bucket a1 packet)
    (gate_frame uuid4' transport' _ms_to_iso date_bucket a2 packet).
Proof.
  intros Ha. unfold gate_frame.
  eapply logged_rel_bind.
  - apply logged_rel_quiet. apply process_frame_rel; [done..|]. apply Ha.
  - intros [m1 ev1] [m2 ev2] Hcall. by apply handle_events_rel.
Qed.

Lemma reset_gate_rel a1 a2 :
  app_rel a1 a2 →
  logged_rel app_rel (reset_gate transport _ms_to_iso date_bucket a1)
    (reset_gate transport' _ms_to_iso date_bucket a2).
Proof.
  intros Ha. unfold reset_gate.
  pose proof (reset_rel _ _ (app_gate _ _ _ _ Ha)) as Hcall.
  destruct (SessionManager.reset (_session_manager a1)) as [m1 ev1].
  destruct (SessionManager.reset (_session_manager a2)) as [m2 ev2].
  by apply handle_events_rel.
Qed.

Lemma _process_packet_rel a1 a2 packet :
  app_rel a1 a2 →
  logged_rel app_rel (_process_packet uuid4 transport _ms_to_iso date_bucket a1 packet)
    (_process_packet uuid4' transport' _ms_to_iso date_bucket a2 packet).
Proof.
  intros Ha. unfold _process_packet.
  eapply logged_rel_bind; [by apply gate_frame_rel|].
  clear a1 a2 Ha. intros a1 a2 [A1 A2 A3 A4 A5 A6 A7 A8 A9].
  pose proof A3 as [G1 G2 G3 G4 G5 G6].
  rewrite G3, A2, A9.
  destruct (SessionManager._session_active (_session_manager a2) || log_steps a2) eqn:Hneeds.
  - destruct (DemoSignalSynthesizer.generate _ packet) as [synthesizer signals].
    destruct (SessionManager._session_active (_session_manager a2)).
    + cbn [set_demo_synthesizer set_session_logger _session_manager _interpreter
           _session_logger].
      eapply logged_rel_bind.
      * apply logged_rel_quiet. by apply interp_rel_process_signals.
      * intros i1 i2 Hi. apply logged_rel_ret. split; simpl; try done.
        unfold logger_rel in *.
        destruct (SessionManager._current_session_id (_session_manager a1)) as [id1|],
          (SessionManager._current_session_id (_session_manager a2)) as [id2|]; try done.
        destruct G4 as [Hid1 Hid2].
        unfold SessionLogger.record_step_signals.
        apply String.eqb_neq in Hid1, Hid2. simpl. rewrite Hid1, Hid2. simpl.
        destruct (SessionLogger._sessions (_session_logger a1) !! id1) as [s1|] eqn:Hl1,
          (SessionLogger._sessions (_session_logger a2) !! id2) as [s2|] eqn:Hl2;
          inversion A5; subst; simpl.
        -- rewrite !lookup_insert_eq. constructor. by apply state_rel_register.
        -- rewrite Hl1, Hl2. constructor.
    + apply logged_rel_ret. by split.
  - destruct (SessionManager._session_active (_session_manager a2)); [done|].
    apply logged_rel_ret. by split.
Qed.

Lemma __init___rel config demo_asset log_steps model_version :
  result_rel app_rel (__init__ transport config demo_asset log_steps model_version)
    (__init__ transport' config demo_asset log_steps model_version).
Proof.
  unfold __init__, SessionManager.__init__.
  destruct (Deque.new _) as [window|]; [|done].
  cbn [mbind result_bind].
  destruct (Detectors.build_default_runner config) as [runner|]; [|done].
  cbn [mbind result_bind result_rel].
  split; simpl; try done. apply interp_rel_init.
Qed.

Lemma _run_demo_asset_rel a1 a2 manifest demo_asset :
  app_rel a1 a2 →
  logged_rel eq
    (_run_demo_asset uuid4 transport _ms_to_iso date_bucket a1 manifest demo_asset)
    (_run_demo_asset uuid4' transport' _ms_to_iso date_bucket a2 manifest demo_asset).
Proof.
  intros Ha. unfold _run_demo_asset.
  eapply (logged_rel_bind eq).
  { apply logged_rel_quiet. unfold _apply_demo_thresholds. apply result_rel_refl. }
  intros _ _ _.
  eapply logged_rel_bind.
  { unfold _prime_demo_session. rewrite (app_config _ _ _ _ Ha).
    apply logged_rel_for_each; [|done]. intros. by apply gate_frame_rel. }
  clear a1 a2 Ha. intros a1 a2 Ha.
  rewrite (app_config _ _ _ _ Ha).
  eapply (logged_rel_bind eq).
  { apply logged_rel_quiet. apply result_rel_refl. }
  intros packets ? <-.
  eapply logged_rel_bind.
  { apply logged_rel_for_each; [|done]. intros s s' x Hs.
    rewrite (app_config _ _ _ _ Hs). by apply _process_packet_rel. }
  clear a1 a2 Ha. intros a1 a2 Ha.
  eapply logged_rel_bind; [by apply reset_gate_rel|].
  intros. by apply logged_rel_ret.
Qed.

End WithEnvironment.


End TwoRunsApp.

Module TwoRunsWitness.
Import TwoRunsApp CaptureScenario.



(** The two runs write one record each, under different identifiers. *)
Example s5_records :
  ∃ record1 record2,
    first_run = Logged [("-1.jsonl", record1)] (Ok 0) ∧
    second_run = Logged [("-1.jsonl", record2)] (Ok 0) ∧
    SessionRecord.session_id record1 = "session-0" ∧
    SessionRecord.session_id record2 = "replay-7" ∧
    SessionRecord.total_rubbing_ms record1 = 6000 ∧
    StepPayload.state <$> SessionRecord.step_statuses record1
    = ["COMPLETED"; "COMPLETED"; "NOT_STARTED"; "NOT_STARTED"; "NOT_STARTED"; "NOT_STARTED"] ∧
    SessionRecord.notes record1 = ["duration_ms=6361"; "reason=reset"].
Proof.
  eexists _, _. split; [vm_compute; reflexivity|]. split; [vm_compute; reflexivity|].
  repeat split.
Qed.

End TwoRunsWitness.

(** ** Loops *)

Module LoopFacts.

(** What every turn of a loop keeps, the loop keeps. *)
Lemma for_each_preserves {S A} (P : S → Prop) (body : S → A → result S) (l : list A) :
  (∀ x a x', P x → body x a = Ok x' → P x') →
  ∀ x x', P x → for_each l body x = Ok x' → P x'.
Proof.
  intros Hbody. induction l as [|a l IH]; intros x x' HP Hrun; simpl in Hrun.
  - by injection Hrun as <-.
  - destruct (body x a) as [x1|] eqn:Hx1; [|done]. simpl in Hrun. eauto.
Qed.

Lemma for_each_app {S A} (body : S → A → result S) (l1 l2 : list A) (x : S) :
  for_each (l1 ++ l2) body x = (x1 ← for_each l1 body x; for_each l2 body x1).
Proof.
  revert x. induction l1 as [|a l1 IH]; intros x; [done|].
  cbn [app for_each]. destruct (body x a) as [x1|]; [|done]. cbn [mbind result_bind].
  apply IH.
Qed.

End LoopFacts.

(** ** The order of binary64 values, from the specification of the comparisons *)
Module FloatOrder.

Local Ltac cmp_cases :=
  repeat match goal with
    | H : context [Z.compare ?a ?b] |- _ => destruct (Z.compare_spec a b)
    | |- context [Z.compare ?a ?b] => destruct (Z.compare_spec a b)
    | H : context [PosDef.Pos.compare_cont Eq ?a ?b] |- _ =>
        change (PosDef.Pos.compare_cont Eq a b) with (Pos.compare a b) in *;
        destruct (Pos.compare_spec a b)
    | |- context [PosDef.Pos.compare_cont Eq ?a ?b] =>
        change (PosDef.Pos.compare_cont Eq a b) with (Pos.compare a b) in *;
        destruct (Pos.compare_spec a b)
    end;
  simpl in *; try discriminate; try reflexivity; try lia.

Lemma SFltb_irrefl x : SFltb x x = false.
Proof.
  unfold SFltb, SFcompare. destruct x as [[]|[]| |[] m e]; try done;
    rewrite Z.compare_refl;
    change (PosDef.Pos.compare_cont Eq m m) with (Pos.compare m m);
    by rewrite Pos.compare_refl.
Qed.

Lemma SFltb_trans x y z : SFltb x y = true → SFltb y z = true → SFltb x z = true.
Proof.
  unfold SFltb, SFcompare.
  destruct x as [[]|[]| |[] mx ex], y as [[]|[]| |[] my ey], z as [[]|[]| |[] mz ez];
    try discriminate; try reflexivity; intros Hxy Hyz; cmp_cases.
Qed.

Lemma SFltb_asym x y : SFltb x y = true → SFltb y x = false.
Proof.
  intros Hxy. destruct (SFltb y x) eqn:Hyx; [|done].
  pose proof (SFltb_trans _ _ _ Hxy Hyx) as Hxx. by rewrite SFltb_irrefl in Hxx.
Qed.

Lemma SFltb_SFleb x y : SFltb x y = true → SFleb y x = false.
Proof.
  unfold SFltb, SFleb, SFcompare.
  destruct x as [[]|[]| |[] mx ex], y as [[]|[]| |[] my ey];
    try discriminate; try reflexivity; intros Hxy; cmp_cases.
Qed.

Lemma SFleb_SFltb_trans x y z : SFleb x y = true → SFltb y z = true → SFltb x z = true.
Proof.
  unfold SFltb, SFleb, SFcompare.
  destruct x as [[]|[]| |[] mx ex], y as [[]|[]| |[] my ey], z as [[]|[]| |[] mz ez];
    try discriminate; try reflexivity; intros Hxy Hyz; cmp_cases.
Qed.

Lemma ltb_irrefl (x : float) : PrimFloat.ltb x x = false.
Proof. rewrite ltb_spec. apply SFltb_irrefl. Qed.

Lemma ltb_trans (x y z : float) :
  PrimFloat.ltb x y = true → PrimFloat.ltb y z = true → PrimFloat.ltb x z = true.
Proof. rewrite !ltb_spec. apply SFltb_trans. Qed.

Lemma ltb_asym (x y : float) : PrimFloat.ltb x y = true → PrimFloat.ltb y x = false.
Proof. rewrite !ltb_spec. apply SFltb_asym. Qed.

Lemma ltb_leb (x y : float) : PrimFloat.ltb x y = true → PrimFloat.leb y x = false.
Proof. rewrite ltb_spec, leb_spec. apply SFltb_SFleb. Qed.

Lemma leb_ltb_trans (x y z : float) :
  PrimFloat.leb x y = true → PrimFloat.ltb y z = true → PrimFloat.ltb x z = true.
Proof. rewrite !ltb_spec, leb_spec. apply SFleb_SFltb_trans. Qed.

(** [max(a, b)] is never below either argument. *)
Lemma py_max_float_ge_l a b : PrimFloat.ltb (py_max_float a b) a = false.
Proof.
  unfold py_max_float. destruct (PrimFloat.ltb a b) eqn:Hab.
  - by apply ltb_asym.
  - apply ltb_irrefl.
Qed.

Lemma py_max_float_ge_r a b : PrimFloat.ltb a b = PrimFloat.ltb a (py_max_float a b).
Proof.
  unfold py_max_float. destruct (PrimFloat.ltb a b) eqn:Hab; [done|].
  symmetry. apply ltb_irrefl.
Qed.

End FloatOrder.

Module SessionGateMore.
Import SessionManager SessionGate SessionGateFacts SessionGateStream SessionEvents.

Section WithUuid.
Variable uuid4 : nat → string.

Lemma reachable_idle_inv self : reachable uuid4 self → idle_inv self.
Proof.
  induction 1 as [config self Hinit|self packet self' events Hreach IH Hp|self Hreach IH].
  - unfold __init__ in Hinit. destruct (Deque.new _); simplify_eq/=. done.
  - destruct (reachable_gate_inv uuid4 self Hreach) as [I1 I2 I3].
    unfold process_frame in Hp.
    rewrite gate_ok_spec in Hp. cbn [mbind result_bind] in Hp. simpl in Hp.
    destruct (_session_active self) eqn:Hact; simpl in Hp.
    + destruct (I3 Hact) as ([sid Hsid] & [start Hstart] & [last Hlast]).
      destruct (gate_ok self packet).
      * simplify_eq/=. intros Ha. simpl in Ha. congruence.
      * rewrite Hlast in Hp. case_match; simplify_eq/=.
        -- unfold _end_session in *. simpl in *. rewrite Hsid, Hstart in *.
           simplify_eq/=. done.
        -- intros Ha. simpl in Ha. congruence.
    + specialize (IH Hact). case_match; simplify_eq/=.
      * intros Ha. simpl in Ha. done.
      * intros _. simpl. done.
  - destruct (reachable_gate_inv uuid4 self Hreach) as [I1 I2 I3].
    unfold reset. destruct (_session_active self) eqn:Hact.
    + destruct (I3 Hact) as ([sid Hsid] & [start Hstart] & [last Hlast]).
      unfold _end_session. rewrite Hact, Hsid, Hstart. done.
    + specialize (IH Hact). intros _. simpl. done.
Qed.

(** With [start_window_frames = 0] the window is [deque(maxlen=0)]: it
    stays empty, an empty window counts as full and all-true, and the very
    first frame opens a session whether or not it meets the start
    conditions. *)
Theorem empty_window_opens_on_any_frame config self packet :
  SessionConfig.start_window_frames (Config.session config) = 0 →
  __init__ config = Ok self →
  ∃ self',
    process_frame uuid4 self packet =
      Ok (self',
          [SessionEvent.mk SessionEventType.STARTED (uuid4 0%nat)
             (FramePacket.timestamp_ms packet) (Config.config_version config)
             (StartedDetails (Config.roi config))]) ∧
    _session_active self' = true ∧
    _current_session_id self' = Some (uuid4 0%nat) ∧
    _session_start_ts self' = Some (FramePacket.timestamp_ms packet) ∧
    Deque.items (_start_window self') = [].
Proof.
  intros Hzero Hinit. unfold __init__, Deque.new in Hinit. rewrite Hzero in Hinit.
  simpl in Hinit. injection Hinit as <-.
  unfold process_frame. rewrite gate_ok_spec. cbn [mbind result_bind]. simpl.
  eexists. split; [reflexivity|]. done.
Qed.

(** [reset()] on a reachable manager: an active session is ended with
    reason "reset" at [last_active_ts] (the duration being clamped at 0), an
    idle manager emits nothing; either way the manager is left idle with an
    empty window, and a second [reset()] emits nothing. *)
Theorem reset_ends_the_session_once self :
  reachable uuid4 self →
  let self' := (reset self).1 in
  let events := (reset self).2 in
  _session_active self' = false ∧
  _current_session_id self' = None ∧
  _session_start_ts self' = None ∧
  Deque.items (_start_window self') = [] ∧
  _config self' = _config self ∧
  uuid_calls self' = uuid_calls self ∧
  (_session_active self = false → events = []) ∧
  (_session_active self = true →
     ∃ sid start last,
       _current_session_id self = Some sid ∧ _session_start_ts self = Some start ∧
       _last_active_ts self = Some last ∧
       events = [SessionEvent.mk SessionEventType.ENDED sid last
                   (Config.config_version (_config self))
                   (EndedDetails "reset" (Z.max 0 (last - start)))]) ∧
  (reset self').2 = [].
Proof.
  intros Hreach self' events. subst self' events.
  destruct (reachable_gate_inv uuid4 self Hreach) as [I1 I2 I3].
  unfold reset. destruct (_session_active self) eqn:Hact.
  - destruct (I3 Hact) as ([sid Hsid] & [start Hstart] & [last Hlast]).
    unfold _end_session. rewrite Hact, Hsid, Hstart, Hlast. simpl.
    split_and!; try done. intros _. by exists sid, start, last.
  - destruct (reachable_idle_inv self Hreach Hact) as (Hc & Hs & Hl). simpl.
    rewrite Hact. by split_and!.
Qed.

Lemma process_frame_bracket self packet self' events rest :
  reachable uuid4 self →
  process_frame uuid4 self packet = Ok (self', events) →
  well_bracketed uuid4 (_current_session_id self') (uuid_calls self') rest →
  well_bracketed uuid4 (_current_session_id self) (uuid_calls self) (events ++ rest).
Proof.
  intros Hreach Hp Hrest.
  destruct (reachable_gate_inv uuid4 self Hreach) as [I1 I2 I3].
  pose proof (reachable_idle_inv self Hreach) as Hidle.
  unfold process_frame in Hp.
  rewrite gate_ok_spec in Hp. cbn [mbind result_bind] in Hp. simpl in Hp.
  destruct (_session_active self) eqn:Hact; simpl in Hp.
  - destruct (I3 Hact) as ([sid Hsid] & [start Hstart] & [last Hlast]).
    destruct (gate_ok self packet).
    + by simplify_eq/=.
    + rewrite Hlast in Hp. case_match; simplify_eq/=; [|done].
      unfold _end_session in *. simpl in *. rewrite Hsid, Hstart in *.
      simplify_eq/=. rewrite ?Hsid. simpl. done.
  - destruct (Hidle Hact) as (Hc & _). case_match; simplify_eq/=; [|done].
    rewrite ?Hc. simpl. done.
Qed.

(** Whatever frames a reachable manager is fed, it raises nothing, and the
    events it emits alternate STARTED and ENDED: each start carries the next
    identifier [uuid4()] hands out, each end names the session the last
    start opened. *)
Theorem session_events_are_well_bracketed packets : ∀ self,
  reachable uuid4 self →
  ∃ self' events,
    process_frames uuid4 self packets = Ok (self', events) ∧
    well_bracketed uuid4 (_current_session_id self) (uuid_calls self) (concat events).
Proof.
  induction packets as [|packet packets IH]; intros self Hreach.
  - by exists self, [].
  - cbn [process_frames].
    destruct (process_frame uuid4 self packet) as [[self1 events1]|e] eqn:Hp.
    2: { unfold process_frame in Hp. rewrite gate_ok_spec in Hp.
         cbn [mbind result_bind] in Hp. by repeat case_match. }
    assert (Hreach1 : reachable uuid4 self1) by (by eapply reachable_process_frame).
    cbn [mbind result_bind].
    destruct (IH self1 Hreach1) as (self' & events & -> & Hwb).
    cbn [mbind result_bind]. exists self', (events1 :: events). split; [done|].
    simpl. by eapply process_frame_bracket.
Qed.

End WithUuid.
End SessionGateMore.

Module SessionGateMoreWitness.
Import SessionManager SessionGate SessionGateFacts SessionGateStream SessionEvents
  SessionGateMore GateScenario GateMoreScenario SessionGateWitness.

Lemma empty_window_opens_on_any_frame_witness :
  ∃ self',
    process_frame uuid4 gate_zero (still 0) =
      Ok (self',
          [SessionEvent.mk SessionEventType.STARTED (uuid4 0%nat)
             (FramePacket.timestamp_ms (still 0)) (Config.config_version zero_window)
             (StartedDetails (Config.roi zero_window))]) ∧
    _session_active self' = true ∧
    _current_session_id self' = Some (uuid4 0%nat) ∧
    _session_start_ts self' = Some (FramePacket.timestamp_ms (still 0)) ∧
    Deque.items (_start_window self') = [].
Proof.
  apply (empty_window_opens_on_any_frame uuid4 zero_window gate_zero (still 0));
    reflexivity.
Defined.

(** The frame that opens the session does not meet the start conditions. *)
Example still_frame_is_not_gate_ok : gate_ok gate_zero (still 0) = false.
Proof. vm_compute. reflexivity. Qed.

Lemma reset_ends_the_session_once_witness :
  _session_active (reset gate_active).1 = false ∧
  _current_session_id (reset gate_active).1 = None ∧
  _session_start_ts (reset gate_active).1 = None ∧
  Deque.items (_start_window (reset gate_active).1) = [] ∧
  _config (reset gate_active).1 = _config gate_active ∧
  uuid_calls (reset gate_active).1 = uuid_calls gate_active ∧
  (_session_active gate_active = false → (reset gate_active).2 = []) ∧
  (_session_active gate_active = true →
     ∃ sid start last,
       _current_session_id gate_active = Some sid ∧
       _session_start_ts gate_active = Some start ∧
       _last_active_ts gate_active = Some last ∧
       (reset gate_active).2
       = [SessionEvent.mk SessionEventType.ENDED sid last
            (Config.config_version (_config gate_active))
            (EndedDetails "reset" (Z.max 0 (last - start)))]) ∧
  (reset (reset gate_active).1).2 = [].
Proof.
  apply (reset_ends_the_session_once uuid4 gate_active).
  apply after_reachable, gate0_reachable.
Defined.

Lemma session_events_are_well_bracketed_witness :
  ∃ self' events,
    process_frames uuid4 gate0 two_sessions = Ok (self', events) ∧
    well_bracketed uuid4 (_current_session_id gate0) (uuid_calls gate0) (concat events).
Proof.
  apply (session_events_are_well_bracketed uuid4 two_sessions gate0).
  apply gate0_reachable.
Defined.

(** The stream opens a session, times it out, and opens a second one. *)
Example two_sessions_events :
  ∃ self' events,
    process_frames uuid4 gate0 two_sessions = Ok (self', events) ∧
    (λ e, (SessionEvent.event_type e, SessionEvent.session_id e,
           SessionEvent.timestamp_ms e)) <$> concat events
    = [(SessionEventType.STARTED, "session-0", 200);
       (SessionEventType.ENDED, "session-0", 900);
       (SessionEventType.STARTED, "session-1", 1200)].
Proof. eexists _, _. split; [vm_compute; reflexivity|]. vm_compute. reflexivity. Qed.

End SessionGateMoreWitness.

Module LedClientMore.
Import Esp8266Client LedClientCalls.
Section WithTransport.
Variable transport : list HttpRequest → HttpRequest → option string.

Lemma StepID_value_eqb step step' :
  String.eqb (StepID.value step) (StepID.value step') = bool_decide (step = step').
Proof. by destruct step, step'. Qed.

Lemma last_signal_snoc_signal requests payload step :
  last_signal (requests ++ [POST_signal payload]) step
  = if String.eqb (LedPayload.step_id payload) (StepID.value step)
    then Some (LedPayload.state payload) else last_signal requests step.
Proof. unfold last_signal. by rewrite foldl_snoc. Qed.

Lemma last_signal_snoc_reset requests step :
  last_signal (requests ++ [POST_reset]) step = None.
Proof. unfold last_signal. by rewrite foldl_snoc. Qed.

Lemma run_call_log_inv self call : log_inv self → log_inv (run_call transport self call).
Proof.
  intros Hinv. destruct call as [session_id|step_id state ts|]; cbn [run_call].
  - unfold start_session. destruct (negb _); [done|].
    unfold log_inv, _reset_leds, post.
    cbn [sent _disabled _session_id _last_states _config fst snd]. intros _ _ step.
    by rewrite last_signal_snoc_reset, lookup_empty.
  - unfold publish.
    destruct (negb (Esp8266Config.enabled (_config self)) || _disabled self
              || negb (truthy_str (_session_id self))) eqn:Hgate; [done|].
    apply orb_false_elim in Hgate as [Hgate Hsess].
    apply orb_false_elim in Hgate as [_ Hdis].
    apply negb_false_iff in Hsess.
    case_bool_decide as Hdup; [done|].
    unfold post. cbn [fst snd sent _config _session_id _disabled _last_error _last_states].
    destruct (transport _ _) as [reason|].
    + unfold _disable, log_inv.
      cbn [sent _disabled _session_id _last_states _config fst snd]. rewrite Hdis.
      cbn [sent _disabled _session_id _last_states _config fst snd]. done.
    + unfold log_inv.
      cbn [sent _disabled _session_id _last_states _config fst snd]. intros _ _ step.
      rewrite last_signal_snoc_signal. unfold _build_payload. cbn [LedPayload.step_id LedPayload.state].
      rewrite StepID_value_eqb. case_bool_decide as Hk.
      * subst. by rewrite lookup_insert_eq.
      * rewrite lookup_insert_ne by done. by apply Hinv.
  - unfold end_session. intros _ Hs. done.
Qed.

(** Through any calls on a new client, and whatever the endpoint answers:
    while a session is under way and the client is not disabled, the state
    it remembers for a step is the state of the last [/signal] request it
    issued for that step since the last [/reset] (and it remembers none
    exactly when there is no such request). Skipping a publish of the
    remembered state therefore never hides a change from the log. *)
Theorem remembered_led_states_match_the_log config calls :
  let self := run_calls transport (__init__ config) calls in
  _disabled self = false → truthy_str (_session_id self) = true →
  ∀ step, last_signal (sent self) step
          = LedSignalState.value <$> (_last_states self !! step).
Proof.
  cbv zeta. unfold run_calls.
  assert (Hgen : ∀ self, log_inv self → log_inv (foldl (run_call transport) self calls)).
  { induction calls as [|call calls IH]; intros self Hinv; [done|].
    cbn [foldl]. by apply IH, run_call_log_inv. }
  apply Hgen. intros _ Hs. done.
Qed.

(** A client built from a configuration with [enabled] off never issues a
    request and never reports a delivery, whatever is called on it. *)
Theorem disabled_config_never_sends config calls :
  Esp8266Config.enabled config = false →
  sent (run_calls transport (__init__ config) calls) = [] ∧
  ∀ step state ts,
    publish transport (run_calls transport (__init__ config) calls) step state ts
    = (run_calls transport (__init__ config) calls, false).
Proof.
  intros Hoff. unfold run_calls.
  assert (Hgen : ∀ self, Esp8266Config.enabled (_config self) = false → sent self = [] →
    Esp8266Config.enabled (_config (foldl (run_call transport) self calls)) = false ∧
    sent (foldl (run_call transport) self calls) = []).
  { induction calls as [|call calls IH]; intros self Hc Hs; [done|].
    cbn [foldl]. apply IH.
    - destruct call; cbn [run_call]; unfold start_session, publish, end_session;
        rewrite ?Hc; done.
    - destruct call; cbn [run_call]; unfold start_session, publish, end_session;
        rewrite ?Hc; done. }
  destruct (Hgen (__init__ config) Hoff eq_refl) as [Hc Hs].
  split; [done|]. intros step state ts. unfold publish. by rewrite Hc.
Qed.

End WithTransport.
End LedClientMore.

Module LedClientMoreWitness.
Import Esp8266Client LedClientCalls LedClientMore LedCallsScenario.

Lemma remembered_led_states_match_the_log_witness :
  _disabled (run_calls flaky (__init__ LedScenario.led_config) calls) = false ∧
  truthy_str (_session_id (run_calls flaky (__init__ LedScenario.led_config) calls)) = true ∧
  ∀ step,
    last_signal (sent (run_calls flaky (__init__ LedScenario.led_config) calls)) step
    = LedSignalState.value
        <$> (_last_states (run_calls flaky (__init__ LedScenario.led_config) calls) !! step).
Proof.
  split; [vm_compute; reflexivity|]. split; [vm_compute; reflexivity|].
  apply (remembered_led_states_match_the_log flaky LedScenario.led_config calls);
    vm_compute; reflexivity.
Defined.

(** Five calls, four requests: the second publish of CURRENT for step 2
    is skipped. *)
Example calls_log :
  (λ request,
     match request with
     | POST_reset => ("reset", "")
     | POST_signal payload => (LedPayload.step_id payload, LedPayload.state payload)
     end) <$> sent (run_calls flaky (__init__ LedScenario.led_config) calls)
  = [("reset", ""); ("STEP_2", "CURRENT"); ("STEP_2", "COMPLETED"); ("STEP_3", "CURRENT")].
Proof. vm_compute. reflexivity. Qed.

Lemma disabled_config_never_sends_witness :
  sent (run_calls flaky (__init__ disabled_config) calls) = [] ∧
  ∀ step state ts,
    publish flaky (run_calls flaky (__init__ disabled_config) calls) step state ts
    = (run_calls flaky (__init__ disabled_config) calls, false).
Proof.
  apply (disabled_config_never_sends flaky disabled_config calls). reflexivity.
Defined.

End LedClientMoreWitness.

Module InterpreterMore.
Import InterpreterStateMachine InterpreterRun InterpreterState InterpreterFacts
  InterpreterLoop InterpreterInv InterpreterReach.
Section WithLed.
Context {L : Type} `{LedPublisher L}.
Implicit Types (self s : InterpreterStateMachine.t L).

(** Once [end_session] has run, the machine ignores signals, uncertainty
    reports and further [end_session] calls until the next
    [start_session], and keeps showing the final statuses and uncertainty
    events of the session. *)
Theorem ended_session_is_inert s ts signals ts' reason details :
  process_signals (end_session s ts) signals ts' = Ok (end_session s ts) ∧
  record_uncertainty (end_session s ts) reason ts' details = end_session s ts ∧
  end_session (end_session s ts) ts' = end_session s ts ∧
  snapshot (end_session s ts) = snapshot s ∧
  uncertainty_events (end_session s ts) = uncertainty_events s.
Proof.
  destruct (end_session_spec s ts) as (E1 & E2 & E3 & E4 & E5 & E6).
  split_and!.
  - by apply process_signals_idle.
  - unfold record_uncertainty. by rewrite E3.
  - unfold end_session at 1. by rewrite E3.
  - unfold snapshot. by rewrite E2, E4.
  - done.
Qed.

(** [start_session] on any reachable machine raises nothing and leaves one
    fresh status per configured step, in the order of the configuration:
    NOT_STARTED, nothing accumulated, no orientation, no uncertainty; the
    uncertainty events of the previous session are gone. *)
Theorem start_session_gives_fresh_statuses s session_id ts :
  reachable s →
  ∃ s',
    start_session s session_id ts = Ok s' ∧
    snapshot s' = StepStatus.new <$> _step_order s ∧
    uncertainty_events s' = [] ∧
    _session_id s' = Some session_id ∧
    _step_order s' = _step_order s ∧
    reachable s'.
Proof.
  intros Hreach. pose proof (reachable_wf s Hreach) as Hwf.
  destruct (start_session_spec s session_id ts Hwf)
    as (s' & Hs & E1 & E2 & E3 & E4 & E5 & E6 & Hwf').
  exists s'. split_and!; try done.
  - unfold snapshot, dict_values. rewrite E2.
    assert (Hgen : ∀ l : list StepID.t, (∀ k, k ∈ l → k ∈ _step_order s) →
      omap (λ k, _step_statuses s' !! k) l = StepStatus.new <$> l).
    { induction l as [|k l IH]; intros Hin; [done|].
      cbn [omap list_omap fmap list_fmap]. rewrite E4.
      rewrite decide_True by (apply Hin; left). simpl. f_equal.
      apply IH. intros k' Hk'. apply Hin. by right. }
    by apply Hgen.
  - by eapply reachable_start_session.
Qed.

Lemma spec_update_step_monotone d sig ts st last :
  let st' := (spec_update_step d sig ts st last).1.1 in
  StepStatus.step_id st' = StepStatus.step_id st ∧
  StepStatus.accumulated_ms st ≤ StepStatus.accumulated_ms st' ∧
  StepStatus.uncertainty_count st ≤ StepStatus.uncertainty_count st' ≤
    StepStatus.uncertainty_count st + 1 ∧
  (StepStatus.state st' = StepState.NOT_STARTED → st' = st) ∧
  (StepStatus.uncertainty_count st' = StepStatus.uncertainty_count st + 1 →
     StepStatus.state st = StepState.IN_PROGRESS ∧
     StepStatus.state st' = StepState.UNCERTAIN).
Proof.
  unfold spec_update_step. case_bool_decide as Hc; [simpl; split_and!; try done; lia|].
  assert (Hdelta : ∀ t, 0 ≤ match last with Some l => 0 `max` (t - l) | None => 0 end).
  { intros t. destruct last; lia. }
  destruct sig as [[? so ? [] t ? ?]|]; simpl.
  - specialize (Hdelta t).
    destruct (_ <=? _); simpl; split_and!; try done; try lia.
  - case_bool_decide; simpl; split_and!; try done; try lia.
  - case_bool_decide; simpl; split_and!; try done; try lia.
Qed.

(** Within a session, a frame never takes progress away: for every step,
    [accumulated_ms] does not decrease, [uncertainty_count] grows by one at
    most (and only when the step goes from IN_PROGRESS to UNCERTAIN), and a
    step that has left NOT_STARTED never returns to it. *)
Theorem progress_is_monotone s signals ts k st :
  reachable s → truthy_str (_session_id s) = true →
  _step_statuses s !! k = Some st →
  ∃ s' st',
    process_signals s signals ts = Ok s' ∧
    _step_statuses s' !! k = Some st' ∧
    StepStatus.step_id st' = StepStatus.step_id st ∧
    StepStatus.accumulated_ms st ≤ StepStatus.accumulated_ms st' ∧
    StepStatus.uncertainty_count st ≤ StepStatus.uncertainty_count st' ≤
      StepStatus.uncertainty_count st + 1 ∧
    (StepStatus.state st' = StepState.NOT_STARTED → st' = st) ∧
    (StepStatus.uncertainty_count st' = StepStatus.uncertainty_count st + 1 →
       StepStatus.state st = StepState.IN_PROGRESS ∧
       StepStatus.state st' = StepState.UNCERTAIN).
Proof.
  intros Hreach Hsess Hst. pose proof (reachable_wf s Hreach) as Hwf.
  destruct (process_signals_spec s signals ts Hwf Hsess)
    as (s' & Hs & E1 & E2 & E3 & E4 & E5 & E6 & Hwf').
  destruct (wf_keys s Hwf k st Hst) as [_ Hin].
  destruct (wf_thresholds s Hwf k Hin) as [th Hth].
  destruct (E5 k st th Hst Hth) as [Hst' _].
  eexists s', _. split; [done|]. split; [done|].
  apply spec_update_step_monotone.
Qed.

(** [_select_active_signal] returns nothing exactly when no signal is
    confident; otherwise it returns a confident signal of the list that no
    confident signal of the list beats in confidence. *)
Theorem select_active_signal_is_most_confident (signals : list StepSignal.t) :
  match _select_active_signal signals with
  | None => ∀ sig, sig ∈ signals → StepSignal.is_confident sig = false
  | Some best =>
      best ∈ signals ∧ StepSignal.is_confident best = true ∧
      ∀ sig, sig ∈ signals → StepSignal.is_confident sig = true →
             PrimFloat.ltb (StepSignal.confidence best) (StepSignal.confidence sig) = false
  end.
Proof.
  unfold _select_active_signal.
  set (confident := filter (λ sig, StepSignal.is_confident sig = true) signals).
  assert (Hconf : ∀ sig, sig ∈ confident ↔ sig ∈ signals ∧ StepSignal.is_confident sig = true).
  { intros sig. subst confident. rewrite list_elem_of_filter. tauto. }
  destruct confident as [|first rest] eqn:Hc.
  - intros sig Hin. destruct (StepSignal.is_confident sig) eqn:His; [|done].
    assert (sig ∈ []) as Hn by (apply Hconf; done). by apply elem_of_nil in Hn.
  - set (pick := λ best sig, if PrimFloat.ltb _ _ then sig else best).
    assert (Hfold : ∀ l best seen,
      best ∈ seen →
      (∀ sig, sig ∈ seen →
         PrimFloat.ltb (StepSignal.confidence best) (StepSignal.confidence sig) = false) →
      foldl pick best l ∈ seen ++ l ∧
      ∀ sig, sig ∈ seen ++ l →
        PrimFloat.ltb (StepSignal.confidence (foldl pick best l))
          (StepSignal.confidence sig) = false).
    { induction l as [|x l IH]; intros best seen Hbest Hseen.
      - rewrite app_nil_r. done.
      - cbn [foldl]. rewrite (cons_middle x seen l), app_assoc. apply IH.
        + unfold pick. case_match; apply elem_of_app; [right; left|by left].
        + intros sig [Hsig| ->%list_elem_of_singleton]%elem_of_app; unfold pick;
            destruct (PrimFloat.ltb (StepSignal.confidence best) (StepSignal.confidence x))
              eqn:Hbx; try done.
          * destruct (PrimFloat.ltb (StepSignal.confidence x) (StepSignal.confidence sig))
              eqn:Hxs; [|done].
            pose proof (FloatOrder.ltb_trans _ _ _ Hbx Hxs) as Hbs.
            by rewrite (Hseen sig Hsig) in Hbs.
          * by apply Hseen.
          * apply FloatOrder.ltb_irrefl. }
    destruct (Hfold rest first [first]) as [Hin Hmax].
    { left. }
    { intros sig ->%list_elem_of_singleton. apply FloatOrder.ltb_irrefl. }
    change ([first] ++ rest) with (first :: rest) in Hin, Hmax.
    assert (Hbest : foldl pick first rest ∈ signals ∧
                    StepSignal.is_confident (foldl pick first rest) = true)
      by (by apply Hconf).
    split; [apply Hbest|]. split; [apply Hbest|].
    intros sig Hsig His. apply Hmax, Hconf. done.
Qed.

End WithLed.
End InterpreterMore.

Module InterpreterActiveStep.
Import InterpreterStateMachine InterpreterRun InterpreterState InterpreterFacts
  InterpreterLoop InterpreterInv InterpreterReach.
Section WithLed.
Context {L : Type} `{LedPublisher L}.
Implicit Types (self s : InterpreterStateMachine.t L).

Ltac frame_tac :=
  repeat (simpl; match goal with
  | |- context [match ?x with _ => _ end] => destruct x eqn:?
  end); try reflexivity.

Lemma _emit_event_active s et ts st state d :
  _active_step_id (_emit_event s et ts st state d) = _active_step_id s.
Proof. unfold _emit_event. frame_tac. Qed.

Lemma _send_led_signal_active s k st ts force :
  _active_step_id (_send_led_signal s k st ts force) = _active_step_id s.
Proof. unfold _send_led_signal. frame_tac. Qed.

Lemma _send_led_signal_statuses s k st ts force :
  _step_statuses (_send_led_signal s k st ts force) = _step_statuses s.
Proof. unfold _send_led_signal. frame_tac. Qed.

Lemma _sync_led_active_active s p c ts :
  _active_step_id (_sync_led_active s p c ts) = _active_step_id s.
Proof.
  unfold _sync_led_active.
  destruct (_led_client s); [|done].
  set (s1 := match p with Some _ => _ | None => _ end).
  assert (Hs1 : _active_step_id s1 = _active_step_id s).
  { subst s1. destruct p; [|done]. destruct (_ !! _); [|done].
    case_bool_decide; [|done]. apply _send_led_signal_active. }
  destruct c; [|done]. destruct (_ !! _); [|done].
  by rewrite _send_led_signal_active.
Qed.

Lemma _emit_active_step_active s ts p :
  _active_step_id (_emit_active_step s ts p) = _active_step_id s.
Proof.
  unfold _emit_active_step. case_match; [done|].
  by rewrite _sync_led_active_active, _emit_event_active.
Qed.

Lemma _set_active_step_active s k ts : _active_step_id (_set_active_step s k ts) = k.
Proof.
  unfold _set_active_step. case_bool_decide; [done|].
  by rewrite _emit_active_step_active.
Qed.

Lemma record_uncertainty_active s reason ts details :
  _active_step_id (record_uncertainty s reason ts details) = _active_step_id s.
Proof.
  unfold record_uncertainty. case_match; [done|]. by rewrite _emit_event_active.
Qed.

Lemma _publish_status_active s st ts force s' :
  _publish_status s st ts force = Ok s' → _active_step_id s' = _active_step_id s.
Proof.
  unfold _publish_status.
  destruct (negb (truthy_str (_session_id s))); [by intros [= <-]|].
  destruct (negb force && _); [by intros [= <-]|].
  destruct (dict_item _ _) as [th|]; [|done]. cbn [mbind result_bind].
  case_bool_decide; intros [= <-].
  - by rewrite _send_led_signal_active, _emit_event_active.
  - by rewrite _emit_event_active.
Qed.

Lemma _update_step_active s k st th sig ts s' :
  _update_step s k st th sig ts = Ok s' → _active_step_id s' = _active_step_id s.
Proof.
  unfold _update_step. case_bool_decide; [by intros [= <-]|].
  set (r := match confident_signal sig with Some _ => _ | None => _ end).
  assert (Hr : _active_step_id r.1 = _active_step_id s).
  { subst r. destruct (confident_signal sig).
    - destruct (andb _ _); reflexivity.
    - case_bool_decide; [|reflexivity]. cbn [fst]. by rewrite record_uncertainty_active. }
  destruct r as [s1 st1]. cbn [fst] in Hr.
  destruct (orb _ _).
  - intros Hp. apply _publish_status_active in Hp. by rewrite Hp.
  - by intros [= <-].
Qed.

Lemma _end_led_session_active s ts :
  _active_step_id (_end_led_session s ts) = _active_step_id s.
Proof.
  unfold _end_led_session. destruct (_led_client s); [|done]. cbn.
  generalize (_step_order s). intros order. revert s.
  induction order as [|k order IH]; intros s; [done|].
  cbn [foldl]. by rewrite IH, _send_led_signal_active.
Qed.

Lemma end_session_active s ts :
  truthy_str (_session_id s) = true → _active_step_id (end_session s ts) = None.
Proof.
  intros Hs. unfold end_session. rewrite Hs. cbn [negb].
  set (s1 := _end_led_session _ _).
  assert (Hs1 : _active_step_id s1 = None).
  { subst s1. by rewrite _end_led_session_active, _set_active_step_active. }
  by destruct (_led_client s1).
Qed.

Lemma _begin_led_session_active s ts :
  _active_step_id (_begin_led_session s ts) = _active_step_id s.
Proof. unfold _begin_led_session. frame_tac. Qed.

Lemma start_session_active s sid ts s' :
  start_session s sid ts = Ok s' → _active_step_id s' = None.
Proof.
  unfold start_session. cbv zeta.
  destruct (_publish_all _ _ _) as [s1|] eqn:Hp; [|done]. cbn [mbind result_bind].
  intros [= <-]. rewrite _emit_active_step_active.
  unfold _publish_all in Hp.
  eapply (LoopFacts.for_each_preserves (λ s, _active_step_id s = None)); [| |exact Hp].
  - intros s2 a s3 Hs2 Ha. apply _publish_status_active in Ha. congruence.
  - by rewrite _begin_led_session_active.
Qed.

(** During a session, the active step after a frame is the step of the most
    confident of the frame's confident signals, and no step when the frame
    has no confident signal. *)
Theorem active_step_is_the_most_confident_step s signals ts :
  reachable s → truthy_str (_session_id s) = true →
  ∃ s',
    process_signals s signals ts = Ok s' ∧
    active_step_id s' = StepSignal.step_id <$> _select_active_signal signals.
Proof.
  intros Hreach Hsess. pose proof (reachable_wf s Hreach) as Hwf.
  destruct (process_signals_spec s signals ts Hwf Hsess) as (s' & Hs & _).
  exists s'. split; [done|].
  unfold process_signals in Hs. rewrite Hsess in Hs. cbn [negb] in Hs. cbv zeta in Hs.
  unfold active_step_id.
  eapply (LoopFacts.for_each_preserves
            (λ s, _active_step_id s = StepSignal.step_id <$> _select_active_signal signals));
    [| |exact Hs].
  - intros s1 k s2 Hs1. cbv beta.
    destruct (dict_item (_step_statuses s1) k) as [st|]; [|done]. cbn [mbind result_bind].
    destruct (dict_item (_step_thresholds s1) k) as [th|]; [|done]. cbn [mbind result_bind].
    intros Hu. apply _update_step_active in Hu. congruence.
  - apply _set_active_step_active.
Qed.

(** Outside a session no step is active: on every state the machine can
    reach, [active_step_id] is [None] whenever no session is open. *)
Theorem no_active_step_outside_a_session s :
  reachable s → truthy_str (_session_id s) = false → active_step_id s = None.
Proof.
  unfold active_step_id. induction 1 as [config led|s sid ts s' Hr IH Hs|s op s' Hr IH Hop];
    intros Hsess.
  - done.
  - by eapply start_session_active.
  - destruct op as [signals ts|reason ts details|ts]; simpl in Hop.
    + destruct (truthy_str (_session_id s)) eqn:Hs.
      * destruct (process_signals_spec s signals ts (reachable_wf s Hr) Hs)
          as (s1 & Hs1 & _ & _ & E3 & _).
        rewrite Hs1 in Hop. injection Hop as <-. congruence.
      * rewrite process_signals_idle in Hop by done. injection Hop as <-. by apply IH.
    + injection Hop as <-. rewrite record_uncertainty_active. apply IH.
      destruct (record_uncertainty_spec s reason ts details) as (_ & _ & E3 & _).
      by rewrite <- E3.
    + injection Hop as <-. destruct (truthy_str (_session_id s)) eqn:Hs.
      * by apply end_session_active.
      * unfold end_session. rewrite Hs. by apply IH.
Qed.

End WithLed.
End InterpreterActiveStep.

Module InterpreterMoreWitness.
Import InterpreterStateMachine InterpreterRun Scenario InterpreterMoreScenario
  InterpreterMore InterpreterActiveStep InterpreterWitness.

Lemma start_session_gives_fresh_statuses_witness :
  ∃ s',
    start_session machine3 "session-2" 900 = Ok s' ∧
    snapshot s' = StepStatus.new <$> _step_order machine3 ∧
    uncertainty_events s' = [] ∧
    _session_id s' = Some "session-2" ∧
    _step_order s' = _step_order machine3 ∧
    reachable s'.
Proof.
  apply (start_session_gives_fresh_statuses machine3 "session-2" 900).
  exact machine3_reachable.
Defined.

Lemma progress_is_monotone_witness :
  ∃ s' st',
    process_signals machine3 [signal StepID.STEP_2 600] 600 = Ok s' ∧
    _step_statuses s' !! StepID.STEP_2 = Some st' ∧
    StepStatus.step_id st' = StepStatus.step_id status3 ∧
    StepStatus.accumulated_ms status3 ≤ StepStatus.accumulated_ms st' ∧
    StepStatus.uncertainty_count status3 ≤ StepStatus.uncertainty_count st' ≤
      StepStatus.uncertainty_count status3 + 1 ∧
    (StepStatus.state st' = StepState.NOT_STARTED → st' = status3) ∧
    (StepStatus.uncertainty_count st' = StepStatus.uncertainty_count status3 + 1 →
       StepStatus.state status3 = StepState.IN_PROGRESS ∧
       StepStatus.state st' = StepState.UNCERTAIN).
Proof.
  apply (progress_is_monotone machine3 [signal StepID.STEP_2 600] 600 StepID.STEP_2 status3).
  - exact machine3_reachable.
  - vm_compute; reflexivity.
  - vm_compute; reflexivity.
Defined.

Lemma active_step_is_the_most_confident_step_witness :
  ∃ s',
    process_signals machine3 two_signals 600 = Ok s' ∧
    active_step_id s' = StepSignal.step_id <$> _select_active_signal two_signals.
Proof.
  apply (active_step_is_the_most_confident_step machine3 two_signals 600).
  - exact machine3_reachable.
  - vm_compute; reflexivity.
Defined.

Example two_signals_active_step :
  StepSignal.step_id <$> _select_active_signal two_signals = Some StepID.STEP_4.
Proof. vm_compute. reflexivity. Qed.

Lemma no_active_step_outside_a_session_witness :
  truthy_str (_session_id (end_session machine3 700)) = false ∧
  active_step_id (end_session machine3 700) = None.
Proof.
  split; [vm_compute; reflexivity|].
  apply (no_active_step_outside_a_session (end_session machine3 700)).
  - apply (reachable_op machine3 (OpEndSession 700)); [exact machine3_reachable|reflexivity].
  - vm_compute; reflexivity.
Defined.

End InterpreterMoreWitness.

Module ManifestLoaderFacts.
Import ManifestLoader.
Section WithFileSystem.
Variable strip : string → string.
Variable resolve_file : string → result string.

Lemma _require_positive_int_ge obj key allow_zero value :
  _require_positive_int obj key allow_zero = Ok value →
  (if allow_zero then 0 else 1) ≤ value.
Proof.
  unfold _require_positive_int. cbv zeta.
  destruct (dict_get obj key) as [[|b|z| | | |]|]; try done.
  - destruct (Z.ltb_spec (Z.b2z b) (if allow_zero then 0 else 1)); [done|]. by intros [= <-].
  - destruct (Z.ltb_spec z (if allow_zero then 0 else 1)); [done|]. by intros [= <-].
Qed.

Lemma _require_positive_float_positive obj key value :
  _require_positive_float obj key = Ok value → PrimFloat.leb value 0 = false.
Proof.
  unfold _require_positive_float.
  destruct (dict_get obj key) as [[|b|z|f| | |]|]; try done; cbv zeta.
  - destruct (py_float_of_int _) as [r|]; [|done]. cbn [mbind result_bind].
    destruct (PrimFloat.leb r 0) eqn:Hr; [done|]. by intros [= <-].
  - destruct (py_float_of_int _) as [r|]; [|done]. cbn [mbind result_bind].
    destruct (PrimFloat.leb r 0) eqn:Hr; [done|]. by intros [= <-].
  - destruct (PrimFloat.leb f 0) eqn:Hr; [done|]. by intros [= <-].
Qed.

Lemma load_annotation_spec annotations annotation annotations' :
  load_annotation strip annotations annotation = Ok annotations' →
  ∃ a, annotations' = annotations ++ [a] ∧ Replay.loaded_annotation a.
Proof.
  unfold load_annotation. destruct annotation as [| | | | | |obj]; try done.
  destruct (_require_str strip obj "step_id") as [raw|]; [|done]. cbn [mbind result_bind].
  destruct (step_id_of raw) as [step|]; [|done]. cbn [mbind result_bind].
  destruct (orientation_of _) as [o|]; [|done]. cbn [mbind result_bind].
  destruct (_require_positive_int obj "start_ms" true) as [start|] eqn:Hstart; [|done].
  cbn [mbind result_bind].
  destruct (_require_positive_int obj "end_ms" false) as [stop|] eqn:Hstop; [|done].
  cbn [mbind result_bind].
  apply _require_positive_int_ge in Hstart, Hstop.
  destruct (Z.leb_spec stop start); [done|]. intros [= <-].
  eexists. split; [done|]. unfold Replay.loaded_annotation. simpl. lia.
Qed.

Lemma load_annotations_spec block : ∀ annotations annotations',
  Forall Replay.loaded_annotation annotations →
  for_each block (load_annotation strip) annotations = Ok annotations' →
  Forall Replay.loaded_annotation annotations'.
Proof.
  intros annotations annotations' Hall Hrun.
  eapply (LoopFacts.for_each_preserves (Forall Replay.loaded_annotation)); [|exact Hall|exact Hrun].
  intros x a x' Hx (a' & -> & Ha)%load_annotation_spec.
  apply Forall_app. split; [done|]. by constructor.
Qed.

Lemma load_entry_inv assets entry assets' :
  assets_inv assets →
  load_entry strip resolve_file assets entry = Ok assets' →
  assets_inv assets'.
Proof.
  intros [Hnd Hall]. unfold load_entry. destruct entry as [| | | | | |obj]; try done.
  destruct (_require_str strip obj "id") as [asset_id|]; [|done]. cbn [mbind result_bind].
  case_bool_decide as Hdup; [done|].
  destruct (_require_str strip obj "file") as [raw_file|]; [|done]. cbn [mbind result_bind].
  destruct (resolve_file raw_file) as [path|]; [|done]. cbn [mbind result_bind].
  destruct (_require_positive_float obj "fps") as [fps|] eqn:Hfps; [|done].
  cbn [mbind result_bind].
  destruct (_require_positive_int obj "total_frames" false) as [total|] eqn:Htotal; [|done].
  cbn [mbind result_bind].
  set (roi_result := match dict_get obj "roi" with None => _ | Some _ => _ end).
  assert (Hroi : ∀ roi, roi_result = Ok (Some roi) → loaded_roi roi).
  { subst roi_result. intros roi. destruct (dict_get obj "roi") as [[| | | | | |block]|]; try done.
    destruct (_require_positive_int block "x" true) as [x|] eqn:Hx; [|done].
    cbn [mbind result_bind].
    destruct (_require_positive_int block "y" true) as [y|] eqn:Hy; [|done].
    cbn [mbind result_bind].
    destruct (_require_positive_int block "width" false) as [w|] eqn:Hw; [|done].
    cbn [mbind result_bind].
    destruct (_require_positive_int block "height" false) as [h|] eqn:Hh; [|done].
    cbn [mbind result_bind]. intros [= <-].
    apply _require_positive_int_ge in Hx, Hy, Hw, Hh. by unfold loaded_roi. }
  destruct roi_result as [roi|]; [|done]. cbn [mbind result_bind].
  destruct (match dict_get obj "annotations" with None => _ | Some _ => _ end)
    as [block|]; [|done]. cbn [mbind result_bind].
  destruct (for_each block _ _) as [annotations|] eqn:Hann; [|done]. cbn [mbind result_bind].
  intros [= <-]. apply load_annotations_spec in Hann; [|constructor].
  split.
  - rewrite fmap_app. apply NoDup_app. split; [done|]. split.
    + intros x Hx ->%list_elem_of_singleton. done.
    + apply NoDup_singleton.
  - intros id asset [Hin|Hin%list_elem_of_singleton]%elem_of_app; [by apply Hall|].
    injection Hin as -> ->. simpl. split; [done|]. split.
    + split; [by eapply _require_positive_float_positive|].
      split; [by apply _require_positive_int_ge in Htotal|done].
    + intros r ->. by apply Hroi.
Qed.

Lemma get_of_NoDup manifest asset_id asset :
  NoDup (DemoManifest.assets manifest).*1 →
  (asset_id, asset) ∈ DemoManifest.assets manifest →
  DemoManifest.get manifest asset_id = Some asset.
Proof.
  unfold DemoManifest.get. generalize (DemoManifest.assets manifest). intros assets.
  induction assets as [|[id a] assets IH]; intros Hnd Hin.
  - by apply elem_of_nil in Hin.
  - apply NoDup_cons in Hnd as [Hid Hnd]. cbn [list_find]. cbn [fst].
    case_decide as Heq.
    + apply elem_of_cons in Hin as [[= <- <-]|Hin]; [done|].
      exfalso. apply Hid. subst id. by apply (list_elem_of_fmap_2 fst _ (asset_id, asset)).
    + apply elem_of_cons in Hin as [[= -> ->]|Hin]; [done|].
      specialize (IH Hnd Hin). rewrite <- IH.
      by destruct (list_find _ assets) as [[? []]|].
Qed.

(** A manifest that [load_manifest] returns names every asset once, files
    it under its own id, and holds only assets with a frame rate above
    zero, one frame at least, annotations with [0 <= start_ms < end_ms], and
    a region of interest (when given) with a corner at or above zero and a
    width and a height of one at least. *)
Theorem loaded_manifest_is_well_formed contents manifest :
  load_manifest strip resolve_file contents = Ok manifest →
  NoDup (DemoManifest.assets manifest).*1 ∧
  ∀ asset_id asset, (asset_id, asset) ∈ DemoManifest.assets manifest →
    DemoManifest.get manifest asset_id = Some asset ∧
    DemoAsset.asset_id asset = asset_id ∧
    Replay.loaded_asset asset ∧
    (∀ roi, DemoAsset.roi asset = Some roi → loaded_roi roi).
Proof.
  unfold load_manifest. destruct contents as [[data|]|]; try done. cbn [mbind result_bind].
  destruct data as [| | | | | |data]; try done.
  destruct (dict_get data "version") as [[| | | |version| |]|]; try done.
  destruct (dict_get data "assets") as [[| | | | |block|]|]; try done.
  destruct (for_each block _ _) as [assets|] eqn:Hrun; [|done]. cbn [mbind result_bind].
  intros [= <-]. cbn [DemoManifest.assets].
  assert (Hinv : assets_inv assets).
  { eapply (LoopFacts.for_each_preserves assets_inv); [|
      |exact Hrun].
    - intros x a x' Hx Ha. by eapply load_entry_inv.
    - split; [constructor|]. intros ? ? Hin. by apply elem_of_nil in Hin. }
  destruct Hinv as [Hnd Hall]. split; [done|].
  intros id asset Hin. split; [by apply get_of_NoDup|]. by apply Hall.
Qed.

End WithFileSystem.
End ManifestLoaderFacts.

Module ManifestLoaderWitness.
Import ManifestLoader ManifestLoaderFacts ManifestScenario.

Example document_loads :
  load_manifest strip resolve_file (Some (Ok document)) = Ok ReplayScenario.manifest.
Proof. vm_compute. reflexivity. Qed.

Lemma loaded_manifest_is_well_formed_witness :
  NoDup (DemoManifest.assets ReplayScenario.manifest).*1 ∧
  ∀ asset_id asset, (asset_id, asset) ∈ DemoManifest.assets ReplayScenario.manifest →
    DemoManifest.get ReplayScenario.manifest asset_id = Some asset ∧
    DemoAsset.asset_id asset = asset_id ∧
    Replay.loaded_asset asset ∧
    (∀ roi, DemoAsset.roi asset = Some roi → loaded_roi roi).
Proof.
  apply (loaded_manifest_is_well_formed strip resolve_file (Some (Ok document))
           ReplayScenario.manifest).
  vm_compute. reflexivity.
Defined.

End ManifestLoaderWitness.

Module ReplayMore.
Import Replay DemoSignalSynthesizer SynthesizerRun.

Lemma StepID_of_value_value step : StepID.of_value (StepID.value step) = Some step.
Proof. by destruct step. Qed.

Lemma StepOrientation_of_value_value o :
  StepOrientation.of_value (StepOrientation.value o) = Some o.
Proof. by destruct o. Qed.

Lemma _annotation_for_timestamp_Some annotations ts a :
  _annotation_for_timestamp annotations ts = Some a →
  a ∈ annotations ∧ StepAnnotation.start_ms a ≤ ts < StepAnnotation.end_ms a.
Proof.
  unfold _annotation_for_timestamp.
  destruct (list_find _ annotations) as [[i a']|] eqn:Hfind; [|done].
  intros [= <-]. apply list_find_Some in Hfind as (Hi & Hcover & _).
  split; [by eapply list_elem_of_lookup_2|]. simpl. lia.
Qed.

(** The metadata of a replay packet, as [generate] reads it. *)
Lemma replay_metadata_plain config asset roi interval frame_id :
  _annotation_for_timestamp (DemoAsset.annotations asset) (frame_id * interval) = None →
  FramePacket.metadata (replay_packet config asset roi interval frame_id) !! "demo_step" = None.
Proof. intros Hnone. unfold replay_packet. cbv zeta. by rewrite Hnone. Qed.

Lemma replay_metadata_annotated config asset roi interval frame_id a :
  _annotation_for_timestamp (DemoAsset.annotations asset) (frame_id * interval) = Some a →
  let metadata := FramePacket.metadata (replay_packet config asset roi interval frame_id) in
  metadata !! "demo_step" = Some (PyStr (StepID.value (StepAnnotation.step_id a))) ∧
  metadata !! "demo_orientation" =
    Some (PyStr (StepOrientation.value (StepAnnotation.orientation a))) ∧
  metadata !! "demo_step_start_ms" = Some (PyInt (StepAnnotation.start_ms a)) ∧
  metadata !! "demo_step_end_ms" = Some (PyInt (StepAnnotation.end_ms a)) ∧
  metadata !! "demo_frame_interval_ms" = Some (PyInt interval).
Proof.
  intros Hsome. unfold replay_packet. cbv zeta. rewrite Hsome. cbn [FramePacket.metadata].
  split_and!; by simplify_map_eq.
Qed.

Lemma generate_on_segment self config asset roi interval frame_id a :
  _annotation_for_timestamp (DemoAsset.annotations asset) (frame_id * interval) = Some a →
  0 < interval →
  let duration := StepAnnotation.end_ms a - StepAnnotation.start_ms a in
  let elapsed := default 0 (_elapsed_ms self !! segment_key a) in
  generate self (replay_packet config asset roi interval frame_id) =
    if duration - elapsed <=? 0 then (self, [])
    else if StepAnnotation.end_ms a <=? frame_id * interval + interval
    then (mk (<[segment_key a := duration]> (_elapsed_ms self)),
          [segment_signal a (StepAnnotation.end_ms a)])
    else (mk (<[segment_key a := elapsed + Z.min interval (duration - elapsed)]>
                (_elapsed_ms self)),
          [segment_signal a (StepAnnotation.start_ms a + elapsed)]).
Proof.
  intros Hsome Hpos. cbv zeta.
  destruct (replay_metadata_annotated config asset roi interval frame_id a Hsome)
    as (M1 & M2 & M3 & M4 & M5).
  apply _annotation_for_timestamp_Some in Hsome as [_ Hcover].
  unfold generate. rewrite M1, M2, M3, M4, M5, StepID_of_value_value.
  unfold _parse_orientation, _coerce_int, _coerce_positive_int. cbn [mbind option_bind py_int_value default].
  rewrite StepOrientation_of_value_value. cbn [default].
  assert (Hlt : (0 <? interval) = true) by (apply Z.ltb_lt; lia). rewrite Hlt.
  assert (Hse : (StepAnnotation.end_ms a <? StepAnnotation.start_ms a) = false)
    by (apply Z.ltb_ge; lia).
  change (id (StepAnnotation.end_ms a)) with (StepAnnotation.end_ms a).
  change (id (StepAnnotation.start_ms a)) with (StepAnnotation.start_ms a).
  change (id (StepAnnotation.orientation a)) with (StepAnnotation.orientation a).
  rewrite Hse.
  fold (segment_key a).
  set (elapsed := default 0 (_elapsed_ms self !! segment_key a)).
  set (duration := StepAnnotation.end_ms a - StepAnnotation.start_ms a).
  assert (Hd : Z.max 0 duration = duration) by (subst duration; lia). rewrite Hd.
  assert (Hd0 : (duration =? 0) = false) by (apply Z.eqb_neq; subst duration; lia).
  rewrite Hd0. cbn [FramePacket.timestamp_ms replay_packet].
  destruct (Z.leb_spec (duration - elapsed) 0) as [Hrem|Hrem].
  - assert (Hr : (Z.max 0 (duration - elapsed) =? 0) = true) by (apply Z.eqb_eq; lia).
    by rewrite Hr.
  - assert (Hr : (Z.max 0 (duration - elapsed) =? 0) = false) by (apply Z.eqb_neq; lia).
    rewrite Hr. destruct (_ <=? _).
    + unfold segment_signal. do 3 f_equal. subst duration. lia.
    + assert (Hm : Z.max 0 (duration - elapsed) = duration - elapsed) by lia. rewrite Hm.
      unfold segment_signal. do 3 f_equal.
      destruct (Z.eqb_spec elapsed 0) as [->|]; [lia|done].
Qed.

(** A packet that [stream_packets] stamps outside every annotation gives the
    synthesizer nothing to emit and leaves it as it was; a packet stamped
    inside an annotation gives one signal at most, confident, with
    confidence 1 and source DEMO, for the step and the orientation of that
    annotation. *)
Theorem replay_packet_drives_the_synthesizer self config asset roi interval frame_id :
  0 < interval →
  let packet := replay_packet config asset roi interval frame_id in
  match _annotation_for_timestamp (DemoAsset.annotations asset) (frame_id * interval) with
  | None => generate self packet = (self, [])
  | Some a =>
      (generate self packet).2 = [] ∨
      ∃ timestamp_ms, (generate self packet).2 = [segment_signal a timestamp_ms]
  end.
Proof.
  intros Hpos packet.
  destruct (_annotation_for_timestamp _ _) as [a|] eqn:Hann.
  - subst packet. rewrite (generate_on_segment self config asset roi interval frame_id a Hann Hpos).
    destruct (_ <=? 0); [by left|]. right. destruct (_ <=? _); by eexists.
  - unfold generate. subst packet.
    by rewrite (replay_metadata_plain config asset roi interval frame_id Hann).
Qed.

Lemma generate_all_segment config asset roi interval a (n : nat) : ∀ (first : Z) (k : Z) self,
  0 < interval → 0 ≤ k →
  (∀ i : nat, (i ≤ n)%nat →
     _annotation_for_timestamp (DemoAsset.annotations asset) ((first + Z.of_nat i) * interval) = Some a) →
  StepAnnotation.end_ms a ≤ (first + Z.of_nat n + 1) * interval →
  default 0 (_elapsed_ms self !! segment_key a) = k * interval →
  StepAnnotation.start_ms a + (k + Z.of_nat n) * interval < StepAnnotation.end_ms a →
  let run := generate_all self (replay_packet config asset roi interval <$> seqZ first (Z.of_nat n + 1)) in
  run.2 =
    ((λ i, [segment_signal a (StepAnnotation.start_ms a + (k + i) * interval)]) <$> seqZ 0 (Z.of_nat n))
    ++ [[segment_signal a (StepAnnotation.end_ms a)]] ∧
  _elapsed_ms run.1 !! segment_key a
    = Some (StepAnnotation.end_ms a - StepAnnotation.start_ms a).
Proof.
  induction n as [|n IH]; intros first k self Hpos Hk Hann Hend Hel Hfit; cbv zeta.
  - change (seqZ first (Z.of_nat 0 + 1)) with [first]. cbn [fmap list_fmap generate_all].
    rewrite (generate_on_segment self config asset roi interval first a); [|
      |done].
    2:{ specialize (Hann 0%nat). rewrite Z.add_0_r in Hann. apply Hann. lia. }
    rewrite Hel.
    destruct (Z.leb_spec (StepAnnotation.end_ms a - StepAnnotation.start_ms a - k * interval) 0);
      [lia|].
    destruct (Z.leb_spec (StepAnnotation.end_ms a) (first * interval + interval)); [|lia].
    cbn. by rewrite lookup_insert_eq.
  - replace (seqZ first (Z.of_nat (S n) + 1)) with (first :: seqZ (first + 1) (Z.of_nat n + 1)).
    2:{ rewrite (seqZ_cons first) by lia. do 2 f_equal; lia. }
    cbn [fmap list_fmap generate_all].
    rewrite (generate_on_segment self config asset roi interval first a); [|
      |done].
    2:{ specialize (Hann 0%nat). rewrite Z.add_0_r in Hann. apply Hann. lia. }
    rewrite Hel.
    destruct (Z.leb_spec (StepAnnotation.end_ms a - StepAnnotation.start_ms a - k * interval) 0);
      [nia|].
    assert (Hlast : StepAnnotation.start_ms a ≤ (first + Z.of_nat (S n)) * interval
                    < StepAnnotation.end_ms a).
    { apply (_annotation_for_timestamp_Some (DemoAsset.annotations asset)). apply Hann. lia. }
    assert (Hni : 0 ≤ Z.of_nat n * interval) by nia.
    assert (Hexp : (first + Z.of_nat (S n)) * interval
                   = first * interval + interval + Z.of_nat n * interval) by lia.
    destruct (Z.leb_spec (StepAnnotation.end_ms a) (first * interval + interval)); [lia|].
    set (self1 := mk _).
    specialize (IH (first + 1) (k + 1) self1 Hpos).
    destruct IH as [IH1 IH2].
    + lia.
    + intros i Hi. specialize (Hann (S i)). rewrite <- Hann by lia. f_equal. lia.
    + lia.
    + subst self1. cbn [_elapsed_ms]. rewrite lookup_insert_eq. cbn [default from_option id].
      assert (Hexp' : (k + Z.of_nat (S n)) * interval
                      = k * interval + interval + Z.of_nat n * interval) by lia.
      rewrite Z.min_l by lia. lia.
    + assert (Hexp' : (k + Z.of_nat (S n)) * interval
                      = (k + 1 + Z.of_nat n) * interval) by lia.
      lia.
    + destruct (generate_all self1 _) as [self2 later]. cbn [fst snd] in *. split; [|done].
      rewrite IH1. rewrite (seqZ_cons 0 (Z.of_nat (S n))) by lia. cbn [fmap list_fmap app].
      f_equal; [do 3 f_equal; lia|]. f_equal.
      replace (Z.pred (Z.of_nat (S n))) with (Z.of_nat n) by lia.
      change (Z.succ 0) with (1 + 0).
      rewrite <- (fmap_add_seqZ 1 0), <- list_fmap_compose. apply list_fmap_ext.
      intros ? i _. simpl. do 3 f_equal. lia.
Qed.

(** An annotation replayed from its first frame to its last: the
    synthesizer emits one signal per frame, stamped [start_ms],
    [start_ms + interval], ... and, on the last frame, [end_ms]; so the
    signals span exactly the annotated duration. The synthesizer then
    remembers the segment as used up. *)
Theorem replayed_annotation_spans_its_duration self config asset roi interval a first (n : nat) :
  0 < interval →
  (∀ i : nat, (i ≤ n)%nat →
     _annotation_for_timestamp (DemoAsset.annotations asset) ((first + Z.of_nat i) * interval) = Some a) →
  StepAnnotation.end_ms a ≤ (first + Z.of_nat n + 1) * interval →
  _elapsed_ms self !! segment_key a = None →
  let run := generate_all self (replay_packet config asset roi interval <$> seqZ first (Z.of_nat n + 1)) in
  run.2 =
    ((λ i, [segment_signal a (StepAnnotation.start_ms a + i * interval)]) <$> seqZ 0 (Z.of_nat n))
    ++ [[segment_signal a (StepAnnotation.end_ms a)]] ∧
  _elapsed_ms run.1 !! segment_key a
    = Some (StepAnnotation.end_ms a - StepAnnotation.start_ms a).
Proof.
  intros Hpos Hann Hend Hnone.
  assert (H0 : StepAnnotation.start_ms a ≤ (first + Z.of_nat 0) * interval
               < StepAnnotation.end_ms a).
  { apply (_annotation_for_timestamp_Some (DemoAsset.annotations asset)). apply Hann. lia. }
  assert (Hn : StepAnnotation.start_ms a ≤ (first + Z.of_nat n) * interval
               < StepAnnotation.end_ms a).
  { apply (_annotation_for_timestamp_Some (DemoAsset.annotations asset)). apply Hann. lia. }
  apply (generate_all_segment config asset roi interval a n first 0 self); try done.
  - by rewrite Hnone.
  - nia.
Qed.

Lemma annotation_duration_snoc annotations a step :
  DemoApp.annotation_duration (annotations ++ [a]) step =
    if decide (StepAnnotation.step_id a = step)
    then DemoApp.annotation_duration annotations step
         + (StepAnnotation.end_ms a - StepAnnotation.start_ms a)
    else DemoApp.annotation_duration annotations step.
Proof. unfold DemoApp.annotation_duration. by rewrite foldl_snoc. Qed.

Lemma annotation_duration_nonneg annotations step :
  Forall loaded_annotation annotations → 0 ≤ DemoApp.annotation_duration annotations step.
Proof.
  induction annotations as [|a annotations IH] using rev_ind; intros Hall; [done|].
  apply Forall_app in Hall as [Hall Ha]. apply Forall_singleton in Ha as (_ & _ & Ha).
  rewrite annotation_duration_snoc. specialize (IH Hall). case_decide; lia.
Qed.

(** What [summarize_step_durations] totals against what [_verify_asset]
    counts: for an asset with well-formed annotations the summary holds
    only positive totals, never more than the annotated time of the step;
    when no annotation runs past the end of the asset, it holds exactly the
    annotated time of every annotated step, and nothing else. *)
Theorem summary_matches_annotated_time asset interval :
  Forall loaded_annotation (DemoAsset.annotations asset) →
  frame_interval_ms asset = Ok interval →
  ∃ totals,
    summarize_step_durations asset = Ok totals ∧
    (∀ step total, totals !! step = Some total →
       0 < total ≤ DemoApp.annotation_duration (DemoAsset.annotations asset) step) ∧
    (Forall (λ a, StepAnnotation.end_ms a ≤ DemoAsset.total_frames asset * interval)
       (DemoAsset.annotations asset) →
     ∀ step,
       totals !! step =
         if decide (step ∈ StepAnnotation.step_id <$> DemoAsset.annotations asset)
         then Some (DemoApp.annotation_duration (DemoAsset.annotations asset) step)
         else None).
Proof.
  intros Hall Hinterval. unfold summarize_step_durations. rewrite Hinterval.
  cbn [mbind result_bind]. eexists. split; [reflexivity|].
  set (asset_end_ms := DemoAsset.total_frames asset * interval).
  generalize dependent (DemoAsset.annotations asset). clear Hinterval.
  intros annotations. induction annotations as [|a annotations IH] using rev_ind; intros Hall.
  { split; [by intros ? ? ?|]. intros _ step. simpl. by rewrite lookup_empty. }
  apply Forall_app in Hall as [Hall Ha]. apply Forall_singleton in Ha as (Hs & He & Hse).
  destruct (IH Hall) as [IH1 IH2]. clear IH. rewrite foldl_snoc.
  set (totals := foldl _ ∅ annotations) in *.
  split.
  - intros step total. rewrite annotation_duration_snoc.
    pose proof (annotation_duration_nonneg annotations step Hall) as Hnn.
    destruct (Z.leb_spec (Z.min (StepAnnotation.end_ms a) asset_end_ms)
                (StepAnnotation.start_ms a)) as [Hcut|Hcut].
    + intros Hl%IH1. case_decide; lia.
    + destruct (decide (StepAnnotation.step_id a = step)) as [<-|Hne].
      * rewrite lookup_insert_eq. intros [= <-].
        destruct (totals !! StepAnnotation.step_id a) as [t|] eqn:Ht; simpl.
        -- apply IH1 in Ht. lia.
        -- lia.
      * rewrite lookup_insert_ne by done. apply IH1.
  - intros Hwithin step. apply Forall_app in Hwithin as [Hwithin Ha].
    rewrite Forall_singleton in Ha. specialize (IH2 Hwithin).
    rewrite annotation_duration_snoc, fmap_app. cbn [fmap list_fmap].
    simpl in Ha. rewrite Z.min_l by (subst asset_end_ms; lia).
    destruct (Z.leb_spec (StepAnnotation.end_ms a) (StepAnnotation.start_ms a)); [lia|].
    destruct (decide (StepAnnotation.step_id a = step)) as [<-|Hne].
    + rewrite lookup_insert_eq, decide_True by (apply elem_of_app; right; left).
      rewrite IH2. f_equal. case_decide as Hin; simpl; [done|].
      assert (Hz : DemoApp.annotation_duration annotations (StepAnnotation.step_id a) = 0).
      { clear -Hin. induction annotations as [|b annotations IHb] using rev_ind; [done|].
        rewrite annotation_duration_snoc. rewrite fmap_app in Hin.
        apply not_elem_of_app in Hin as [Hin Hb]. rewrite decide_False.
        - by apply IHb.
        - intros Heq. apply Hb. rewrite <- Heq. left. }
      lia.
    + rewrite lookup_insert_ne by done. rewrite IH2.
      destruct (decide (step ∈ StepAnnotation.step_id <$> annotations)) as [Hin|Hin].
      * rewrite decide_True by (apply elem_of_app; left; done). done.
      * rewrite decide_False; [done|].
        intros [?|Hx%list_elem_of_singleton]%elem_of_app; [done|]. by apply Hne.
Qed.

End ReplayMore.

Module ReplayMoreWitness.
Import Replay DemoSignalSynthesizer SynthesizerRun ReplayMore DemoScenario.

Lemma replay_packet_drives_the_synthesizer_witness :
  let packet := replay_packet (Scenario.config 3000) two_sided (ROI.mk 0 0 400 300) 40 3 in
  match _annotation_for_timestamp (DemoAsset.annotations two_sided) (3 * 40) with
  | None => generate __init__ packet = (__init__, [])
  | Some a =>
      (generate __init__ packet).2 = [] ∨
      ∃ timestamp_ms, (generate __init__ packet).2 = [segment_signal a timestamp_ms]
  end.
Proof.
  apply (replay_packet_drives_the_synthesizer __init__ (Scenario.config 3000) two_sided
           (ROI.mk 0 0 400 300) 40 3).
  lia.
Defined.

Lemma replayed_annotation_spans_its_duration_witness :
  let a := StepAnnotation.mk StepID.STEP_3 StepOrientation.RIGHT_OVER_LEFT 0 400 in
  let run :=
    generate_all __init__
      (replay_packet (Scenario.config 3000) two_sided (ROI.mk 0 0 400 300) 40
         <$> seqZ 0 (Z.of_nat 9 + 1)) in
  run.2 =
    ((λ i, [segment_signal a (StepAnnotation.start_ms a + i * 40)]) <$> seqZ 0 (Z.of_nat 9))
    ++ [[segment_signal a (StepAnnotation.end_ms a)]] ∧
  _elapsed_ms run.1 !! segment_key a
    = Some (StepAnnotation.end_ms a - StepAnnotation.start_ms a).
Proof.
  apply (replayed_annotation_spans_its_duration __init__ (Scenario.config 3000) two_sided
           (ROI.mk 0 0 400 300) 40
           (StepAnnotation.mk StepID.STEP_3 StepOrientation.RIGHT_OVER_LEFT 0 400) 0 9).
  - lia.
  - intros i Hi. do 10 (destruct i as [|i]; [vm_compute; reflexivity|]). lia.
  - vm_compute. discriminate.
  - reflexivity.
Defined.

(** The first side of step 3 in [two_sided]: ten signals, from 0 to 400. *)
Example two_sided_first_side :
  StepSignal.timestamp_ms <$>
    concat (generate_all __init__
              (replay_packet (Scenario.config 3000) two_sided (ROI.mk 0 0 400 300) 40
                 <$> seqZ 0 10)).2
  = [0; 40; 80; 120; 160; 200; 240; 280; 320; 400].
Proof. vm_compute. reflexivity. Qed.

Lemma summary_matches_annotated_time_witness :
  ∃ totals,
    summarize_step_durations s5_asset = Ok totals ∧
    (∀ step total, totals !! step = Some total →
       0 < total ≤ DemoApp.annotation_duration (DemoAsset.annotations s5_asset) step) ∧
    (Forall (λ a, StepAnnotation.end_ms a ≤ DemoAsset.total_frames s5_asset * 40)
       (DemoAsset.annotations s5_asset) →
     ∀ step,
       totals !! step =
         if decide (step ∈ StepAnnotation.step_id <$> DemoAsset.annotations s5_asset)
         then Some (DemoApp.annotation_duration (DemoAsset.annotations s5_asset) step)
         else None).
Proof.
  apply (summary_matches_annotated_time s5_asset 40).
  - repeat constructor; vm_compute; discriminate.
  - vm_compute. reflexivity.
Defined.

End ReplayMoreWitness.

Module DetectorFacts.
Import Detectors.

Lemma build_runner_loop config (steps : list StepID.t) : ∀ detectors,
  match
    for_each steps
      (λ detectors step,
         match Config.steps config !! StepID.value step with
         | Some step_config => Ok (detectors ++ [(step, step_config)])
         | None => Raise ValueError
         end) detectors
  with
  | Ok runner =>
      ∃ added, runner = detectors ++ added ∧ added.*1 = steps ∧
        ∀ step th, (step, th) ∈ added → Config.steps config !! StepID.value step = Some th
  | Raise e =>
      e = ValueError ∧ ∃ step, step ∈ steps ∧ Config.steps config !! StepID.value step = None
  end.
Proof.
  induction steps as [|step steps IH]; intros detectors.
  - simpl. exists []. rewrite app_nil_r. split_and!; [done..|].
    intros ? ? Hin. by apply elem_of_nil in Hin.
  - cbn [for_each]. destruct (Config.steps config !! StepID.value step) as [th|] eqn:Hth.
    + cbn [mbind result_bind]. specialize (IH (detectors ++ [(step, th)])).
      destruct (for_each steps _ _) as [runner|e].
      * destruct IH as (added & -> & Hfst & Hall). exists ((step, th) :: added).
        rewrite <- app_assoc. split; [done|]. split; [by rewrite fmap_cons, Hfst|].
        intros s t [[= -> ->]|Hin]%elem_of_cons; [done|by apply Hall].
      * destruct IH as (-> & s & Hs & Hnone). split; [done|]. exists s. split; [by right|done].
    + cbn [mbind result_bind]. split; [done|]. exists step. split; [by left|done].
Qed.

(** [build_default_runner] raises ValueError exactly when [config.steps]
    lacks one of the six steps. The runner it builds otherwise scores every
    frame once per step, in the order STEP_2 ... STEP_7: each signal is
    stamped with the frame's timestamp, comes from the MODEL source, and is
    confident exactly when its confidence reaches the [confidence_min]
    configured for its step. *)
Theorem runner_scores_every_step_once config :
  match build_default_runner config with
  | Ok runner =>
      ∀ run_inference packet,
        StepSignal.step_id <$> evaluate run_inference runner packet = StepID.all ∧
        ∀ sig, sig ∈ evaluate run_inference runner packet →
          StepSignal.timestamp_ms sig = FramePacket.timestamp_ms packet ∧
          StepSignal.source sig = StepSignalSource.MODEL ∧
          ∃ th, Config.steps config !! StepID.value (StepSignal.step_id sig) = Some th ∧
                StepSignal.is_confident sig
                = PrimFloat.leb (StepThreshold.confidence_min th) (StepSignal.confidence sig)
  | Raise e =>
      e = ValueError ∧
      ∃ step, Config.steps config !! StepID.value step = None
  end.
Proof.
  unfold build_default_runner.
  pose proof (build_runner_loop config StepID.all []) as Hloop.
  destruct (for_each StepID.all _ []) as [runner|e].
  - destruct Hloop as (added & -> & Hfst & Hall). rewrite app_nil_l.
    intros run_inference packet. unfold evaluate. split.
    + rewrite <- list_fmap_compose, <- Hfst. apply list_fmap_ext.
      intros ? [step th] _. unfold evaluate_detector. simpl.
      by destruct (_compute run_inference step packet) as [[? ?] ?].
    + intros sig [[step th] [-> Hin]]%list_elem_of_fmap. unfold evaluate_detector.
      destruct (_compute run_inference _ packet) as [[confidence o] notes]. simpl.
      split; [done|]. split; [done|]. exists th. split; [by apply Hall|done].
  - destruct Hloop as (-> & step & _ & Hnone). split; [done|]. by exists step.
Qed.

Lemma _score_packet_confident run_inference step packet confidence o notes :
  _score_packet run_inference step packet = (confidence, o, notes) →
  (confidence = 0%float ∧ o = StepOrientation.NONE) ∨
  (∃ result, infer run_inference packet = Some result ∧
             MLStepResult.step_id result = Some step ∧
             confidence = MLStepResult.confidence result ∧ o = StepOrientation.NONE).
Proof.
  unfold _score_packet. destruct (infer run_inference packet) as [result|].
  - destruct (MLStepResult.step_id result) as [predicted|] eqn:Hp.
    + case_bool_decide as Hne.
      * intros [= <- <- <-]. by left.
      * intros [= <- <- <-]. right. exists result.
        destruct (decide (predicted = step)) as [->|]; [done|contradiction].
    + intros [= <- <- <-]. by left.
  - destruct (FramePacket.image packet); intros [= <- <- <-]; by left.
Qed.

(** When every step asks for a confidence above zero, a frame's confident
    signals name only the demo hint of the frame (with confidence 1) or the
    step the model predicts for it (with the model's confidence and no
    orientation): all the other steps are scored zero. *)
Theorem confident_signals_name_the_hint_or_the_prediction run_inference config runner packet sig :
  build_default_runner config = Ok runner →
  (∀ step th, Config.steps config !! StepID.value step = Some th →
     PrimFloat.leb (StepThreshold.confidence_min th) 0 = false) →
  sig ∈ evaluate run_inference runner packet →
  StepSignal.is_confident sig = true →
  (FramePacket.metadata packet !! "demo_step"
     = Some (PyStr (StepID.value (StepSignal.step_id sig))) ∧
   StepSignal.confidence sig = 1%float ∧
   StepSignal.orientation sig
     = _parse_orientation (FramePacket.metadata packet !! "demo_orientation")) ∨
  (∃ result,
     infer run_inference packet = Some result ∧
     MLStepResult.step_id result = Some (StepSignal.step_id sig) ∧
     StepSignal.confidence sig = MLStepResult.confidence result ∧
     StepSignal.orientation sig = StepOrientation.NONE).
Proof.
  intros Hbuild Hmin Hin Hconf. unfold build_default_runner in Hbuild.
  pose proof (build_runner_loop config StepID.all []) as Hloop. rewrite Hbuild in Hloop.
  destruct Hloop as (added & -> & _ & Hall). rewrite app_nil_l in Hin.
  unfold evaluate in Hin. apply list_elem_of_fmap in Hin as [[step th] [-> Hin]].
  specialize (Hmin step th (Hall step th Hin)).
  unfold evaluate_detector in *. cbn [fst snd] in *.
  destruct (_compute run_inference step packet) as [[confidence o] notes] eqn:Hc.
  cbn [StepSignal.is_confident StepSignal.confidence StepSignal.step_id
       StepSignal.orientation] in *.
  assert (Hscore : _score_packet run_inference step packet = (confidence, o, notes) →
    ∃ result, infer run_inference packet = Some result ∧
              MLStepResult.step_id result = Some step ∧
              confidence = MLStepResult.confidence result ∧ o = StepOrientation.NONE).
  { intros Hs. apply _score_packet_confident in Hs as [[-> ->]|?]; [|done]. congruence. }
  unfold _compute in Hc.
  destruct (default false _); [right; by apply Hscore|].
  destruct (FramePacket.metadata packet !! "demo_step") as [[| | | |hint| |]|] eqn:Hhint;
    try (right; by apply Hscore).
  destruct (String.eqb_spec hint (StepID.value step)) as [->|]; [|right; by apply Hscore].
  injection Hc as <- <- <-. by left.
Qed.

End DetectorFacts.

Module DetectorWitness.
Import Detectors DetectorFacts DetectorScenario.

Lemma confident_signals_name_the_hint_or_the_prediction_witness :
  (FramePacket.metadata hinted_packet !! "demo_step"
     = Some (PyStr (StepID.value (StepSignal.step_id hinted_signal))) ∧
   StepSignal.confidence hinted_signal = 1%float ∧
   StepSignal.orientation hinted_signal
     = _parse_orientation (FramePacket.metadata hinted_packet !! "demo_orientation")) ∨
  (∃ result,
     infer DemoScenario.no_model hinted_packet = Some result ∧
     MLStepResult.step_id result = Some (StepSignal.step_id hinted_signal) ∧
     StepSignal.confidence hinted_signal = MLStepResult.confidence result ∧
     StepSignal.orientation hinted_signal = StepOrientation.NONE).
Proof.
  apply (confident_signals_name_the_hint_or_the_prediction DemoScenario.no_model
           (Scenario.config 3000) runner hinted_packet hinted_signal).
  - vm_compute. reflexivity.
  - intros step th Hl. destruct step; vm_compute in Hl; injection Hl as <-; reflexivity.
  - apply (list_elem_of_lookup_2 _ 1%nat). vm_compute. reflexivity.
  - reflexivity.
Defined.

(** The six signals of a frame that hints at step 3: one confident signal,
    the others scored zero for want of an image. *)
Example hinted_packet_signals :
  (λ sig, (StepSignal.step_id sig, StepSignal.is_confident sig, StepSignal.notes sig))
    <$> evaluate DemoScenario.no_model runner hinted_packet
  = [(StepID.STEP_2, false, Some "missing_image");
     (StepID.STEP_3, true, None);
     (StepID.STEP_4, false, Some "missing_image");
     (StepID.STEP_5, false, Some "missing_image");
     (StepID.STEP_6, false, Some "missing_image");
     (StepID.STEP_7, false, Some "missing_image")].
Proof. vm_compute. reflexivity. Qed.

End DetectorWitness.

Module DemoAppFacts.
Import DemoApp DemoAppState.
Section WithEnvironment.
Variable uuid4 : nat → string.
Variable transport : list HttpRequest → HttpRequest → option string.
Variable run_inference : FramePacket.t → option MLStepResult.t.
Variable resolve_path : string → string.

Lemma _handle_session_event_settings self event self' :
  _handle_session_event transport self event = Ok self' → settings self' = settings self.
Proof.
  unfold _handle_session_event. destruct (SessionEvent.event_type event).
  - destruct (InterpreterStateMachine.start_session _ _ _); [|done]. by intros [= <-].
  - by intros [= <-].
Qed.

Lemma handle_events_settings events self0 : ∀ self self',
  settings self = settings self0 →
  for_each events (_handle_session_event transport) self = Ok self' →
  settings self' = settings self0.
Proof.
  intros self self' Hs Hrun.
  eapply (LoopFacts.for_each_preserves (λ s, settings s = settings self0)); [|exact Hs|exact Hrun].
  intros x a x' Hx Ha. apply _handle_session_event_settings in Ha. congruence.
Qed.

Lemma gate_frame_settings self packet self' :
  gate_frame uuid4 transport self packet = Ok self' → settings self' = settings self.
Proof.
  unfold gate_frame.
  destruct (SessionManager.process_frame uuid4 _ packet) as [[manager events]|]; [|done].
  cbn [mbind result_bind]. by apply handle_events_settings.
Qed.

Lemma reset_gate_settings self self' :
  reset_gate transport self = Ok self' → settings self' = settings self.
Proof.
  unfold reset_gate. destruct (SessionManager.reset _) as [manager events].
  by apply handle_events_settings.
Qed.

Lemma _process_packet_settings self packet self' :
  _process_packet uuid4 transport run_inference self packet = Ok self' →
  settings self' = settings self.
Proof.
  unfold _process_packet.
  destruct (gate_frame uuid4 transport self packet) as [self1|] eqn:Hg; [|done].
  apply gate_frame_settings in Hg. cbn [mbind result_bind].
  destruct (negb _); [by intros [= <-]|].
  destruct (DemoSignalSynthesizer.generate _ packet) as [synthesizer signals].
  destruct (InterpreterStateMachine.process_signals _ _ _); [|done].
  cbn [mbind result_bind]. intros [= <-]. by rewrite <- Hg.
Qed.

Lemma _prime_session_settings self self' :
  _prime_session uuid4 transport self = Ok self' → settings self' = settings self.
Proof.
  unfold _prime_session. intros Hrun.
  eapply (LoopFacts.for_each_preserves (λ s, settings s = settings self));
    [| |exact Hrun]; [|reflexivity].
  intros x a x' Hx Ha. apply gate_frame_settings in Ha. congruence.
Qed.

(** What [_resolve_asset_identifier] returns is an id of the manifest: the
    value itself when it is one, else the id of the first asset whose file is
    the resolved path; ManifestError when there is neither. *)
Theorem resolved_identifier_is_in_the_manifest self value :
  match _resolve_asset_identifier resolve_path self value with
  | Ok asset_id =>
      is_Some (DemoManifest.get (_manifest self) asset_id) ∧
      (asset_id = value ∨
       DemoManifest.get (_manifest self) value = None ∧
       ∃ asset, (asset_id, asset) ∈ DemoManifest.assets (_manifest self) ∧
                DemoAsset.path asset = resolve_path value)
  | Raise e =>
      e = ManifestError ∧
      DemoManifest.get (_manifest self) value = None ∧
      ∀ asset_id asset, (asset_id, asset) ∈ DemoManifest.assets (_manifest self) →
                        DemoAsset.path asset ≠ resolve_path value
  end.
Proof.
  unfold _resolve_asset_identifier.
  destruct (DemoManifest.get (_manifest self) value) as [asset|] eqn:Hget.
  { split; [by eexists|by left]. }
  destruct (list_find _ _) as [[i [asset_id asset]]|] eqn:Hfind.
  - apply list_find_Some in Hfind as (Hi & Hpath & _). simpl in Hpath.
    assert (Hin : (asset_id, asset) ∈ DemoManifest.assets (_manifest self))
      by (by eapply list_elem_of_lookup_2).
    split; [|right; split; [done|by exists asset]].
    unfold DemoManifest.get.
    destruct (list_find (λ entry, entry.1 = asset_id) _) as [[j entry]|] eqn:Hid;
      [by eexists|].
    exfalso. eapply list_find_None in Hid. rewrite Forall_forall in Hid.
    by apply (Hid _ Hin).
  - split; [done|]. split; [done|]. intros asset_id asset Hin Hpath.
    eapply list_find_None in Hfind. rewrite Forall_forall in Hfind.
    by apply (Hfind _ Hin).
Qed.

(** The exit code of [run]: 2 when the asset cannot be resolved (and then
    nothing has been replayed), else 0, unless [--verify] is set and the
    verification of the replayed asset fails, which gives 3. The run leaves
    the configuration, the arguments and the manifest as they were. *)
Theorem run_exit_codes self self' code :
  run uuid4 transport run_inference resolve_path self = Ok (self', code) →
  settings self' = settings self ∧
  match _resolve_asset_identifier resolve_path self (asset self) with
  | Ok asset_id =>
      if verify self
      then ∃ passed, _verify_asset self' asset_id = Ok passed ∧
                     code = if passed : bool then 0 else 3
      else code = 0
  | Raise e => e = ManifestError ∧ code = 2 ∧ self' = self
  end.
Proof.
  unfold run.
  destruct (_resolve_asset_identifier resolve_path self (asset self)) as [asset_id|e].
  2:{ destruct e; try done. by intros [= <- <-]. }
  destruct (_apply_demo_thresholds self asset_id); [|done]. cbn [mbind result_bind].
  destruct (_prime_session uuid4 transport self) as [self1|] eqn:H1; [|done].
  cbn [mbind result_bind]. apply _prime_session_settings in H1.
  destruct (Replay.stream_packets _ _ asset_id) as [packets|]; [|done].
  cbn [mbind result_bind].
  destruct (for_each packets _ self1) as [self2|] eqn:H2; [|done]. cbn [mbind result_bind].
  assert (H2' : settings self2 = settings self1).
  { eapply (LoopFacts.for_each_preserves (λ s, settings s = settings self1));
      [| |exact H2]; [|reflexivity].
    intros x p x' Hx Hp. apply _process_packet_settings in Hp. congruence. }
  destruct (reset_gate transport self2) as [self3|] eqn:H3; [|done].
  cbn [mbind result_bind]. apply reset_gate_settings in H3.
  assert (Hs : settings self3 = settings self) by congruence.
  assert (Hv : verify self3 = verify self) by (unfold settings in Hs; congruence).
  rewrite Hv. destruct (verify self).
  - destruct (_verify_asset self3 asset_id) as [passed|] eqn:Hp; [|done].
    cbn [mbind result_bind]. destruct passed; intros [= <- <-]; (split; [done|]);
      by eexists.
  - by intros [= <- <-].
Qed.

End WithEnvironment.
End DemoAppFacts.

Module DemoAppPriming.
Import DemoApp DemoAppState SessionGate.
Section WithEnvironment.
Variable uuid4 : nat → string.
Variable transport : list HttpRequest → HttpRequest → option string.

(** A warm-up frame meets the start conditions whenever two hands are
    enough. *)
Lemma warmup_gate_ok (manager : SessionManager.t) packet :
  SessionConfig.min_hands (Config.session (SessionManager._config manager)) ≤ 2 →
  packet ∈ warmup_packets (SessionManager._config manager) →
  gate_ok manager packet = true.
Proof.
  intros Hhands Hin. unfold warmup_packets in Hin. cbv zeta in Hin.
  apply list_elem_of_fmap in Hin as (index & -> & _).
  unfold gate_ok, SessionManager._meets_start_conditions, SessionManager._extract_int.
  cbn [FramePacket.metadata FramePacket.motion MotionMetrics.mean_velocity
       MotionMetrics.relative_motion].
  rewrite lookup_insert_eq. cbn [default from_option id isinstance_int py_lt_int].
  cbn [mbind result_bind].
  assert (Hlt : (2 <? SessionConfig.min_hands
                        (Config.session (SessionManager._config manager))) = false)
    by (apply Z.ltb_ge; lia).
  rewrite Hlt. cbn [mbind result_bind].
  rewrite lookup_insert_ne by done. rewrite lookup_insert_eq.
  cbn [default from_option id isinstance_int py_lt_int]. rewrite Hlt. cbn [mbind result_bind].
  rewrite !FloatOrder.py_max_float_ge_l. by destruct (SessionConfig.require_motion _).
Qed.

(** Frames that make the gate emit nothing leave the interpreter alone. *)
Lemma gate_frames_quiet packets : ∀ app manager',
  SessionManager.process_frames uuid4 (_session_manager app) packets
    = Ok (manager', replicate (length packets) []) →
  ∃ app',
    for_each packets (gate_frame uuid4 transport) app = Ok app' ∧
    _session_manager app' = manager' ∧
    _interpreter app' = _interpreter app.
Proof.
  induction packets as [|packet packets IH]; intros app manager' Hrun.
  { injection Hrun as <-. by exists app. }
  cbn [SessionManager.process_frames] in Hrun.
  destruct (SessionManager.process_frame uuid4 _ packet) as [[manager1 events]|] eqn:Hp;
    [|done].
  cbn [mbind result_bind] in Hrun.
  destruct (SessionManager.process_frames uuid4 manager1 packets) as [[manager2 later]|]
    eqn:Hps; [|done].
  cbn [mbind result_bind length replicate] in Hrun. injection Hrun as -> -> ->.
  destruct (IH (set_session_manager manager1 app) manager') as (app' & Hloop & Hm & Hi);
    [done|].
  assert (Hg : gate_frame uuid4 transport app packet = Ok (set_session_manager manager1 app))
    by (unfold gate_frame; by rewrite Hp).
  exists app'. cbn [for_each]. rewrite Hg. cbn [mbind result_bind].
  done.
Qed.

Lemma warmup_split config :
  1 ≤ SessionConfig.start_window_frames (Config.session config) →
  ∃ init last,
    warmup_packets config = init ++ [last] ∧
    Z.of_nat (length init) = SessionConfig.start_window_frames (Config.session config) - 1 ∧
    FramePacket.timestamp_ms last = -1.
Proof.
  intros Hn. unfold warmup_packets. cbv zeta.
  set (n := SessionConfig.start_window_frames (Config.session config)) in *.
  rewrite (Z.max_r 0 n) by lia.
  set (frame := λ index : Z, FramePacket.mk _ _ _ _ _ _ _ _).
  exists (frame <$> seqZ 0 (n - 1)), (frame (n - 1)).
  split; [|split].
  - replace (seqZ 0 n) with (seqZ 0 (n - 1) ++ [n - 1]); [by rewrite fmap_app|].
    replace n with ((n - 1) + 1) at 3 by lia. rewrite seqZ_app by lia.
    f_equal.
  - rewrite length_fmap, length_seqZ. lia.
  - subst frame. simpl. lia.
Qed.

Lemma full_ok_window_all n (oks : list bool) :
  Forall (λ ok, ok = true) oks → Z.of_nat (length oks) = n → full_ok_window n oks = true.
Proof.
  intros Hall Hlen. unfold full_ok_window.
  rewrite (proj2 (Z.leb_le _ _)) by lia. cbn [andb].
  replace (length oks - Z.to_nat n)%nat with 0%nat by lia. cbn [drop].
  apply forallb_forall. intros ok Hin. rewrite Forall_forall in Hall.
  rewrite (Hall ok); [done|]. by apply list_elem_of_In.
Qed.

(** The warm-up frames of [_prime_session] open the session before the
    first frame of the asset: after them the gate holds a session that
    started at -1 under the first identifier drawn, and the interpreter is
    in that session. Two hands must be enough for the gate, and its window
    must hold one frame at least. *)
Theorem priming_opens_the_session config manifest asset verify app :
  __init__ config manifest asset verify = Ok app →
  1 ≤ SessionConfig.start_window_frames (Config.session config) →
  SessionConfig.min_hands (Config.session config) ≤ 2 →
  ∃ app',
    _prime_session uuid4 transport app = Ok app' ∧
    SessionManager._session_active (_session_manager app') = true ∧
    SessionManager._current_session_id (_session_manager app') = Some (uuid4 0%nat) ∧
    SessionManager._session_start_ts (_session_manager app') = Some (-1) ∧
    InterpreterStateMachine._session_id (_interpreter app') = Some (uuid4 0%nat).
Proof.
  intros Hinit Hn Hhands. unfold __init__, SessionManager.__init__, Deque.new in Hinit.
  set (n := SessionConfig.start_window_frames (Config.session config)) in *.
  assert (Hneg : (n <? 0) = false) by (apply Z.ltb_ge; lia). rewrite Hneg in Hinit.
  cbn [mbind result_bind] in Hinit.
  destruct (Detectors.build_default_runner config) as [runner|]; [|done].
  cbn [mbind result_bind] in Hinit. injection Hinit as <-.
  set (led := if Esp8266Config.enabled _ then _ else _).
  set (manager := SessionManager.mk config _ _ _ _ _ _).
  set (app := mk _ _ _ _ _ _ _ _).
  unfold _prime_session. change (_config app) with config.
  destruct (warmup_split config Hn) as (init & last & Hsplit & Hlen & Hts).
  assert (Hoks : ∀ (m : SessionManager.t) packet,
            SessionManager._config m = config → packet ∈ init ++ [last] →
            gate_ok m packet = true).
  { intros m packet Hm Hin. apply warmup_gate_ok; rewrite Hm; [done|]. by rewrite Hsplit. }
  rewrite Hsplit, LoopFacts.for_each_app.
  assert (Hinv : gate_inv manager) by (split; [done|simpl; lia|by intros ?]).
  assert (Hmap : gate_ok manager <$> init = replicate (length init) true).
  { clear -Hoks. induction init as [|p init IH]; [done|]. cbn [fmap list_fmap length replicate].
    rewrite (Hoks manager p) by (done || left). f_equal. apply IH.
    intros m q Hm Hq. apply Hoks; [done|]. by right. }
  destruct (SessionGateStream.process_frames_idle uuid4 init manager [] Hinv eq_refl eq_refl)
    as (manager1 & Hrun1 & Hinv1 & Hc1 & Hidle1 & Hu1 & Hw1).
  { intros j Hj. unfold full_ok_window. cbn [app].
    rewrite (proj2 (Z.leb_gt _ _)); [done|].
    change (SessionConfig.start_window_frames (Config.session (SessionManager._config manager)))
      with n.
    rewrite app_nil_l, length_take, length_fmap. lia. }
  destruct (gate_frames_quiet init app manager1 Hrun1) as (app1 & Hloop1 & Hm1 & Hi1).
  rewrite Hloop1. cbn [mbind result_bind for_each].
  destruct (SessionGateStream.process_frame_idle uuid4 manager1 last
              ([] ++ (gate_ok manager <$> init)) Hinv1 Hidle1 Hw1)
    as (manager2 & events & Hp & Hinv2 & Hc2 & Hw2 & Hcase).
  rewrite Hc1 in Hcase. change (SessionManager._config manager) with config in Hcase.
  fold n in Hcase.
  rewrite full_ok_window_all in Hcase.
  2:{ rewrite app_nil_l, Hmap. apply Forall_app. split; [by apply Forall_replicate|].
      apply Forall_singleton. apply Hoks; [by rewrite Hc1|].
      apply elem_of_app. right. left. }
  2:{ rewrite app_nil_l, length_app, length_fmap. simpl. lia. }
  destruct Hcase as (-> & Hact & Hstart & _ & Hid).
  unfold gate_frame. rewrite Hm1, Hp. cbn [mbind result_bind for_each].
  unfold _handle_session_event. cbn [SessionEvent.event_type SessionEvent.session_id
    SessionEvent.timestamp_ms set_session_manager _interpreter].
  rewrite Hi1. subst app. cbn [_interpreter].
  destruct (InterpreterInv.start_session_spec
              (H := led_publisher transport)
              (InterpreterStateMachine.__init__ config led)
              (uuid4 (SessionManager.uuid_calls manager1))
              (FramePacket.timestamp_ms last))
    as (s' & Hs & _ & _ & Hsid & _); [apply InterpreterInv.wf_init|].
  rewrite Hs. cbn [mbind result_bind].
  eexists. split; [reflexivity|]. cbn [_session_manager set_interpreter _interpreter].
  rewrite Hu1 in *. rewrite Hts in *. done.
Qed.

End WithEnvironment.
End DemoAppPriming.

Module DemoAppWitness.
Import DemoApp DemoAppState DemoAppFacts DemoAppPriming DemoScenario DemoMoreScenario.

Lemma run_exit_codes_witness :
  settings s5_run.1 = settings s5_app ∧
  match _resolve_asset_identifier id s5_app (asset s5_app) with
  | Ok asset_id =>
      if verify s5_app
      then ∃ passed, _verify_asset s5_run.1 asset_id = Ok passed ∧
                     s5_run.2 = if passed : bool then 0 else 3
      else s5_run.2 = 0
  | Raise e => e = ManifestError ∧ s5_run.2 = 2 ∧ s5_run.1 = s5_app
  end.
Proof.
  apply (run_exit_codes GateScenario.uuid4 reachable_endpoint no_model id s5_app
           s5_run.1 s5_run.2).
  vm_compute. reflexivity.
Defined.

Example s5_exits_with_0 : s5_run.2 = 0.
Proof. vm_compute. reflexivity. Qed.

Lemma priming_opens_the_session_witness :
  ∃ app',
    _prime_session GateScenario.uuid4 reachable_endpoint s5_app = Ok app' ∧
    SessionManager._session_active (_session_manager app') = true ∧
    SessionManager._current_session_id (_session_manager app')
      = Some (GateScenario.uuid4 0%nat) ∧
    SessionManager._session_start_ts (_session_manager app') = Some (-1) ∧
    InterpreterStateMachine._session_id (_interpreter app')
      = Some (GateScenario.uuid4 0%nat).
Proof.
  apply (priming_opens_the_session GateScenario.uuid4 reachable_endpoint
           (Scenario.config 3000) manifest "s5" true s5_app).
  - vm_compute. reflexivity.
  - vm_compute. discriminate.
  - vm_compute. discriminate.
Defined.

End DemoAppWitness.
